(** * GuardianAI: the per-event enforcement pipeline of the naming watchdog

    A shallow embedding of [guardianAI.py] and [guardianAI2.py].  The two
    scripts react to file-system events: they resolve the owner of the new
    entry, ask a language model whether its name contains a personal name,
    and on a positive verdict delete the entry (with retries and, in the
    first script, a quarantine fallback) and notify the owner.

    Everything the scripts call but do not define (the [os], [shutil],
    [time], [json], [subprocess] and [win32security] functions and the
    language-model chain) is the environment, an instance of the class
    [Env] below.  The scripts themselves are programs of the monad [M],
    which threads the environment's state, carries Python exceptions and
    records the calls that reach the outside world. *)

From Stdlib Require Import Ascii String ZArith PrimFloat.
From stdpp Require Import gmap strings list pretty.

Set Warnings "-register-all".

(** ** Python values and exceptions *)

(** The exception classes the scripts and the library code they call
    distinguish in an [except] clause, and a class for every other
    subclass of [Exception].  [BaseException]s that are no [Exception]
    (a keyboard interrupt) reach the main thread only, never the observer
    thread the handlers run on. *)
Inductive exn_class :=
  | OSError
  | RecursionError
  | ValueError
  | JSONDecodeError
  | AttributeError
  | CalledProcessError
  | OtherException.

Global Instance exn_class_eq_dec : EqDecision exn_class.
Proof. solve_decision. Defined.

(** An exception: its class and [str(e)]. *)
Record exn := Exn { exn_cls : exn_class; exn_str : string }.

Global Instance exn_eq_dec : EqDecision exn.
Proof. solve_decision. Defined.

(** [isinstance(e, cls)]: [json.JSONDecodeError] derives from
    [ValueError]; the other classes are unrelated. *)
Definition isinstance (e : exn) (cls : exn_class) : bool :=
  match exn_cls e, cls with
  | JSONDecodeError, ValueError => true
  | c, c' => bool_decide (c = c')
  end.

Inductive result (A : Type) :=
  | Ok (a : A)
  | Raise (e : exn).
Global Arguments Ok {A} a.
Global Arguments Raise {A} e.

Global Instance result_eq_dec {A} `{EqDecision A} : EqDecision (result A).
Proof. solve_decision. Defined.

Definition raised {A} (r : result A) : option exn :=
  match r with Ok _ => None | Raise e => Some e end.

(** What [json.loads] returns.  A [dict] is the list of its items, in
    insertion order, each key once. *)
Inductive json :=
  | JNull
  | JBool (b : bool)
  | JInt (z : Z)
  | JFloat (f : float)
  | JStr (s : string)
  | JArr (items : list json)
  | JObj (items : list (string * json)).

(** Python's truth value of a parsed JSON value: [None], [False], zero
    and the empty string, list and dict are false. *)
Definition truthy (v : json) : bool :=
  match v with
  | JNull => false
  | JBool b => b
  | JInt z => negb (z =? 0)%Z
  | JFloat f => negb (PrimFloat.eqb f PrimFloat.zero)
  | JStr s => negb (bool_decide (s = EmptyString))
  | JArr l => match l with [] => false | _ => true end
  | JObj l => match l with [] => false | _ => true end
  end.

(** Truth value of an optional string ([None] or [str]). *)
Definition truthy_str (o : option string) : bool :=
  match o with
  | None => false
  | Some s => negb (bool_decide (s = EmptyString))
  end.

Fixpoint assoc_get {A} (k : string) (items : list (string * A)) : option A :=
  match items with
  | [] => None
  | (k', v) :: rest => if bool_decide (k' = k) then Some v else assoc_get k rest
  end.

(** [str.lower()] on ASCII text. *)
Definition lower_ascii (c : ascii) : ascii :=
  let n := nat_of_ascii c in
  if (65 <=? n)%nat && (n <=? 90)%nat then ascii_of_nat (n + 32) else c.

Fixpoint str_lower (s : string) : string :=
  match s with
  | EmptyString => EmptyString
  | String c s' => String (lower_ascii c) (str_lower s')
  end.

(** [s.split(sep)[-1]] for a one-character separator: the text after the
    last separator, the whole string when there is none. *)
Fixpoint split_last_from (sep : ascii) (acc : string) (s : string) : string :=
  match s with
  | EmptyString => acc
  | String c s' =>
      if bool_decide (c = sep) then split_last_from sep s' s'
      else split_last_from sep acc s'
  end.

Definition split_last (sep : ascii) (s : string) : string :=
  split_last_from sep s s.

Definition backslash : ascii := "\"%char.

(** ** Effects and the monad *)

(** One entry of a [os.scandir] listing. *)
Record dir_entry := DirEntry {
  entry_path : string;
  entry_is_dir : bool;
  entry_is_symlink : bool
}.

(** The calls that reach the outside world, each with its outcome, in
    the order in which they return. *)
Inductive effect :=
  | EPrint (line : string)
  | ESleep (secs : Z)
  | EChmod (path : string) (mode : Z) (err : option exn)
  | ERemove (path : string) (err : option exn)
  | ERmtree (path : string) (err : option exn)
  | EScandir (path : string) (err : option exn)
  | EUnlink (path : string) (err : option exn)
  | ERmdir (path : string) (err : option exn)
  | EMakedirs (path : string) (err : option exn)
  | EMove (src dst : string) (err : option exn)
  | EGetOwner (path : string) (err : option exn)
  | ELlm (name : string) (reply : result string)
  | EMsg (machine user message : string) (err : option exn).

Global Instance effect_eq_dec : EqDecision effect.
Proof. solve_decision. Defined.

(** The environment.  [W] is its state: the file system, the oracle, the
    messaging service.  A file-system call that fails raises an
    [OSError], given by its text; the oracle and the external commands
    may raise any exception. *)
Class Env (W : Type) := {
  (* os.path *)
  env_exists : string → W → bool;
  env_isdir : string → W → bool;
  env_islink : string → W → bool;
  env_basename : string → string;
  env_join : string → string → string;
  (* os *)
  env_walk : string → W → list (string * list string * list string);
  env_chmod : string → Z → W → option string * W;
  env_unlink : string → W → option string * W;
  env_rmdir : string → W → option string * W;
  env_scandir : string → W → string + list dir_entry;
  env_makedirs : string → W → option string * W;
  (* shutil.move, time.sleep *)
  env_move : string → string → W → option string * W;
  env_sleep : Z → W → W;
  (* win32security: GetFileSecurity, GetSecurityDescriptorOwner and
     LookupAccountSid in a row; the answer is (name, domain) *)
  env_owner : string → W → result (string * string) * W;
  (* the prompt template piped into the chat model, invoked on a name;
     the answer is the content of the reply *)
  env_llm : string → W → result string * W;
  (* subprocess.run(['msg', '/server:<machine>', user, message], check=True) *)
  env_msg : string → string → string → W → option exn * W;
  (* json.loads on a string; None is json.JSONDecodeError *)
  env_json_loads : string → option json;
  (* frames left for a recursive library function *)
  env_recursion_limit : nat
}.

(** What running a program from a state of the environment gives: the
    value or the exception, the state reached and the effects, oldest
    first. *)
Record outcome (W A : Type) := Outcome {
  res : result A;
  final : W;
  effects : list effect
}.
Global Arguments Outcome {W A} res final effects.
Global Arguments res {W A} o.
Global Arguments final {W A} o.
Global Arguments effects {W A} o.

Definition M (W A : Type) : Type := W → outcome W A.

Definition ret {W A} (a : A) : M W A := λ w, Outcome (Ok a) w [].

Definition raise {W A} (e : exn) : M W A := λ w, Outcome (Raise e) w [].

Definition bind {W A B} (m : M W A) (k : A → M W B) : M W B :=
  λ w,
    let o := m w in
    match res o with
    | Ok a =>
        let o' := k a (final o) in
        Outcome (res o') (final o') (effects o ++ effects o')
    | Raise e => Outcome (Raise e) (final o) (effects o)
    end.

Notation "x <- m ;; k" := (bind m (λ x, k))
  (at level 100, m at next level, right associativity,
   format "'[v' x  <-  m  ;;  '/' k ']'").
Notation "m ;;; k" := (bind m (λ _, k))
  (at level 100, right associativity,
   format "'[v' m  ;;;  '/' k ']'").

(** Whether [except cls] catches [e]; no class stands for
    [except Exception]. *)
Definition catches (cls : option exn_class) (e : exn) : bool :=
  match cls with
  | None => true
  | Some c => isinstance e c
  end.

(** [try: body except cls as e: handler e].  An exception of another
    class, and one raised by the handler, propagate. *)
Definition try_except {W A} (cls : option exn_class)
    (body : M W A) (handler : exn → M W A) : M W A :=
  λ w,
    let o := body w in
    match res o with
    | Ok a => o
    | Raise e =>
        if catches cls e then
          let o' := handler e (final o) in
          Outcome (res o') (final o') (effects o ++ effects o')
        else o
    end.

(** [except Exception] *)
Definition try_except_all {W A} : M W A → (exn → M W A) → M W A :=
  try_except None.

(** [for x in l: body x] *)
Fixpoint for_each {W A} (l : list A) (body : A → M W unit) : M W unit :=
  match l with
  | [] => ret ()
  | x :: l' => body x ;;; for_each l' body
  end.

Definition os_error (msg : string) : exn := Exn OSError msg.

Definition os_failure (err : option string) : option exn := os_error <$> err.

Definition result_of_err (err : option exn) : result unit :=
  match err with None => Ok () | Some e => Raise e end.

Section Library.
Context {W : Type} `{!Env W}.

(** *** Calls into the environment *)

Definition print (line : string) : M W unit :=
  λ w, Outcome (Ok ()) w [EPrint line].

(** [time.sleep] refuses a negative length. *)
Definition time_sleep (secs : Z) : M W unit :=
  if (secs <? 0)%Z then raise (Exn ValueError "sleep length must be non-negative")
  else λ w, Outcome (Ok ()) (env_sleep secs w) [ESleep secs].

Definition os_path_exists (path : string) : M W bool :=
  λ w, Outcome (Ok (env_exists path w)) w [].

Definition os_path_isdir (path : string) : M W bool :=
  λ w, Outcome (Ok (env_isdir path w)) w [].

Definition os_path_islink (path : string) : M W bool :=
  λ w, Outcome (Ok (env_islink path w)) w [].

(** [os.walk(top)], top-down, with the listing taken when the loop
    starts; errors of the walk itself are ignored by [os.walk]. *)
Definition os_walk (top : string) : M W (list (string * list string * list string)) :=
  λ w, Outcome (Ok (env_walk top w)) w [].

(** A file-system call without a result: run it, log it, raise its
    [OSError]. *)
Definition fs_call (op : W → option string * W) (log : option exn → effect) : M W unit :=
  λ w,
    let '(err, w') := op w in
    Outcome (result_of_err (os_failure err)) w' [log (os_failure err)].

Definition os_chmod (path : string) (mode : Z) : M W unit :=
  fs_call (env_chmod path mode) (EChmod path mode).

(** [os.remove] and [os.unlink] are one function. *)
Definition os_remove (path : string) : M W unit :=
  fs_call (env_unlink path) (ERemove path).

Definition os_unlink (path : string) : M W unit :=
  fs_call (env_unlink path) (EUnlink path).

Definition os_rmdir (path : string) : M W unit :=
  fs_call (env_rmdir path) (ERmdir path).

(** [os.makedirs(path, exist_ok=True)] *)
Definition os_makedirs (path : string) : M W unit :=
  fs_call (env_makedirs path) (EMakedirs path).

Definition shutil_move (src dst : string) : M W unit :=
  fs_call (env_move src dst) (EMove src dst).

(** [list(os.scandir(path))] *)
Definition os_scandir (path : string) : M W (list dir_entry) :=
  λ w,
    match env_scandir path w with
    | inl msg => Outcome (Raise (os_error msg)) w [EScandir path (Some (os_error msg))]
    | inr entries => Outcome (Ok entries) w [EScandir path None]
    end.

Definition win32_owner (path : string) : M W (string * string) :=
  λ w,
    let '(r, w') := env_owner path w in
    Outcome r w' [EGetOwner path (raised r)].

Definition llm_chain_invoke (name : string) : M W string :=
  λ w,
    let '(r, w') := env_llm name w in
    Outcome r w' [ELlm name r].

Definition subprocess_run_msg (machine user message : string) : M W unit :=
  λ w,
    let '(err, w') := env_msg machine user message w in
    Outcome (result_of_err err) w' [EMsg machine user message err].

(** [json.loads(s)] *)
Definition json_loads (s : string) : M W json :=
  match env_json_loads s with
  | Some v => ret v
  | None => raise (Exn JSONDecodeError "Expecting value")
  end.

(** [v.get(key, default)]: only a [dict] has the method. *)
Definition py_get (v : json) (key : string) (dflt : json) : M W json :=
  match v with
  | JObj items => ret (default dflt (assoc_get key items))
  | _ => raise (Exn AttributeError "object has no attribute 'get'")
  end.
End Library.

(** ** [shutil.rmtree] with an [onerror] handler

    CPython's [shutil.rmtree(path, onerror=h)] (3.8 to 3.12) in the
    variant without directory descriptors, the one in use on Windows, on
    listings whose entries know their kind.  Every [OSError] of
    a step goes to the handler, with the function that failed, the path
    and the exception, and the walk goes on.  The function recurses on the
    directories; [frames] is the number of frames the interpreter still
    allows, and exceeding it raises [RecursionError], which is no
    [OSError]. *)
Section Rmtree.
Context {W : Type} `{!Env W}.

(** Run [body], then log the call with its outcome. *)
Definition observed {A} (log : option exn → effect) (body : M W A) : M W A :=
  λ w,
    let o := body w in
    Outcome (res o) (final o) (effects o ++ [log (raised (res o))]).

Definition symlink_error : exn :=
  os_error "Cannot call rmtree on a symbolic link".

Fixpoint rmtree_unsafe (frames : nat) (path : string)
    (onerror : string → string → exn → M W unit) : M W unit :=
  match frames with
  | O => raise (Exn RecursionError "maximum recursion depth exceeded")
  | S frames' =>
      entries <- try_except (Some OSError)
                   (os_scandir path)
                   (λ e, onerror "os.scandir" path e ;;; ret []) ;;
      for_each entries (λ entry,
        let fullname := entry_path entry in
        if entry_is_dir entry then
          if entry_is_symlink entry then
            onerror "os.path.islink" fullname symlink_error
          else rmtree_unsafe frames' fullname onerror
        else
          try_except (Some OSError)
            (os_unlink fullname)
            (λ e, onerror "os.unlink" fullname e)) ;;;
      try_except (Some OSError)
        (os_rmdir path)
        (λ e, onerror "os.rmdir" path e)
  end.

Definition shutil_rmtree (path : string)
    (onerror : string → string → exn → M W unit) : M W unit :=
  observed (ERmtree path)
    (link <- os_path_islink path ;;
     if link then onerror "os.path.islink" path symlink_error
     else rmtree_unsafe env_recursion_limit path onerror).
End Rmtree.

(** ** The code the two scripts share

    [get_owner], [Chain.check_names], [send_msg_to_user] and
    [WatcherHandler.on_rm_error] are the same text in [guardianAI.py] and
    [guardianAI2.py]. *)

Definition dquote : string := String (ascii_of_nat 34) EmptyString.
Definition newline : string := String (ascii_of_nat 10) EmptyString.

(** ['{"name_found": false}'] *)
Definition name_found_false : string :=
  "{" +:+ dquote +:+ "name_found" +:+ dquote +:+ ": false}".

(** ['{"name_found": true}'] *)
Definition name_found_true : string :=
  "{" +:+ dquote +:+ "name_found" +:+ dquote +:+ ": true}".

(** [stat.S_IWRITE] and the mode [0o777]. *)
Definition S_IWRITE : Z := 128.
Definition mode_777 : Z := 511.

Section Shared.
Context {W : Type} `{!Env W}.

Definition get_owner (path : string) : M W string :=
  try_except_all
    (nd <- win32_owner path ;;
     let '(name, domain) := nd in
     ret (domain +:+ "\" +:+ name))
    (λ e,
      print ("[WARNING] Could not get owner for " +:+ path +:+ ": " +:+ exn_str e) ;;;
      ret "Unknown").

(** [Chain.check_names]: the reply's content, or the fixed negative
    answer when the call raises. *)
Definition check_names (name : string) : M W string :=
  try_except_all
    (llm_chain_invoke name)
    (λ e,
      print ("[ERROR] LLM call failed for '" +:+ name +:+ "': " +:+ exn_str e) ;;;
      ret name_found_false).

Definition send_msg_to_user (client_machine username message : string) : M W unit :=
  try_except (Some CalledProcessError)
    (subprocess_run_msg client_machine username message ;;;
     print ("[INFO] Sent message to " +:+ username +:+ "@" +:+ client_machine))
    (λ e, print ("[ERROR] Failed to send msg: " +:+ exn_str e)).

(** [WatcherHandler.on_rm_error], the handler given to
    [shutil.rmtree]. *)
Definition on_rm_error (func path : string) (exc_info : exn) : M W unit :=
  try_except_all
    (os_chmod path S_IWRITE ;;;
     isdir <- os_path_isdir path ;;
     (if isdir : bool then os_rmdir path else os_unlink path) ;;;
     print ("[ACTION] Fixed permissions and removed: " +:+ path))
    (λ e, print ("[ERROR] Could not remove " +:+ path +:+ ": " +:+ exn_str e)).

(** The classification block of [process_name]: the oracle's reply,
    parsed, and its [name_found] entry, [False] when the entry is missing
    or the reply is no JSON. *)
Definition classify (name : string) : M W json :=
  raw_response <- check_names name ;;
  try_except (Some JSONDecodeError)
    (response_json <- json_loads raw_response ;;
     py_get response_json "name_found" (JBool false))
    (λ _,
      print ("[WARNING] Invalid JSON from LLM for '" +:+ name +:+ "': " +:+ raw_response) ;;;
      ret (JBool false)).

(** The first block of an attempt in [delete_path]: relax the
    permissions of the entry, for a folder of everything below it;
    a failure is logged and ends the block. *)
Definition fix_permissions (path : string) (is_folder : bool) : M W unit :=
  try_except_all
    (if is_folder then
       listing <- os_walk path ;;
       for_each listing (λ '(root, dirs, files),
         for_each dirs (λ d, os_chmod (env_join root d) mode_777) ;;;
         for_each files (λ f, os_chmod (env_join root f) mode_777)) ;;;
       os_chmod path mode_777
     else os_chmod path mode_777)
    (λ e, print ("[WARNING] Could not modify permissions: " +:+ exn_str e)).

(** The removal of an attempt. *)
Definition remove_entry (path : string) (is_folder : bool) : M W unit :=
  if is_folder then shutil_rmtree path on_rm_error else os_remove path.

Definition kind_word (is_folder : bool) : string :=
  if is_folder then "folder" else "file".

(** The message to the owner. *)
Definition removal_message (typ name : string) : string :=
  "The " +:+ str_lower typ +:+ " name '" +:+ name +:+
  "' contains a personal name and violates naming guidelines." +:+ newline +:+
  "It has been removed. Please rename it according to the policy.".
End Shared.

(** How an iteration of the retry loop ends: with a [return], or by
    going on to the next attempt. *)
Inductive flow :=
  | Return (v : bool)
  | Continue.

(** A file-system event of the observer. *)
Record fs_event := FsEvent {
  src_path : string;
  dest_path : string;
  is_directory : bool
}.

(** ** guardianAI.py *)
Module GuardianAI.

Definition user_to_machine : gmap string string :=
  <["APAC\HEKOLLI" := "C185LX082414174"]>
  (<["APAC\KHAIRES" := "C185LX083361454"]>
  (<["APAC\SURESAD" := "C185LX091093328"]>
  (<["APAC\SONIARN" := "C185LX091074664"]> ∅))).

(** The fields of a [WatcherHandler] the pipeline reads; [chain] is
    the oracle of the environment. *)
Record WatcherHandler := { quarantine_dir : option string }.

Section Handler.
Context {W : Type} `{!Env W}.

(** The quarantine branch, taken after the last failed attempt:
    [Some true] is its [return True], [None] falls through to the
    final error. *)
Definition quarantine (self : WatcherHandler) (path : string) : M W (option bool) :=
  match quarantine_dir self with
  | Some dir =>
      if truthy_str (Some dir) then
        try_except_all
          (os_makedirs dir ;;;
           let basename := env_basename path in
           let quarantine_path := env_join dir basename in
           shutil_move path quarantine_path ;;;
           print ("[ACTION] Moved to quarantine folder: " +:+ quarantine_path) ;;;
           ret (Some true))
          (λ move_err,
            print ("[ERROR] Failed to move to quarantine: " +:+ exn_str move_err) ;;;
            ret None)
      else ret None
  | None => ret None
  end.

(** One iteration of [for attempt in range(1, max_retries + 1)]. *)
Definition delete_attempt (self : WatcherHandler) (path : string) (is_folder : bool)
    (max_retries retry_delay attempt : Z) : M W flow :=
  try_except_all
    (fix_permissions path is_folder ;;;
     remove_entry path is_folder ;;;
     print ("[ACTION] Successfully deleted " +:+ kind_word is_folder +:+ ": " +:+ path) ;;;
     ret (Return true))
    (λ e,
      print ("[WARNING] Attempt " +:+ pretty attempt +:+ " failed to delete " +:+
             path +:+ ": " +:+ exn_str e) ;;;
      if (attempt <? max_retries)%Z then
        time_sleep retry_delay ;;;
        ret Continue
      else
        moved <- quarantine self path ;;
        match moved with
        | Some v => ret (Return v)
        | None =>
            print ("[ERROR] Failed to delete " +:+ path +:+ " after " +:+
                   pretty max_retries +:+ " attempts.") ;;;
            ret (Return false)
        end).

(** The loop; when the range is exhausted without a [return] the
    function ends and its value is [None]. *)
Fixpoint delete_loop (self : WatcherHandler) (path : string) (is_folder : bool)
    (max_retries retry_delay : Z) (attempts : list Z) : M W (option bool) :=
  match attempts with
  | [] => ret None
  | attempt :: rest =>
      f <- delete_attempt self path is_folder max_retries retry_delay attempt ;;
      match f with
      | Return v => ret (Some v)
      | Continue => delete_loop self path is_folder max_retries retry_delay rest
      end
  end.

Definition delete_path (self : WatcherHandler) (path : string) (is_folder : bool)
    (max_retries retry_delay : Z) : M W (option bool) :=
  found <- os_path_exists path ;;
  if negb found then
    print ("[INFO] Path does not exist: " +:+ path) ;;;
    ret (Some false)
  else
    delete_loop self path is_folder max_retries retry_delay (seqZ 1 max_retries).

Definition process_name (self : WatcherHandler) (path : string) (is_folder : bool) : M W unit :=
  let name := env_basename path in
  let typ := if is_folder then "Folder" else "File" in
  owner <- get_owner path ;;
  print (typ +:+ " detected: " +:+ name +:+ " (Owner: " +:+ owner +:+ ")") ;;;
  name_found <- classify name ;;
  if truthy name_found then
    print ("[ALERT] Personal name found in " +:+ str_lower typ +:+ " name: '" +:+ name +:+
           "' (Owner: " +:+ owner +:+ ")") ;;;
    delete_path self path is_folder 3 2 ;;;
    let client_machine := user_to_machine !! owner in
    if truthy_str client_machine then
      let username_only := split_last backslash owner in
      let message := removal_message typ name in
      send_msg_to_user (default EmptyString client_machine) username_only message
    else
      print ("[WARNING] No client machine mapping found for user " +:+ owner +:+
             ", cannot send notification.")
  else
    print ("[INFO] No personal name detected in " +:+ str_lower typ +:+ " name: '" +:+
           name +:+ "'").

Definition on_created (self : WatcherHandler) (event : fs_event) : M W unit :=
  process_name self (src_path event) (is_directory event).

Definition on_moved (self : WatcherHandler) (event : fs_event) : M W unit :=
  process_name self (dest_path event) (is_directory event).
End Handler.
End GuardianAI.

(** ** guardianAI2.py *)
Module GuardianAI2.

Definition user_to_machine : gmap string string :=
  <["APAC\HEKOLLI" := "C185LX082414174"]>
  (<["APAC\KHAIRES" := "C185LX083361454"]>
  (<["APAC\SURESAD" := "C185LX091093328"]>
  (<["APAC\SONIARN" := "C185LX091074664"]>
  (<["APAC\SINGSID" := "C185LX083361246"]> ∅)))).

Section Handler.
Context {W : Type} `{!Env W}.

Definition delete_attempt (path : string) (is_folder : bool)
    (max_retries retry_delay attempt : Z) : M W flow :=
  try_except_all
    (fix_permissions path is_folder ;;;
     remove_entry path is_folder ;;;
     print ("[ACTION] Successfully deleted " +:+ kind_word is_folder +:+ ": " +:+ path) ;;;
     ret (Return true))
    (λ e,
      print ("[WARNING] Attempt " +:+ pretty attempt +:+ " failed to delete " +:+
             path +:+ ": " +:+ exn_str e) ;;;
      if (attempt <? max_retries)%Z then
        time_sleep retry_delay ;;;
        ret Continue
      else
        print ("[ERROR] Failed to delete " +:+ path +:+ " after " +:+
               pretty max_retries +:+ " attempts.") ;;;
        ret (Return false)).

Fixpoint delete_loop (path : string) (is_folder : bool)
    (max_retries retry_delay : Z) (attempts : list Z) : M W (option bool) :=
  match attempts with
  | [] => ret None
  | attempt :: rest =>
      f <- delete_attempt path is_folder max_retries retry_delay attempt ;;
      match f with
      | Return v => ret (Some v)
      | Continue => delete_loop path is_folder max_retries retry_delay rest
      end
  end.

Definition delete_path (path : string) (is_folder : bool)
    (max_retries retry_delay : Z) : M W (option bool) :=
  found <- os_path_exists path ;;
  if negb found then
    print ("[INFO] Path does not exist: " +:+ path) ;;;
    ret (Some false)
  else
    delete_loop path is_folder max_retries retry_delay (seqZ 1 max_retries).

Definition process_name (path : string) (is_folder : bool) : M W unit :=
  let name := env_basename path in
  let typ := if is_folder then "Folder" else "File" in
  owner <- get_owner path ;;
  print (typ +:+ " detected: " +:+ name +:+ " (Owner: " +:+ owner +:+ ")") ;;;
  name_found <- classify name ;;
  if truthy name_found then
    print ("[ALERT] Personal name found in " +:+ str_lower typ +:+ " name: '" +:+ name +:+
           "' (Owner: " +:+ owner +:+ ")") ;;;
    delete_path path is_folder 3 2 ;;;
    let client_machine := user_to_machine !! owner in
    if truthy_str client_machine then
      let username_only := split_last backslash owner in
      let message := removal_message typ name in
      send_msg_to_user (default EmptyString client_machine) username_only message
    else
      print ("[WARNING] No client machine mapping found for user " +:+ owner +:+
             ", cannot send notification.")
  else
    print ("[INFO] No personal name detected in " +:+ str_lower typ +:+ " name: '" +:+
           name +:+ "'").

Definition on_created (event : fs_event) : M W unit :=
  process_name (src_path event) (is_directory event).

Definition on_moved (event : fs_event) : M W unit :=
  process_name (dest_path event) (is_directory event).
End Handler.
End GuardianAI2.

(** A handler of guardianAI.py without a quarantine directory, as
    [WatcherHandler(chain)] builds it. *)
Definition plain_handler : GuardianAI.WatcherHandler :=
  {| GuardianAI.quarantine_dir := None |}.

(** ** A reference JSON reader

    [json_loads_ref] reads the JSON texts made of objects, arrays,
    strings without escapes, integers, [true], [false] and [null], with
    JSON's white space; it is the [json.loads] of the simulated
    environment below.  Floating-point literals and escaped strings are
    outside of what it reads. *)
Module JsonRef.

Definition is_ws (c : ascii) : bool :=
  let n := nat_of_ascii c in
  (n =? 32)%nat || (n =? 9)%nat || (n =? 10)%nat || (n =? 13)%nat.

Definition is_digit (c : ascii) : bool :=
  let n := nat_of_ascii c in (48 <=? n)%nat && (n <=? 57)%nat.

Definition digit_val (c : ascii) : Z := Z.of_nat (nat_of_ascii c) - 48.

Fixpoint skip_ws (s : string) : string :=
  match s with
  | String c s' => if is_ws c then skip_ws s' else s
  | EmptyString => s
  end.

(** [expect lit s]: [s] without its prefix [lit]. *)
Fixpoint expect (lit s : string) : option string :=
  match lit, s with
  | EmptyString, _ => Some s
  | String c lit', String c' s' =>
      if bool_decide (c = c') then expect lit' s' else None
  | String _ _, EmptyString => None
  end.

Fixpoint read_digits (acc : Z) (s : string) : Z * string :=
  match s with
  | String c s' =>
      if is_digit c then read_digits (10 * acc + digit_val c) s' else (acc, s)
  | EmptyString => (acc, s)
  end.

Definition starts_fraction (s : string) : bool :=
  match s with
  | String c _ =>
      bool_decide (c = "."%char) || bool_decide (c = "e"%char) || bool_decide (c = "E"%char)
  | EmptyString => false
  end.

(** An integer literal whose first digit is [d]. *)
Definition read_int (negative : bool) (d : ascii) (s : string) : option (json * string) :=
  let '(v, rest) :=
    if bool_decide (d = "0"%char) then (0%Z, s) else read_digits (digit_val d) s in
  if starts_fraction rest then None
  else Some (JInt (if negative then - v else v)%Z, rest).

(** The text of a string literal after its opening quote. *)
Fixpoint read_string (s : string) : option (string * string) :=
  match s with
  | String c s' =>
      if (nat_of_ascii c =? 34)%nat then Some (EmptyString, s')
      else if (nat_of_ascii c =? 92)%nat || (nat_of_ascii c <? 32)%nat then None
      else '(body, rest) ← read_string s'; Some (String c body, rest)
  | EmptyString => None
  end.

(** [d[k] = v]: an existing key keeps its place. *)
Fixpoint dict_set (k : string) (v : json) (items : list (string * json)) :
    list (string * json) :=
  match items with
  | [] => [(k, v)]
  | (k', v') :: rest =>
      if bool_decide (k' = k) then (k, v) :: rest else (k', v') :: dict_set k v rest
  end.

Section Value.
Variable read_value : string → option (json * string).

(** The elements of an array after the first one. *)
Fixpoint read_elements (n : nat) (acc : list json) (s : string) :
    option (json * string) :=
  match n with
  | O => None
  | S n' =>
      match skip_ws s with
      | String c rest =>
          if bool_decide (c = "]"%char) then Some (JArr acc, rest)
          else if bool_decide (c = ","%char) then
            '(v, rest') ← read_value rest;
            read_elements n' (acc ++ [v]) rest'
          else None
      | EmptyString => None
      end
  end.

(** One [key: value] member, from the opening quote of the key. *)
Definition read_member (s : string) : option (string * json * string) :=
  match skip_ws s with
  | String c rest =>
      if (nat_of_ascii c =? 34)%nat then
        '(k, rest1) ← read_string rest;
        match skip_ws rest1 with
        | String c' rest2 =>
            if bool_decide (c' = ":"%char) then
              '(v, rest3) ← read_value rest2; Some (k, v, rest3)
            else None
        | EmptyString => None
        end
      else None
  | EmptyString => None
  end.

(** The members of an object after the first one. *)
Fixpoint read_members (n : nat) (acc : list (string * json)) (s : string) :
    option (json * string) :=
  match n with
  | O => None
  | S n' =>
      match skip_ws s with
      | String c rest =>
          if bool_decide (c = "}"%char) then Some (JObj acc, rest)
          else if bool_decide (c = ","%char) then
            '(k, v, rest') ← read_member rest;
            read_members n' (dict_set k v acc) rest'
          else None
      | EmptyString => None
      end
  end.
End Value.

Fixpoint read_value (fuel : nat) (s : string) : option (json * string) :=
  match fuel with
  | O => None
  | S fuel' =>
      match skip_ws s with
      | EmptyString => None
      | String c rest =>
          if bool_decide (c = "n"%char) then rest' ← expect "ull" rest; Some (JNull, rest')
          else if bool_decide (c = "t"%char) then
            rest' ← expect "rue" rest; Some (JBool true, rest')
          else if bool_decide (c = "f"%char) then
            rest' ← expect "alse" rest; Some (JBool false, rest')
          else if (nat_of_ascii c =? 34)%nat then
            '(body, rest') ← read_string rest; Some (JStr body, rest')
          else if bool_decide (c = "-"%char) then
            match rest with
            | String d rest' => if is_digit d then read_int true d rest' else None
            | EmptyString => None
            end
          else if is_digit c then read_int false c rest
          else if bool_decide (c = "["%char) then
            match skip_ws rest with
            | String c' rest' =>
                if bool_decide (c' = "]"%char) then Some (JArr [], rest')
                else
                  '(v, rest1) ← read_value fuel' rest;
                  read_elements (read_value fuel') (String.length rest) [v] rest1
            | EmptyString => None
            end
          else if bool_decide (c = "{"%char) then
            match skip_ws rest with
            | String c' rest' =>
                if bool_decide (c' = "}"%char) then Some (JObj [], rest')
                else
                  '(k, v, rest1) ← read_member (read_value fuel') rest;
                  read_members (read_value fuel') (String.length rest) [(k, v)] rest1
            | EmptyString => None
            end
          else None
      end
  end.

(** The whole text is one value, with white space around it. *)
Definition json_loads_ref (s : string) : option json :=
  '(v, rest) ← read_value (S (String.length s)) s;
  match skip_ws rest with
  | EmptyString => Some v
  | String _ _ => None
  end.
End JsonRef.

(** ** A simulated environment

    A small file system on which the scripts can be run: a table from
    paths to nodes, with the Windows rules the scripts meet (a read-only
    entry cannot be removed until its mode is changed, an entry in use
    cannot be removed at all, a directory must be empty to be removed).
    The oracle, the security service and the messaging command answer from
    fixed tables. *)
Module Sim.

Record node := Node {
  is_dir : bool;
  children : list string;
  read_only : bool;
  in_use : bool;          (* open in another process: cannot be unlinked *)
  pinned : bool           (* cannot be renamed either *)
}.

Record world := World {
  nodes : gmap string node;
  oracle : string → result string;
  owners : string → result (string * string);
  msg_outcome : option exn
}.

Definition with_nodes (w : world) (ns : gmap string node) : world :=
  World ns (oracle w) (owners w) (msg_outcome w).

Definition exists_ (path : string) (w : world) : bool :=
  bool_decide (is_Some (nodes w !! path)).

Definition isdir (path : string) (w : world) : bool :=
  match nodes w !! path with
  | Some n => is_dir n
  | None => false
  end.

Definition join (a b : string) : string := a +:+ "\" +:+ b.

Definition basename (path : string) : string := split_last backslash path.

(** The children of a directory that are present. *)
Definition present (path : string) (n : node) (w : world) : list string :=
  filter (λ c, exists_ (join path c) w = true) (children n).

Fixpoint walk (depth : nat) (top : string) (w : world) :
    list (string * list string * list string) :=
  match depth with
  | O => []
  | S depth' =>
      match nodes w !! top with
      | Some n =>
          if is_dir n then
            let names := present top n w in
            let dirs := filter (λ c, isdir (join top c) w = true) names in
            let files := filter (λ c, isdir (join top c) w = false) names in
            (top, dirs, files) :: flat_map (λ d, walk depth' (join top d) w) dirs
          else []
      | None => []
      end
  end.

Definition chmod (path : string) (mode : Z) (w : world) : option string * world :=
  match nodes w !! path with
  | Some n =>
      let n' := Node (is_dir n) (children n) (negb (Z.testbit mode 7)) (in_use n) (pinned n) in
      (None, with_nodes w (<[path := n']> (nodes w)))
  | None => (Some "[WinError 2] The system cannot find the file specified", w)
  end.

Definition unlink (path : string) (w : world) : option string * world :=
  match nodes w !! path with
  | Some n =>
      if is_dir n || read_only n then (Some "[WinError 5] Access is denied", w)
      else if in_use n then
        (Some "[WinError 32] The process cannot access the file because it is being used by another process", w)
      else (None, with_nodes w (delete path (nodes w)))
  | None => (Some "[WinError 2] The system cannot find the file specified", w)
  end.

Definition rmdir (path : string) (w : world) : option string * world :=
  match nodes w !! path with
  | Some n =>
      if negb (is_dir n) then (Some "[WinError 267] The directory name is invalid", w)
      else if negb (bool_decide (present path n w = [])) then
        (Some "[WinError 145] The directory is not empty", w)
      else if read_only n then (Some "[WinError 5] Access is denied", w)
      else if in_use n then
        (Some "[WinError 32] The process cannot access the file because it is being used by another process", w)
      else (None, with_nodes w (delete path (nodes w)))
  | None => (Some "[WinError 3] The system cannot find the path specified", w)
  end.

Definition scandir (path : string) (w : world) : string + list dir_entry :=
  match nodes w !! path with
  | Some n =>
      if is_dir n then
        inr ((λ c, DirEntry (join path c) (isdir (join path c) w) false) <$> present path n w)
      else inl "[WinError 267] The directory name is invalid"
  | None => inl "[WinError 3] The system cannot find the path specified"
  end.

Definition makedirs (path : string) (w : world) : option string * world :=
  match nodes w !! path with
  | Some n =>
      if is_dir n then (None, w)
      else (Some "[WinError 183] Cannot create a file when that file already exists", w)
  | None => (None, with_nodes w (<[path := Node true [] false false false]> (nodes w)))
  end.

(** A rename of a file or of an empty directory to a free path. *)
Definition move (src dst : string) (w : world) : option string * world :=
  match nodes w !! src with
  | Some n =>
      if pinned n then
        (Some "[WinError 32] The process cannot access the file because it is being used by another process", w)
      else if negb (bool_decide (present src n w = [])) then
        (Some "[WinError 5] Access is denied", w)
      else if exists_ dst w then
        (Some ("Destination path '" +:+ dst +:+ "' already exists"), w)
      else (None, with_nodes w (<[dst := n]> (delete src (nodes w))))
  | None => (Some "[Errno 2] No such file or directory", w)
  end.

Global Instance sim_env : Env world := {|
  env_exists := exists_;
  env_isdir := isdir;
  env_islink := λ _ _, false;
  env_basename := basename;
  env_join := join;
  env_walk := λ top w, walk (S (size (nodes w))) top w;
  env_chmod := chmod;
  env_unlink := unlink;
  env_rmdir := rmdir;
  env_scandir := scandir;
  env_makedirs := makedirs;
  env_move := move;
  env_sleep := λ _ w, w;
  env_owner := λ path w, (owners w path, w);
  env_llm := λ name w, (oracle w name, w);
  env_msg := λ _ _ _ w, (msg_outcome w, w);
  env_json_loads := JsonRef.json_loads_ref;
  env_recursion_limit := 1000
|}.

(** *** Sample worlds *)

Definition plain_file : node := Node false [] false false false.
Definition busy_file : node := Node false [] false true false.
Definition stuck_file : node := Node false [] false true true.
Definition folder (names : list string) : node := Node true names false false false.

Definition reply_true : string := name_found_true.

Definition hekolli : result (string * string) := Ok ("HEKOLLI", "APAC").
Definition stranger : result (string * string) := Ok ("GUEST", "APAC").

(** A watched share holding one entry table, an oracle with one
    answer for every name and one owner for every path. *)
Definition share (table : list (string * node)) (reply : result string)
    (owner : result (string * string)) : world :=
  World (list_to_map table) (λ _, reply) (λ _, owner) None.

Definition report : string := "W:\PPC\Rahul_Budget_Report".
Definition notes : string := "W:\PPC\John_Notes.docx".

(** A file another process holds open. *)
Definition w_busy : world :=
  share [(notes, busy_file)] (Ok reply_true) hekolli.

(** The same, and the file cannot be renamed either. *)
Definition w_stuck : world :=
  share [(notes, stuck_file)] (Ok reply_true) hekolli.

(** A folder with a free file and a file in use. *)
Definition w_folder : world :=
  share [(report, folder ["a.txt"; "b.xlsx"]);
         (join report "a.txt", plain_file);
         (join report "b.xlsx", busy_file)] (Ok reply_true) hekolli.

(** A free file, and an oracle that answers with a bare [true]. *)
Definition w_bare_reply : world :=
  share [(notes, plain_file)] (Ok "true") hekolli.

(** A free file, and an oracle that finds no name. *)
Definition w_clean : world :=
  share [(notes, plain_file)] (Ok name_found_false) hekolli.

(** The open file, owned by a user without a machine. *)
Definition w_stranger : world :=
  share [(notes, stuck_file)] (Ok reply_true) stranger.

Definition no_quarantine : GuardianAI.WatcherHandler :=
  {| GuardianAI.quarantine_dir := None |}.
Definition with_quarantine : GuardianAI.WatcherHandler :=
  {| GuardianAI.quarantine_dir := Some "Q:\Quarantine_Folder" |}.
End Sim.

(** ** Reading a run *)

(** The steps of the deletion engine among the effects of a run: a
    removal ([os.remove] or [shutil.rmtree]), a pause, a step of the
    quarantine fallback ([os.makedirs], [shutil.move]). *)
Inductive step :=
  | DeleteAttempt
  | Pause (secs : Z)
  | QuarantineStep.

Global Instance step_eq_dec : EqDecision step.
Proof. solve_decision. Defined.

Definition step_of (e : effect) : option step :=
  match e with
  | ERemove _ _ | ERmtree _ _ => Some DeleteAttempt
  | ESleep secs => Some (Pause secs)
  | EMakedirs _ _ | EMove _ _ _ => Some QuarantineStep
  | _ => None
  end.

Definition steps (tr : list effect) : list step := omap step_of tr.

(** [n] attempts with a pause between one and the next. *)
Fixpoint retries (n : nat) (secs : Z) : list step :=
  match n with
  | O => []
  | S n' =>
      DeleteAttempt ::
      match n' with
      | O => []
      | S _ => Pause secs :: retries n' secs
      end
  end.

Definition attempts (tr : list effect) : nat :=
  length (filter (λ s, s = DeleteAttempt) (steps tr)).

Definition pauses (tr : list effect) : list Z :=
  omap (λ s, match s with Pause secs => Some secs | _ => None end) (steps tr).

Definition quarantine_steps (tr : list effect) : nat :=
  length (filter (λ s, s = QuarantineStep) (steps tr)).

(** A removal that returned without an exception. *)
Definition removal_ok (e : effect) : bool :=
  match e with
  | ERemove _ None | ERmtree _ None => true
  | _ => false
  end.

Definition every_removal_fails (tr : list effect) : bool :=
  forallb (λ e, negb (removal_ok e)) tr.

(** No recursive removal ran out of frames. *)
Definition within_recursion_limit (tr : list effect) : bool :=
  forallb (λ e,
    match e with
    | ERmtree _ (Some x) => negb (bool_decide (exn_cls x = RecursionError))
    | _ => true
    end) tr.

(** A recursive removal that failed did so by running out of frames,
    not by the failure of a step on an entry. *)
Definition overflow_only (e : effect) : Prop :=
  match e with
  | ERmtree _ (Some x) => exn_cls x = RecursionError
  | _ => True
  end.

(** The messaging command was run. *)
Definition is_msg (e : effect) : bool :=
  match e with
  | EMsg _ _ _ _ => true
  | _ => false
  end.

Definition notified (tr : list effect) : bool := existsb is_msg tr.

(** The effect of the removal of an attempt. *)
Definition removal_effect (is_folder : bool) (path : string) (err : option exn) : effect :=
  if is_folder then ERmtree path err else ERemove path err.

(** The effects of housekeeping: a line of the log, a change of mode, a
    step inside a recursive removal.  None is a step of the engine, and
    none is a message. *)
Definition quiet (e : effect) : Prop :=
  match e with
  | EPrint _ | EChmod _ _ _ | EScandir _ _ | EUnlink _ _ | ERmdir _ _ => True
  | _ => False
  end.

(** The lines [delete_path] logs. *)
Definition success_line (path : string) (is_folder : bool) : string :=
  "[ACTION] Successfully deleted " +:+ kind_word is_folder +:+ ": " +:+ path.
Definition warning_line (path : string) (attempt : Z) (e : exn) : string :=
  "[WARNING] Attempt " +:+ pretty attempt +:+ " failed to delete " +:+ path +:+ ": " +:+
  exn_str e.
Definition failure_line (path : string) (max_retries : Z) : string :=
  "[ERROR] Failed to delete " +:+ path +:+ " after " +:+ pretty max_retries +:+ " attempts.".
Definition missing_line (path : string) : string :=
  "[INFO] Path does not exist: " +:+ path.
Definition moved_line (dst : string) : string :=
  "[ACTION] Moved to quarantine folder: " +:+ dst.
Definition move_failed_line (msg : string) : string :=
  "[ERROR] Failed to move to quarantine: " +:+ msg.

(** The line [process_name] logs for an owner without a machine. *)
Definition no_mapping_line (owner : string) : string :=
  "[WARNING] No client machine mapping found for user " +:+ owner +:+
  ", cannot send notification.".

Definition type_word (is_folder : bool) : string :=
  if is_folder then "Folder" else "File".

(** The blocks of [process_name], over the mapping and the deletion
    of either script.  [screening] is the pipeline up to the verdict: the
    owner and the value of [name_found].  [notification] is its last
    block.  [pipeline] is the whole of it. *)
Section Pipeline.
Context {W : Type} `{!Env W}.
Variable mapping : gmap string string.
Variable deletion : M W (option bool).

Definition screening (path : string) (is_folder : bool) : M W (string * json) :=
  let name := env_basename path in
  let typ := type_word is_folder in
  owner <- get_owner path ;;
  print (typ +:+ " detected: " +:+ name +:+ " (Owner: " +:+ owner +:+ ")") ;;;
  name_found <- classify name ;;
  ret (owner, name_found).

Definition notification (path : string) (is_folder : bool) (owner : string) : M W unit :=
  let name := env_basename path in
  let typ := type_word is_folder in
  let client_machine := mapping !! owner in
  if truthy_str client_machine then
    let username_only := split_last backslash owner in
    let message := removal_message typ name in
    send_msg_to_user (default EmptyString client_machine) username_only message
  else
    print (no_mapping_line owner).

Definition alert_line (path : string) (is_folder : bool) (owner : string) : string :=
  "[ALERT] Personal name found in " +:+ str_lower (type_word is_folder) +:+ " name: '" +:+
  env_basename path +:+ "' (Owner: " +:+ owner +:+ ")".

Definition clean_line (path : string) (is_folder : bool) : string :=
  "[INFO] No personal name detected in " +:+ str_lower (type_word is_folder) +:+
  " name: '" +:+ env_basename path +:+ "'".

Definition pipeline (path : string) (is_folder : bool) : M W unit :=
  let name := env_basename path in
  let typ := if is_folder then "Folder" else "File" in
  owner <- get_owner path ;;
  print (typ +:+ " detected: " +:+ name +:+ " (Owner: " +:+ owner +:+ ")") ;;;
  name_found <- classify name ;;
  if truthy name_found then
    print ("[ALERT] Personal name found in " +:+ str_lower typ +:+ " name: '" +:+ name +:+
           "' (Owner: " +:+ owner +:+ ")") ;;;
    deletion ;;;
    let client_machine := mapping !! owner in
    if truthy_str client_machine then
      let username_only := split_last backslash owner in
      let message := removal_message typ name in
      send_msg_to_user (default EmptyString client_machine) username_only message
    else
      print ("[WARNING] No client machine mapping found for user " +:+ owner +:+
             ", cannot send notification.")
  else
    print ("[INFO] No personal name detected in " +:+ str_lower typ +:+ " name: '" +:+
           name +:+ "'").
End Pipeline.

(** When a run [o] of the pipeline on [path] from [w] notifies: exactly
    when the verdict is true and the owner has a machine in [mapping],
    whatever the deletion did; with a true verdict and no machine the run
    ends with the warning and without a message. *)
Definition notification_rule {W : Type} `{!Env W} (mapping : gmap string string)
    (path : string) (is_folder : bool) (w : W) (o : outcome W ()) : Prop :=
  let s := screening path is_folder w in
  (notified (effects o) = true ↔
   ∃ owner name_found,
     res s = Ok (owner, name_found) ∧ truthy name_found = true ∧
     is_Some (mapping !! owner)) ∧
  (∀ owner name_found,
     res s = Ok (owner, name_found) → truthy name_found = true →
     mapping !! owner = None →
     notified (effects o) = false ∧
     ∃ pre, effects o = pre ++ [EPrint (no_mapping_line owner)]).

(** ** A logic of runs

    [triple P m φ Q]: from a state in [P], every effect of [m] is in [φ],
    and the result and the state reached are in [Q]. *)
Definition triple {W A} (P : W → Prop) (m : M W A) (φ : effect → Prop)
    (Q : result A → W → Prop) : Prop :=
  ∀ w, P w → Forall φ (effects (m w)) ∧ Q (res (m w)) (final (m w)).

(** The postcondition of a block that keeps [I] when it returns and
    establishes [R] when it raises. *)
Definition keeping {W A} (I : W → Prop) (R : exn → W → Prop) : result A → W → Prop :=
  λ r w,
    match r with
    | Ok _ => I w
    | Raise e => R e w
    end.

(** Never raises, and keeps [I]. *)
Definition returning {W A} (I : W → Prop) : result A → W → Prop :=
  keeping I (λ _ _, False).

(** ** What the proofs about the file system assume of it

    Changing a mode removes nothing; [os.unlink] and [os.rmdir] remove at
    most the entry they are called on, and nothing when they fail;
    nothing disappears while the handler sleeps; the entries of a
    directory listing lie below the directory (their paths are longer);
    after a successful [shutil.move] the source is gone. *)
Class EnvLaws (W : Type) `{!Env W} : Prop := {
  chmod_keeps : ∀ p mode w q,
    env_exists q w = true → env_exists q (env_chmod p mode w).2 = true;
  unlink_keeps : ∀ p w q,
    env_exists q w = true → p ≠ q ∨ is_Some (env_unlink p w).1 →
    env_exists q (env_unlink p w).2 = true;
  rmdir_keeps : ∀ p w q,
    env_exists q w = true → p ≠ q ∨ is_Some (env_rmdir p w).1 →
    env_exists q (env_rmdir p w).2 = true;
  sleep_keeps : ∀ secs w q,
    env_exists q w = true → env_exists q (env_sleep secs w) = true;
  scandir_below : ∀ p w entries e,
    env_scandir p w = inr entries → e ∈ entries →
    String.length p < String.length (entry_path e);
  move_takes : ∀ src dst w,
    (env_move src dst w).1 = None → env_exists src (env_move src dst w).2 = false
}.

(** [I] survives the calls [on_rm_error] makes on [p]. *)
Definition stable_at {W} `{!Env W} (I : W → Prop) (p : string) : Prop :=
  (∀ mode w, I w → I (env_chmod p mode w).2) ∧
  (∀ w, I w → I (env_unlink p w).2) ∧
  (∀ w, I w → I (env_rmdir p w).2).

(** The paths a recursive removal of [p] can come to: [p] and, through
    any listing of a path it comes to, the entries of the listing. *)
Inductive reaches {W} `{!Env W} : string → string → Prop :=
  | reaches_here p : reaches p p
  | reaches_entry p w entries e q :
      env_scandir p w = inr entries → e ∈ entries →
      reaches (entry_path e) q → reaches p q.

(** ** More readings of a run *)

(** A call that changes the file system. *)
Definition mutating (e : effect) : bool :=
  match e with
  | EChmod _ _ _ | ERemove _ _ | ERmtree _ _ | EUnlink _ _ | ERmdir _ _
  | EMakedirs _ _ | EMove _ _ _ => true
  | _ => false
  end.

(** No call of the run changes the file system. *)
Definition hands_off (tr : list effect) : bool :=
  forallb (λ e, negb (mutating e)) tr.

Definition is_llm (e : effect) : bool :=
  match e with
  | ELlm _ _ => true
  | _ => false
  end.

Definition is_owner_query (e : effect) : bool :=
  match e with
  | EGetOwner _ _ => true
  | _ => false
  end.

(** An effect of the deletion engine: anything but a call to the
    oracle, to the security service or to the messaging command. *)
Definition of_engine (e : effect) : bool :=
  negb (is_llm e || is_owner_query e || is_msg e).




(** What a run [o] of [delete_path] with [max_retries] and
    [retry_delay] shows: [j] attempts with a pause between them, no more
    than [max_retries]; then the steps of the quarantine, if any.  A
    removal that returned ended the run, with [True] and without a
    quarantine; otherwise all the attempts were made. *)
Definition bounded_retries {W} (max_retries retry_delay : Z)
    (o : outcome W (option bool)) : Prop :=
  ∃ j fallback,
    steps (effects o) = retries j retry_delay ++ fallback ∧
    j ≤ Z.to_nat max_retries ∧
    Forall (λ s, s = QuarantineStep) fallback ∧
    (every_removal_fails (effects o) = false →
     res o = Ok (Some true) ∧ fallback = []) ∧
    (every_removal_fails (effects o) = true → j = Z.to_nat max_retries).

(** [s] holds no backslash. *)
Fixpoint no_backslash (s : string) : bool :=
  match s with
  | EmptyString => true
  | String c s' => negb (bool_decide (c = backslash)) && no_backslash s'
  end.

(** What the further proofs assume of removals and of the quarantine:
    after a successful [os.unlink] the entry is gone; [os.makedirs] removes
    nothing; [shutil.move] removes nothing but the source and what a
    listing reaches from it. *)
Class MoveLaws (W : Type) `{!Env W} : Prop := {
  unlink_takes : ∀ p w,
    (env_unlink p w).1 = None → env_exists p (env_unlink p w).2 = false;
  makedirs_keeps : ∀ p w q,
    env_exists q w = true → env_exists q (env_makedirs p w).2 = true;
  move_keeps : ∀ src dst w q,
    env_exists q w = true → ¬ reaches src q →
    env_exists q (env_move src dst w).2 = true
}.

(** A line of the log. *)
Definition is_print (e : effect) : bool :=
  match e with
  | EPrint _ => true
  | _ => false
  end.

(** The calls of a run to the oracle, to the security service and to
    the messaging command. *)
Definition llm_calls (tr : list effect) : list effect :=
  filter (λ e, is_llm e = true) tr.
Definition owner_queries (tr : list effect) : list effect :=
  filter (λ e, is_owner_query e = true) tr.
Definition messages (tr : list effect) : list effect :=
  filter (λ e, is_msg e = true) tr.

(** The error of [v.get] on a value that is no [dict]. *)
Definition no_get : exn := Exn AttributeError "object has no attribute 'get'".


(** The calls of a run of [process_name] on [path] to the outside
    services: one query for the owner of [path], one call to the oracle,
    on the base name, and at most one message. *)
Definition one_call_each {W} `{!Env W} (path : string) (tr : list effect) : Prop :=
  (∃ r, owner_queries tr = [EGetOwner path r]) ∧
  (∃ r, llm_calls tr = [ELlm (env_basename path) r]) ∧
  length (messages tr) ≤ 1.

(** What one event costs, in the trace [tr] of [process_name]: at
    most three removal attempts, with a pause of two seconds between them,
    then the steps of the quarantine, if any. *)
Definition within_budget (tr : list effect) : Prop :=
  ∃ j fallback,
    steps tr = retries j 2 ++ fallback ∧ j ≤ 3 ∧
    Forall (λ s, s = QuarantineStep) fallback.

(** *** More sample worlds *)
Module Cases.

(** ['{"name_found": "false"}']: the verdict as a string. *)
Definition quoted_false : string :=
  "{" +:+ dquote +:+ "name_found" +:+ dquote +:+ ": " +:+
  dquote +:+ "false" +:+ dquote +:+ "}".

(** A free file, and an oracle that answers with the string. *)
Definition w_quoted : Sim.world :=
  Sim.share [(Sim.notes, Sim.plain_file)] (Ok quoted_false) Sim.hekolli.



(** A free file whose owner cannot be looked up. *)
Definition w_orphan : Sim.world :=
  Sim.share [(Sim.notes, Sim.plain_file)] (Ok Sim.reply_true)
    (Raise (Exn OtherException "No mapping between account names and security IDs was done.")).


Definition plan : string := "W:\PPC\plan.txt".

(** A folder with a file in use, beside a file of another name. *)
Definition w_siblings : Sim.world :=
  Sim.share [(Sim.report, Sim.folder ["b.xlsx"]);
             (Sim.join Sim.report "b.xlsx", Sim.busy_file);
             (plan, Sim.plain_file)] (Ok Sim.reply_true) Sim.hekolli.
End Cases.

(** * Proofs *)

(** ** The rules of the logic *)
Section Rules.
Context {W : Type} `{!Env W}.

Lemma triple_ret {A} (P : W → Prop) (a : A) φ (Q : result A → W → Prop) :
  (∀ w, P w → Q (Ok a) w) → triple P (ret a) φ Q.
Proof. intros H w Hw. split; [constructor | by apply H]. Qed.

Lemma triple_raise {A} (P : W → Prop) e φ (Q : result A → W → Prop) :
  (∀ w, P w → Q (Raise e) w) → triple P (raise e) φ Q.
Proof. intros H w Hw. split; [constructor | by apply H]. Qed.

Lemma triple_bind {A B} (P : W → Prop) (m : M W A) (k : A → M W B) φ Q1 Q2 :
  triple P m φ Q1 →
  (∀ a, triple (Q1 (Ok a)) (k a) φ Q2) →
  (∀ e w, Q1 (Raise e) w → Q2 (Raise e) w) →
  triple P (bind m k) φ Q2.
Proof.
  intros Hm Hk He w Hw. destruct (Hm w Hw) as [Hφ HQ].
  unfold bind. destruct (res (m w)) as [a|e] eqn:Hr; simpl.
  - destruct (Hk a _ HQ) as [Hφ' HQ']. split; [by apply Forall_app | done].
  - split; [done | by apply He].
Qed.

Lemma triple_try {A} (P : W → Prop) cls (body : M W A) handler φ Q1 Q2 :
  triple P body φ Q1 →
  (∀ a w, Q1 (Ok a) w → Q2 (Ok a) w) →
  (∀ e, catches cls e = true → triple (Q1 (Raise e)) (handler e) φ Q2) →
  (∀ e w, catches cls e = false → Q1 (Raise e) w → Q2 (Raise e) w) →
  triple P (try_except cls body handler) φ Q2.
Proof.
  intros Hb Hok Hh Hpass w Hw. destruct (Hb w Hw) as [Hφ HQ].
  unfold try_except. destruct (res (body w)) as [a|e] eqn:Hr.
  - rewrite Hr. split; [done | by apply Hok].
  - destruct (catches cls e) eqn:Hc; simpl.
    + destruct (Hh e Hc _ HQ) as [Hφ' HQ']. split; [by apply Forall_app | done].
    + rewrite Hr. split; [done | by apply Hpass].
Qed.

Lemma triple_weaken {A} (P P' : W → Prop) (m : M W A) (φ φ' : effect → Prop) Q Q' :
  triple P m φ Q →
  (∀ w, P' w → P w) → (∀ e, φ e → φ' e) → (∀ r w, Q r w → Q' r w) →
  triple P' m φ' Q'.
Proof.
  intros Hm HP Hφ HQ w Hw. destruct (Hm w (HP w Hw)) as [H1 H2].
  split; [by eapply Forall_impl | by apply HQ].
Qed.

Lemma triple_for_each {A} (I : W → Prop) (R : exn → W → Prop) (l : list A) body φ :
  (∀ x, x ∈ l → triple I (body x) φ (keeping I R)) →
  triple I (for_each l body) φ (keeping I R).
Proof.
  induction l as [|x l IH]; intros Hbody.
  - by apply triple_ret.
  - simpl. eapply triple_bind.
    + apply Hbody. by left.
    + intros []. apply IH. intros y Hy. apply Hbody. by right.
    + done.
Qed.

Lemma triple_seq {A B} (I : W → Prop) R (m : M W A) (k : A → M W B) φ :
  triple I m φ (keeping I R) →
  (∀ a, triple I (k a) φ (keeping I R)) →
  triple I (bind m k) φ (keeping I R).
Proof. intros Hm Hk. eapply triple_bind; [apply Hm | apply Hk | done]. Qed.

Lemma triple_returning {A} (I : W → Prop) R (m : M W A) φ :
  triple I m φ (returning I) → triple I m φ (keeping I R).
Proof. intros Hm. eapply triple_weaken; [apply Hm | done..|]. by intros []. Qed.

Lemma triple_print (I : W → Prop) line (φ : effect → Prop) :
  φ (EPrint line) → triple I (print line) φ (returning I).
Proof. intros Hφ w Hw. split; [by repeat constructor | done]. Qed.

Lemma triple_fs_call (I : W → Prop) op log (φ : effect → Prop) R :
  (∀ err, φ (log err)) →
  (∀ w, I w → I (op w).2) →
  (∀ w msg, I w → (op w).1 = Some msg → R (os_error msg) (op w).2) →
  triple I (fs_call op log) φ (keeping I R).
Proof.
  intros Hφ HI HR w Hw. unfold fs_call. specialize (HI w Hw). specialize (HR w).
  destruct (op w) as [[msg|] w']; simpl in *.
  - split; [by repeat constructor | by apply HR].
  - split; [by repeat constructor | done].
Qed.
End Rules.

(** ** The shared blocks *)
Section SharedFacts.
Context {W : Type} `{!Env W}.

Lemma triple_read {A} (I : W → Prop) (f : W → A) φ R :
  triple I (λ w, Outcome (Ok (f w)) w []) φ (keeping I R).
Proof. intros w Hw. split; [constructor | done]. Qed.

Lemma reaches_trans p q t : reaches p q → reaches q t → reaches p t.
Proof.
  induction 1 as [|p w entries e q Hs He _ IH]; [done|].
  intros Ht. eapply reaches_entry; eauto.
Qed.

(** The handler of the recursive removal never raises, and touches the
    path it is called on only. *)
Lemma on_rm_error_spec (I : W → Prop) func p exc :
  stable_at I p →
  triple I (on_rm_error func p exc) quiet (returning I).
Proof.
  intros (Hchmod & Hunlink & Hrmdir).
  unfold on_rm_error, try_except_all.
  eapply triple_try with (Q1 := keeping I (λ _, I)).
  - apply triple_seq.
    { apply triple_fs_call; [done | apply Hchmod | intros; by apply Hchmod]. }
    intros []. apply triple_seq; [apply (triple_read I) | intros isdir].
    apply triple_seq; [| intros []; by apply triple_returning, triple_print].
    destruct isdir.
    + apply triple_fs_call; [done | apply Hrmdir | intros; by apply Hrmdir].
    + apply triple_fs_call; [done | apply Hunlink | intros; by apply Hunlink].
  - done.
  - intros e _. by apply (triple_print I).
  - done.
Qed.

Lemma on_rm_error_ok func p exc (w : W) :
  res (on_rm_error func p exc w) = Ok () ∧ Forall quiet (effects (on_rm_error func p exc w)).
Proof.
  destruct (on_rm_error_spec (λ _, True) func p exc) with (w := w) as [Hq Hr]; [done..|].
  split; [|done]. by destruct (res _) as [[]|].
Qed.

(** Relaxing the permissions never raises and removes nothing. *)
Lemma fix_permissions_spec (I : W → Prop) path is_folder :
  (∀ p mode w, I w → I (env_chmod p mode w).2) →
  triple I (fix_permissions path is_folder) quiet (returning I).
Proof.
  intros Hchmod.
  assert (Hc : ∀ p, triple I (os_chmod p mode_777) quiet (keeping I (λ _, I))).
  { intros p. apply triple_fs_call; [done | apply Hchmod | intros; by apply Hchmod]. }
  unfold fix_permissions, try_except_all.
  eapply triple_try with (Q1 := keeping I (λ _, I)).
  - destruct is_folder; [|apply Hc].
    apply triple_seq; [apply (triple_read I) | intros listing].
    apply triple_seq; [| intros []; apply Hc].
    apply triple_for_each. intros [[root dirs] files] _.
    apply triple_seq; [| intros []].
    + apply triple_for_each. intros d _. apply Hc.
    + apply triple_for_each. intros f _. apply Hc.
  - done.
  - intros e _. by apply (triple_print I).
  - done.
Qed.

(** The last step of a removal, [os.rmdir] under the handler. *)
Lemma rmtree_rmdir_spec (I : W → Prop) p :
  stable_at I p →
  triple I (try_except (Some OSError) (os_rmdir p) (λ e, on_rm_error "os.rmdir" p e))
    quiet (returning I).
Proof.
  intros Hst. pose proof Hst as (_ & _ & Hrmdir).
  eapply triple_try with (Q1 := keeping I (λ e w, I w ∧ exn_cls e = OSError)).
  - apply triple_fs_call; [done | apply Hrmdir | intros; split; [by apply Hrmdir | done]].
  - done.
  - intros e _. eapply triple_weaken with (P := I);
      [by apply (on_rm_error_spec I) | by intros ? [] | done..].
  - intros [cls str] w Hc [_ Hcls]. simpl in *. by subst.
Qed.

(** The loop over the entries of a listing, for any way [recurse] of
    removing a sub-directory that raises nothing but [RecursionError]. *)
Lemma rmtree_entries_spec (I : W → Prop) (recurse : string → M W unit) entries :
  (∀ e, e ∈ entries → stable_at I (entry_path e)) →
  (∀ e, e ∈ entries →
     triple I (recurse (entry_path e)) quiet
       (keeping I (λ x w, I w ∧ exn_cls x = RecursionError))) →
  triple I
    (for_each entries (λ entry,
       if entry_is_dir entry then
         if entry_is_symlink entry then
           on_rm_error "os.path.islink" (entry_path entry) symlink_error
         else recurse (entry_path entry)
       else
         try_except (Some OSError)
           (os_unlink (entry_path entry))
           (λ e, on_rm_error "os.unlink" (entry_path entry) e)))
    quiet (keeping I (λ x w, I w ∧ exn_cls x = RecursionError)).
Proof.
  intros Hst Hrec. apply triple_for_each. intros entry Hentry.
  destruct (entry_is_dir entry).
  - destruct (entry_is_symlink entry); [|by apply Hrec].
    apply triple_returning, on_rm_error_spec. by apply Hst.
  - destruct (Hst _ Hentry) as (_ & Hunlink & _).
    eapply triple_try with (Q1 := keeping I (λ e w, I w ∧ exn_cls e = OSError)).
    + apply triple_fs_call; [done | apply Hunlink | intros; split; [by apply Hunlink | done]].
    + done.
    + intros e _. eapply triple_weaken with (P := I);
        [apply (on_rm_error_spec I); by apply Hst | by intros ? [] | done |].
      by intros [].
    + intros [cls str] w Hc [_ Hcls]. simpl in *. by subst.
Qed.

(** The recursive removal with [on_rm_error] as its handler: every
    failure of a step is absorbed, and the only exception that leaves it
    is the interpreter's [RecursionError]. *)
Lemma rmtree_unsafe_spec (I : W → Prop) frames p :
  (∀ t, reaches p t → stable_at I t) →
  triple I (rmtree_unsafe frames p on_rm_error) quiet
    (keeping I (λ e w, I w ∧ exn_cls e = RecursionError)).
Proof.
  revert p. induction frames as [|frames IH]; intros p Hst.
  { simpl. by apply triple_raise. }
  simpl.
  eapply triple_bind with
    (Q1 := λ r w, match r with
                  | Ok entries => I w ∧ ∀ e, e ∈ entries → reaches p (entry_path e)
                  | Raise _ => False
                  end).
  - intros w Hw. unfold try_except, os_scandir.
    destruct (env_scandir p w) as [msg|entries] eqn:Hscan; simpl.
    + destruct (on_rm_error_spec I "os.scandir" p (os_error msg)) with (w := w) as [Hq Hr];
        [apply Hst, reaches_here | done |].
      unfold bind. destruct (res (on_rm_error _ _ _ w)) as [[]|]; [|done]. simpl.
      split.
      * constructor; [done|]. apply Forall_app. split; [done | constructor].
      * split; [done|]. intros e He. by apply elem_of_nil in He.
    + split; [by repeat constructor|]. split; [done|].
      intros e He. eapply reaches_entry; [done.. | apply reaches_here].
  - intros entries w [Hw Hentries]. revert w Hw.
    apply (triple_seq I).
    + apply (rmtree_entries_spec I (λ q, rmtree_unsafe frames q on_rm_error)).
      * intros e He. by apply Hst, Hentries.
      * intros e He. apply IH. intros t Ht. apply Hst.
        eapply reaches_trans; [by apply Hentries | done].
    + intros []. apply triple_returning, rmtree_rmdir_spec, Hst, reaches_here.
  - done.
Qed.

Lemma shutil_rmtree_spec (I : W → Prop) p (w : W) :
  (∀ t, reaches p t → stable_at I t) → I w →
  let o := shutil_rmtree p on_rm_error w in
  ∃ inner,
    effects o = inner ++ [ERmtree p (raised (res o))] ∧ Forall quiet inner ∧
    keeping I (λ e w', I w' ∧ exn_cls e = RecursionError) (res o) (final o).
Proof.
  intros Hst Hw. unfold shutil_rmtree, observed. simpl.
  eexists. split; [done|].
  apply (triple_seq I (λ e w', I w' ∧ exn_cls e = RecursionError)
           (os_path_islink p)
           (λ link : bool, if link then on_rm_error "os.path.islink" p symlink_error
                           else rmtree_unsafe env_recursion_limit p on_rm_error)); [| |done].
  - apply (triple_read I).
  - intros [].
    + apply triple_returning, on_rm_error_spec, Hst, reaches_here.
    + by apply rmtree_unsafe_spec.
Qed.

(** The removal of an attempt ends with its own effect; what comes
    before is no step of the engine. *)
Lemma remove_entry_shape path is_folder (w : W) :
  let o := remove_entry path is_folder w in
  ∃ inner,
    effects o = inner ++ [removal_effect is_folder path (raised (res o))] ∧
    Forall quiet inner.
Proof.
  destruct is_folder; simpl.
  - destruct (shutil_rmtree_spec (λ _, True) path w) as (inner & H1 & H2 & _); [done..|].
    by exists inner.
  - exists []. unfold os_remove, fs_call.
    by destruct (env_unlink path w) as [[msg|] w'].
Qed.

(** A folder's removal fails by exhausting the interpreter's frames
    only, never by the failure of a step on an entry. *)
Lemma remove_folder_raise path (w : W) e :
  res (remove_entry path true w) = Raise e → exn_cls e = RecursionError.
Proof.
  unfold remove_entry. intros Hr.
  pose proof (shutil_rmtree_spec (λ _, True) path w) as H. cbv zeta in H.
  destruct H as (_ & _ & _ & H); [done..|].
  rewrite Hr in H. by destruct H.
Qed.

Lemma fix_permissions_ok path is_folder (w : W) :
  res (fix_permissions path is_folder w) = Ok () ∧
  Forall quiet (effects (fix_permissions path is_folder w)).
Proof.
  destruct (fix_permissions_spec (λ _, True) path is_folder) with (w := w) as [Hq Hr];
    [done..|].
  split; [|done]. by destruct (res _) as [[]|].
Qed.
End SharedFacts.

(** ** What a failed removal leaves in place *)
Section Frame.
Context {W : Type} `{!Env W} `{!EnvLaws W}.

Lemma exists_stable q t :
  q ≠ t → stable_at (λ w : W, env_exists q w = true) t.
Proof.
  intros Hne. split; [|split].
  - intros mode w Hw. by apply chmod_keeps.
  - intros w Hw. apply unlink_keeps; [done | by left].
  - intros w Hw. apply rmdir_keeps; [done | by left].
Qed.

Lemma reaches_longer (p t : string) :
  reaches p t → String.length p ≤ String.length t.
Proof.
  induction 1 as [|p w entries e q Hs He _ IH]; [done|].
  pose proof (scandir_below p w entries e Hs He). lia.
Qed.

Lemma fix_permissions_keeps path is_folder q (w : W) :
  env_exists q w = true →
  env_exists q (final (fix_permissions path is_folder w)) = true.
Proof.
  intros Hw.
  destruct (fix_permissions_spec (λ w, env_exists q w = true) path is_folder)
    with (w := w) as [_ Hr]; [|done|].
  - intros p mode w' Hw'. by apply chmod_keeps.
  - by destruct (res _).
Qed.

(** A recursive removal that raises has not removed its root: the
    root's own [os.rmdir] comes last, after the steps that can raise. *)
Lemma rmtree_unsafe_keeps_root frames root :
  triple (λ w : W, env_exists root w = true)
    (rmtree_unsafe frames root on_rm_error) quiet
    (keeping (λ _, True) (λ _ w, env_exists root w = true)).
Proof.
  set (kept := λ w : W, env_exists root w = true).
  destruct frames as [|frames]; [by apply triple_raise|].
  simpl.
  eapply triple_bind with
    (Q1 := λ r w, match r with
                  | Ok entries =>
                      entries = [] ∨
                      (kept w ∧ ∀ e, e ∈ entries →
                         String.length root < String.length (entry_path e))
                  | Raise _ => False
                  end).
  - intros w Hw. unfold try_except, os_scandir.
    destruct (env_scandir root w) as [msg|entries] eqn:Hscan; simpl.
    + destruct (on_rm_error_ok "os.scandir" root (os_error msg) w) as [Hr Hq].
      unfold bind. rewrite Hr. simpl. split; [|by left].
      constructor; [done|]. apply Forall_app. split; [done | constructor].
    + split; [by repeat constructor|]. right. split; [done|].
      intros e He. by eapply scandir_below.
  - intros entries w [->|[Hw Hbelow]].
    + enough (Ht : triple (λ _ : W, True)
                (for_each [] (λ _ : dir_entry, ret ()) ;;;
                 try_except (Some OSError) (os_rmdir root)
                   (λ e, on_rm_error "os.rmdir" root e))
                quiet (returning (λ _, True))).
      { destruct (Ht w I) as [Hq Hr]. split; [done|]. revert Hr. simpl.
        by destruct (res _). }
      apply (triple_seq (λ _, True) (λ _ _, False)).
      * by apply triple_ret.
      * intros []. by apply rmtree_rmdir_spec.
    + revert w Hw.
      eapply triple_bind with
        (Q1 := keeping kept (λ x w, kept w ∧ exn_cls x = RecursionError)).
      * assert (Hst : ∀ e, e ∈ entries → ∀ t, reaches (entry_path e) t → stable_at kept t).
        { intros e He t Ht. apply exists_stable. intros ->.
          pose proof (Hbelow e He). pose proof (reaches_longer _ _ Ht). lia. }
        apply (rmtree_entries_spec kept (λ q, rmtree_unsafe frames q on_rm_error)).
        -- intros e He. apply (Hst e He), reaches_here.
        -- intros e He. apply rmtree_unsafe_spec. by apply Hst.
      * intros []. eapply triple_weaken with (P := λ _, True);
          [by apply (rmtree_rmdir_spec (λ _, True)) | done | done |].
        by intros [].
      * by intros e w [].
  - done.
Qed.

Lemma remove_entry_keeps path is_folder (w : W) e :
  env_exists path w = true →
  res (remove_entry path is_folder w) = Raise e →
  env_exists path (final (remove_entry path is_folder w)) = true.
Proof.
  intros Hw. destruct is_folder; unfold remove_entry.
  - unfold shutil_rmtree, observed, bind, os_path_islink. simpl.
    destruct (env_islink path w).
    + destruct (on_rm_error_ok "os.path.islink" path symlink_error w) as [Hr _].
      by rewrite Hr.
    + destruct (rmtree_unsafe_keeps_root env_recursion_limit path w Hw) as [_ Hk].
      destruct (res (rmtree_unsafe _ _ _ w)); [done|]. by intros _.
  - unfold os_remove, fs_call. intros Hr.
    pose proof (unlink_keeps path w path Hw) as Hk.
    destruct (env_unlink path w) as [[msg|] w']; [|done].
    apply Hk. by right.
Qed.
End Frame.

(** ** Steps of a run *)

Lemma steps_app l1 l2 : steps (l1 ++ l2) = steps l1 ++ steps l2.
Proof. apply omap_app. Qed.

Lemma steps_cons e l : steps (e :: l) = option_list (step_of e) ++ steps l.
Proof. unfold steps. simpl. by destruct (step_of e). Qed.

Lemma steps_quiet l : Forall quiet l → steps l = [].
Proof.
  induction 1 as [|e l He _ IH]; [done|].
  rewrite steps_cons, IH. by destruct e.
Qed.

Lemma every_removal_fails_app l1 l2 :
  every_removal_fails (l1 ++ l2) = every_removal_fails l1 && every_removal_fails l2.
Proof. apply forallb_app. Qed.

Lemma every_removal_fails_quiet l : Forall quiet l → every_removal_fails l = true.
Proof.
  induction 1 as [|e l He _ IH]; [done|].
  unfold every_removal_fails in *. simpl. rewrite IH, andb_true_r.
  by destruct e.
Qed.

Lemma within_recursion_limit_app l1 l2 :
  within_recursion_limit (l1 ++ l2) = within_recursion_limit l1 && within_recursion_limit l2.
Proof. apply forallb_app. Qed.

Lemma within_recursion_limit_quiet l : Forall quiet l → within_recursion_limit l = true.
Proof.
  induction 1 as [|e l He _ IH]; [done|].
  unfold within_recursion_limit in *. simpl. rewrite IH, andb_true_r.
  by destruct e.
Qed.

Lemma notified_app l1 l2 : notified (l1 ++ l2) = notified l1 || notified l2.
Proof. apply existsb_app. Qed.

Lemma notified_quiet l : Forall quiet l → notified l = false.
Proof.
  induction 1 as [|e l He _ IH]; [done|].
  unfold notified in *. simpl. rewrite IH, orb_false_r. by destruct e.
Qed.

Lemma steps_removal is_folder path err :
  steps [removal_effect is_folder path err] = [DeleteAttempt].
Proof. by destruct is_folder. Qed.

Lemma removal_ok_effect is_folder path err :
  removal_ok (removal_effect is_folder path err) = bool_decide (err = None).
Proof. by destruct is_folder, err. Qed.

(** ** The deletion engine of guardianAI.py *)
Section Engine.
Context {W : Type} `{!Env W}.
Variables (self : GuardianAI.WatcherHandler) (path : string) (is_folder : bool).
Variables (max_retries retry_delay : Z).

Local Opaque fix_permissions remove_entry.

(** The quarantine branch, case by case. *)
Lemma quarantine_off (w : W) :
  truthy_str (GuardianAI.quarantine_dir self) = false →
  GuardianAI.quarantine self path w = Outcome (Ok None) w [].
Proof.
  unfold GuardianAI.quarantine. destruct (GuardianAI.quarantine_dir self) as [dir|]; [|done].
  intros Hoff. by rewrite Hoff.
Qed.

Lemma quarantine_on dir (w : W) :
  GuardianAI.quarantine_dir self = Some dir → truthy_str (Some dir) = true →
  let dst := env_join dir (env_basename path) in
  GuardianAI.quarantine self path w =
  match env_makedirs dir w with
  | (Some msg, w1) =>
      Outcome (Ok None) w1
        [EMakedirs dir (Some (os_error msg));
         EPrint (move_failed_line msg)]
  | (None, w1) =>
      match env_move path dst w1 with
      | (Some msg, w2) =>
          Outcome (Ok None) w2
            [EMakedirs dir None; EMove path dst (Some (os_error msg));
             EPrint (move_failed_line msg)]
      | (None, w2) =>
          Outcome (Ok (Some true)) w2
            [EMakedirs dir None; EMove path dst None;
             EPrint (moved_line dst)]
      end
  end.
Proof.
  intros Hdir Hon. unfold GuardianAI.quarantine. rewrite Hdir, Hon.
  unfold try_except_all, try_except, bind, os_makedirs, shutil_move, fs_call. simpl.
  destruct (env_makedirs dir w) as [[msg|] w1]; simpl; [done|].
  by destruct (env_move path _ w1) as [[msg|] w2].
Qed.

(** The quarantine branch never raises, and its effects are steps of
    the fallback or lines of the log. *)
Lemma quarantine_result (w : W) :
  let o := GuardianAI.quarantine self path w in
  (res o = Ok None ∨ res o = Ok (Some true)) ∧
  Forall (λ s, s = QuarantineStep) (steps (effects o)) ∧
  every_removal_fails (effects o) = true ∧
  within_recursion_limit (effects o) = true ∧
  notified (effects o) = false.
Proof.
  destruct (truthy_str (GuardianAI.quarantine_dir self)) eqn:Hq.
  - destruct (GuardianAI.quarantine_dir self) as [dir|] eqn:Hdir; [|done].
    pose proof (quarantine_on dir w Hdir Hq) as Hrun. cbv zeta in *. rewrite Hrun.
    destruct (env_makedirs dir w) as [[msg|] w1]; simpl.
    { split; [by left|]. split; [by repeat constructor | done]. }
    destruct (env_move path _ w1) as [[msg|] w2]; simpl.
    + split; [by left|]. split; [by repeat constructor | done].
    + split; [by right|]. split; [by repeat constructor | done].
  - cbv zeta. rewrite (quarantine_off w Hq). simpl. split; [by left|]. split; [constructor | done].
Qed.

(** One iteration, in terms of its two blocks and the quarantine
    branch. *)
Lemma delete_attempt_run attempt (w : W) :
  let o1 := fix_permissions path is_folder w in
  let o2 := remove_entry path is_folder (final o1) in
  let pre := effects o1 ++ effects o2 in
  GuardianAI.delete_attempt self path is_folder max_retries retry_delay attempt w =
  match res o2 with
  | Ok _ => Outcome (Ok (Return true)) (final o2) (pre ++ [EPrint (success_line path is_folder)])
  | Raise e =>
      let warn := EPrint (warning_line path attempt e) in
      if (attempt <? max_retries)%Z then
        if (retry_delay <? 0)%Z then
          Outcome (Raise (Exn ValueError "sleep length must be non-negative"))
            (final o2) (pre ++ [warn])
        else
          Outcome (Ok Continue) (env_sleep retry_delay (final o2))
            (pre ++ [warn; ESleep retry_delay])
      else
        let oq := GuardianAI.quarantine self path (final o2) in
        match res oq with
        | Ok (Some v) => Outcome (Ok (Return v)) (final oq) (pre ++ warn :: effects oq)
        | Ok None =>
            Outcome (Ok (Return false)) (final oq)
              (pre ++ warn :: effects oq ++ [EPrint (failure_line path max_retries)])
        | Raise x => Outcome (Raise x) (final oq) (pre ++ warn :: effects oq)
        end
  end.
Proof.
  cbv zeta.
  unfold GuardianAI.delete_attempt, try_except_all, try_except, bind.
  destruct (fix_permissions_ok path is_folder w) as [Hfix _]. rewrite Hfix. simpl.
  destruct (res (remove_entry path is_folder (final (fix_permissions path is_folder w))))
    as [[]|e] eqn:Hrm; simpl.
  { by rewrite app_assoc. }
  unfold time_sleep.
  destruct (attempt <? max_retries)%Z.
  - destruct (retry_delay <? 0)%Z; simpl; by rewrite ?app_nil_r, ?app_assoc.
  - destruct (res (GuardianAI.quarantine self path _)) as [[v|]|x]; simpl;
      by rewrite ?app_nil_r, ?app_assoc.
Qed.

(** A removal that returns shows in the trace. *)
Lemma removal_failed (w : W) :
  every_removal_fails (effects (remove_entry path is_folder w)) = true →
  ∃ e, res (remove_entry path is_folder w) = Raise e.
Proof.
  destruct (remove_entry_shape path is_folder w) as (inner & Heff & _).
  cbv zeta in Heff. rewrite Heff, every_removal_fails_app. simpl.
  rewrite removal_ok_effect.
  destruct (res (remove_entry path is_folder w)) as [[]|e]; simpl.
  - rewrite andb_false_r. done.
  - by exists e.
Qed.

Lemma attempt_pre_steps (w : W) :
  let o1 := fix_permissions path is_folder w in
  let o2 := remove_entry path is_folder (final o1) in
  steps (effects o1 ++ effects o2) = [DeleteAttempt] ∧
  (every_removal_fails (effects o1 ++ effects o2) = true →
   ∃ e, res o2 = Raise e).
Proof.
  cbv zeta. destruct (fix_permissions_ok path is_folder w) as [_ Hq1].
  destruct (remove_entry_shape path is_folder (final (fix_permissions path is_folder w)))
    as (inner & Heff & Hq2). cbv zeta in Heff.
  split.
  - rewrite Heff, !steps_app, (steps_quiet _ Hq1), (steps_quiet _ Hq2).
    by rewrite steps_removal.
  - rewrite every_removal_fails_app. intros [_ H]%andb_true_iff.
    by apply removal_failed.
Qed.

Lemma delete_loop_cons attempt rest (w : W) :
  GuardianAI.delete_loop self path is_folder max_retries retry_delay (attempt :: rest) w =
  let oa := GuardianAI.delete_attempt self path is_folder max_retries retry_delay attempt w in
  match res oa with
  | Ok (Return v) => Outcome (Ok (Some v)) (final oa) (effects oa)
  | Ok Continue =>
      let o' := GuardianAI.delete_loop self path is_folder max_retries retry_delay rest
                  (final oa) in
      Outcome (res o') (final o') (effects oa ++ effects o')
  | Raise e => Outcome (Raise e) (final oa) (effects oa)
  end.
Proof.
  simpl. unfold bind.
  destruct (res (GuardianAI.delete_attempt _ _ _ _ _ _ w)) as [[v|]|e]; simpl;
    by rewrite ?app_nil_r.
Qed.

(** The loop when every removal fails: the attempts and the pauses
    between them, then the quarantine branch from the state [w_last] the
    last attempt left, then the final error line unless the entry was
    moved.  [kept] is any property of the state that the blocks of an
    attempt and the pause preserve. *)
Lemma delete_loop_all_fail (kept : W → Prop) n :
  (0 ≤ retry_delay)%Z →
  (∀ w, kept w → kept (final (fix_permissions path is_folder w))) →
  (∀ w e, kept w → res (remove_entry path is_folder w) = Raise e →
     kept (final (remove_entry path is_folder w))) →
  (∀ w, kept w → kept (env_sleep retry_delay w)) →
  ∀ k (w : W) o,
  o = GuardianAI.delete_loop self path is_folder max_retries retry_delay
        (seqZ k (Z.of_nat (S n))) w →
  (k + Z.of_nat n = max_retries)%Z →
  kept w →
  every_removal_fails (effects o) = true →
  ∃ pre w_last tail,
    let oq := GuardianAI.quarantine self path w_last in
    effects o = pre ++ effects oq ++ tail ∧
    steps pre = retries (S n) retry_delay ∧
    kept w_last ∧
    final o = final oq ∧
    ((res oq = Ok (Some true) ∧ res o = Ok (Some true) ∧ tail = []) ∨
     (res oq = Ok None ∧ res o = Ok (Some false) ∧ tail = [EPrint (failure_line path max_retries)])).
Proof.
  intros Hdelay Hfix Hrm Hsleep.
  induction n as [|n IH]; intros k w o Ho Hk Hw Hall.
  - (* the last attempt *)
    change (seqZ k (Z.of_nat 1)) with [k] in Ho.
    rewrite delete_loop_cons, delete_attempt_run in Ho. cbv zeta in Ho.
    destruct (attempt_pre_steps w) as [Hsteps Hfail]. cbv zeta in Hsteps, Hfail.
    set (o1 := fix_permissions path is_folder w) in *.
    set (o2 := remove_entry path is_folder (final o1)) in *.
    destruct (res o2) as [[]|e] eqn:He.
    { subst o. simpl in Hall. rewrite every_removal_fails_app in Hall.
      apply andb_true_iff in Hall as [Hall _]. by destruct (Hfail Hall). }
    replace (k <? max_retries)%Z with false in Ho by lia.
    assert (Hlast : kept (final o2)) by (eapply Hrm; [by apply Hfix | done]).
    exists (effects o1 ++ effects o2 ++ [EPrint (warning_line path k e)]), (final o2).
    destruct (quarantine_result (final o2)) as ([Hq|Hq] & _); cbv zeta in Hq;
      rewrite Hq in Ho; subst o; simpl.
    + exists [EPrint (failure_line path max_retries)]. rewrite Hq. split_and!; [| |done|done|by right].
      * by rewrite <- !app_assoc.
      * by rewrite app_assoc, steps_app, Hsteps.
    + exists []. rewrite Hq. split_and!; [| |done|done|by left].
      * by rewrite !app_nil_r, <- !app_assoc.
      * by rewrite app_assoc, steps_app, Hsteps.
  - (* an attempt with more to come *)
    rewrite seqZ_cons in Ho by lia.
    replace (Z.pred (Z.of_nat (S (S n)))) with (Z.of_nat (S n)) in Ho by lia.
    rewrite delete_loop_cons, delete_attempt_run in Ho. cbv zeta in Ho.
    destruct (attempt_pre_steps w) as [Hsteps Hfail]. cbv zeta in Hsteps, Hfail.
    set (o1 := fix_permissions path is_folder w) in *.
    set (o2 := remove_entry path is_folder (final o1)) in *.
    destruct (res o2) as [[]|e] eqn:He.
    { subst o. simpl in Hall. rewrite every_removal_fails_app in Hall.
      apply andb_true_iff in Hall as [Hall _]. by destruct (Hfail Hall). }
    replace (k <? max_retries)%Z with true in Ho by lia.
    replace (retry_delay <? 0)%Z with false in Ho by lia.
    simpl in Ho. subst o. simpl in Hall |- *.
    rewrite every_removal_fails_app in Hall. apply andb_true_iff in Hall as [_ Hall].
    assert (Hnext : kept (env_sleep retry_delay (final o2))).
    { apply Hsleep. eapply Hrm; [by apply Hfix | done]. }
    destruct (IH (Z.succ k) (env_sleep retry_delay (final o2)) _ eq_refl) as
      (pre & w_last & tail & Heff & Hpre & Hkept & Hfin & Hres); [lia | done | done |].
    cbv zeta in *.
    exists ((effects o1 ++ effects o2) ++ [EPrint (warning_line path k e); ESleep retry_delay] ++ pre),
      w_last, tail.
    rewrite Heff. split_and!; [| |done|done|done].
    + by rewrite <- !app_assoc.
    + rewrite steps_app, Hsteps, steps_app, Hpre. done.
Qed.

Lemma delete_path_found (w : W) :
  env_exists path w = true →
  GuardianAI.delete_path self path is_folder max_retries retry_delay w =
  GuardianAI.delete_loop self path is_folder max_retries retry_delay (seqZ 1 max_retries) w.
Proof.
  intros Hw. unfold GuardianAI.delete_path, bind, os_path_exists. simpl. rewrite Hw. simpl.
  by destruct (GuardianAI.delete_loop _ _ _ _ _ _ w).
Qed.

Lemma delete_path_missing (w : W) :
  env_exists path w = false →
  GuardianAI.delete_path self path is_folder max_retries retry_delay w =
  Outcome (Ok (Some false)) w [EPrint (missing_line path)].
Proof.
  intros Hw. unfold GuardianAI.delete_path, bind, os_path_exists. simpl. by rewrite Hw.
Qed.

(** *** The engine of guardianAI2.py against the one of guardianAI.py *)

Lemma delete_attempt2_run attempt (w : W) :
  let o1 := fix_permissions path is_folder w in
  let o2 := remove_entry path is_folder (final o1) in
  let pre := effects o1 ++ effects o2 in
  GuardianAI2.delete_attempt path is_folder max_retries retry_delay attempt w =
  match res o2 with
  | Ok _ => Outcome (Ok (Return true)) (final o2) (pre ++ [EPrint (success_line path is_folder)])
  | Raise e =>
      let warn := EPrint (warning_line path attempt e) in
      if (attempt <? max_retries)%Z then
        if (retry_delay <? 0)%Z then
          Outcome (Raise (Exn ValueError "sleep length must be non-negative"))
            (final o2) (pre ++ [warn])
        else
          Outcome (Ok Continue) (env_sleep retry_delay (final o2))
            (pre ++ [warn; ESleep retry_delay])
      else
        Outcome (Ok (Return false)) (final o2) (pre ++ [warn; EPrint (failure_line path max_retries)])
  end.
Proof.
  cbv zeta.
  unfold GuardianAI2.delete_attempt, try_except_all, try_except, bind.
  destruct (fix_permissions_ok path is_folder w) as [Hfix _]. rewrite Hfix. simpl.
  destruct (res (remove_entry path is_folder (final (fix_permissions path is_folder w))))
    as [[]|e] eqn:Hrm; simpl.
  { by rewrite app_assoc. }
  unfold time_sleep.
  destruct (attempt <? max_retries)%Z; [|by rewrite ?app_assoc].
  destruct (retry_delay <? 0)%Z; simpl; by rewrite ?app_nil_r, ?app_assoc.
Qed.

(** The two iterations agree unless the first script's quarantine
    branch does something. *)
Lemma delete_attempt_same attempt (w : W) :
  let o2 := remove_entry path is_folder (final (fix_permissions path is_folder w)) in
  (∀ e, res o2 = Raise e → (attempt <? max_retries)%Z = false →
     GuardianAI.quarantine self path (final o2) = Outcome (Ok None) (final o2) []) →
  GuardianAI2.delete_attempt path is_folder max_retries retry_delay attempt w =
  GuardianAI.delete_attempt self path is_folder max_retries retry_delay attempt w.
Proof.
  cbv zeta. intros Hq. rewrite delete_attempt2_run, delete_attempt_run. cbv zeta.
  destruct (res (remove_entry _ _ _)) as [[]|e]; [done|].
  destruct (attempt <? max_retries)%Z; [done|].
  by rewrite (Hq e eq_refl eq_refl).
Qed.

Lemma delete_loop2_cons attempt rest (w : W) :
  GuardianAI2.delete_loop path is_folder max_retries retry_delay (attempt :: rest) w =
  let oa := GuardianAI2.delete_attempt path is_folder max_retries retry_delay attempt w in
  match res oa with
  | Ok (Return v) => Outcome (Ok (Some v)) (final oa) (effects oa)
  | Ok Continue =>
      let o' := GuardianAI2.delete_loop path is_folder max_retries retry_delay rest
                  (final oa) in
      Outcome (res o') (final o') (effects oa ++ effects o')
  | Raise e => Outcome (Raise e) (final oa) (effects oa)
  end.
Proof.
  simpl. unfold bind.
  destruct (res (GuardianAI2.delete_attempt _ _ _ _ _ w)) as [[v|]|e]; simpl;
    by rewrite ?app_nil_r.
Qed.

Lemma quarantine_steps_app l1 l2 :
  quarantine_steps (l1 ++ l2) = quarantine_steps l1 + quarantine_steps l2.
Proof. unfold quarantine_steps. by rewrite steps_app, filter_app, length_app. Qed.

(** A quarantine branch that leaves no step in the trace did nothing. *)
Lemma quarantine_silent (w : W) :
  quarantine_steps (effects (GuardianAI.quarantine self path w)) = 0 →
  GuardianAI.quarantine self path w = Outcome (Ok None) w [].
Proof.
  destruct (truthy_str (GuardianAI.quarantine_dir self)) eqn:Hq; [|by rewrite quarantine_off].
  destruct (GuardianAI.quarantine_dir self) as [dir|] eqn:Hdir; [|done].
  pose proof (quarantine_on dir w Hdir Hq) as Hrun. cbv zeta in Hrun. rewrite Hrun.
  destruct (env_makedirs dir w) as [[msg|] w1]; [done|].
  by destruct (env_move path _ w1) as [[msg|] w2].
Qed.

Lemma delete_loop_same attempts : ∀ w : W,
  quarantine_steps
    (effects (GuardianAI.delete_loop self path is_folder max_retries retry_delay attempts w))
    = 0 →
  GuardianAI2.delete_loop path is_folder max_retries retry_delay attempts w =
  GuardianAI.delete_loop self path is_folder max_retries retry_delay attempts w.
Proof.
  induction attempts as [|attempt rest IH]; intros w; [done|].
  rewrite delete_loop_cons, delete_loop2_cons. cbv zeta.
  intros Hsilent.
  assert (Hsame : GuardianAI2.delete_attempt path is_folder max_retries retry_delay attempt w =
                  GuardianAI.delete_attempt self path is_folder max_retries retry_delay
                    attempt w).
  { apply delete_attempt_same. intros e He Hlast. apply quarantine_silent.
    revert Hsilent. rewrite delete_attempt_run. cbv zeta. rewrite He, Hlast.
    destruct (res (GuardianAI.quarantine self path _)) as [[v|]|x]; simpl;
      rewrite quarantine_steps_app; change (?a :: ?l) with ([a] ++ l);
      rewrite !quarantine_steps_app; lia. }
  rewrite Hsame.
  destruct (res (GuardianAI.delete_attempt _ _ _ _ _ _ w)) as [[v|]|e] eqn:Hres; [done| |done].
  rewrite IH; [done|].
  revert Hsilent. simpl. rewrite quarantine_steps_app. lia.
Qed.

Lemma delete_path_same (w : W) :
  quarantine_steps
    (effects (GuardianAI.delete_path self path is_folder max_retries retry_delay w)) = 0 →
  GuardianAI2.delete_path path is_folder max_retries retry_delay w =
  GuardianAI.delete_path self path is_folder max_retries retry_delay w.
Proof.
  unfold GuardianAI.delete_path, GuardianAI2.delete_path, bind, os_path_exists. simpl.
  destruct (env_exists path w); simpl; [|done].
  intros Hs. by rewrite delete_loop_same.
Qed.

Lemma delete_loop_off attempts : ∀ w : W,
  truthy_str (GuardianAI.quarantine_dir self) = false →
  GuardianAI2.delete_loop path is_folder max_retries retry_delay attempts w =
  GuardianAI.delete_loop self path is_folder max_retries retry_delay attempts w.
Proof.
  intros w Hoff. revert w.
  induction attempts as [|attempt rest IH]; intros w; [done|].
  rewrite delete_loop_cons, delete_loop2_cons. cbv zeta.
  rewrite delete_attempt_same; [|intros; by apply quarantine_off].
  destruct (res (GuardianAI.delete_attempt _ _ _ _ _ _ w)) as [[v|]|e]; [done| |done].
  by rewrite IH.
Qed.

Lemma delete_path_off (w : W) :
  truthy_str (GuardianAI.quarantine_dir self) = false →
  GuardianAI2.delete_path path is_folder max_retries retry_delay w =
  GuardianAI.delete_path self path is_folder max_retries retry_delay w.
Proof.
  intros Hoff.
  unfold GuardianAI.delete_path, GuardianAI2.delete_path, bind, os_path_exists. simpl.
  destruct (env_exists path w); simpl; [|done].
  by rewrite delete_loop_off.
Qed.

(** *** Facts about every run of the engine *)

Lemma remove_entry_no_msg (w : W) :
  notified (effects (remove_entry path is_folder w)) = false.
Proof.
  destruct (remove_entry_shape path is_folder w) as (inner & Heff & Hq).
  cbv zeta in Heff. rewrite Heff, notified_app, (notified_quiet _ Hq).
  by destruct is_folder.
Qed.

(** With a pause that is no negative length the engine never raises,
    and it sends no message. *)
Lemma delete_loop_total attempts : ∀ w : W,
  let o := GuardianAI.delete_loop self path is_folder max_retries retry_delay attempts w in
  ((0 ≤ retry_delay)%Z → ∃ v, res o = Ok v) ∧ notified (effects o) = false.
Proof.
  induction attempts as [|attempt rest IH]; intros w; cbv zeta.
  { split; [by exists None | done]. }
  rewrite delete_loop_cons, delete_attempt_run. cbv zeta.
  destruct (fix_permissions_ok path is_folder w) as [_ Hq1%notified_quiet].
  pose proof (remove_entry_no_msg (final (fix_permissions path is_folder w))) as Hq2.
  set (o1 := fix_permissions path is_folder w) in *.
  set (o2 := remove_entry path is_folder (final o1)) in *.
  destruct (res o2) as [[]|e]; simpl.
  { split; [by eexists|]. by rewrite !notified_app, Hq1, Hq2. }
  destruct (attempt <? max_retries)%Z.
  - destruct (retry_delay <? 0)%Z eqn:Hneg; simpl.
    + split; [lia|]. by rewrite !notified_app, Hq1, Hq2.
    + destruct (IH (env_sleep retry_delay (final o2))) as [Hok Hmsg]. cbv zeta in *.
      split; [done|]. by rewrite !notified_app, Hq1, Hq2, Hmsg.
  - destruct (quarantine_result (final o2)) as ([Hq|Hq] & _ & _ & _ & Hmsg);
      cbv zeta in Hq, Hmsg; rewrite Hq; simpl.
    + split; [by eexists|].
      change (?a :: ?l) with ([a] ++ l). by rewrite !notified_app, Hq1, Hq2, Hmsg.
    + split; [by eexists|].
      change (?a :: ?l) with ([a] ++ l). by rewrite !notified_app, Hq1, Hq2, Hmsg.
Qed.

Lemma delete_path_total (w : W) :
  let o := GuardianAI.delete_path self path is_folder max_retries retry_delay w in
  ((0 ≤ retry_delay)%Z → ∃ v, res o = Ok v) ∧ notified (effects o) = false.
Proof.
  cbv zeta. destruct (env_exists path w) eqn:Hw.
  - rewrite delete_path_found by done. apply delete_loop_total.
  - rewrite delete_path_missing by done. split; [by eexists | done].
Qed.

(** While every removal fails and there is no quarantine, what the
    blocks of an attempt and the pause preserve is preserved by the
    loop. *)
Lemma delete_loop_keeps (kept : W → Prop) attempts :
  truthy_str (GuardianAI.quarantine_dir self) = false →
  (∀ w, kept w → kept (final (fix_permissions path is_folder w))) →
  (∀ w e, kept w → res (remove_entry path is_folder w) = Raise e →
     kept (final (remove_entry path is_folder w))) →
  (∀ w, kept w → kept (env_sleep retry_delay w)) →
  ∀ w : W,
  let o := GuardianAI.delete_loop self path is_folder max_retries retry_delay attempts w in
  kept w → every_removal_fails (effects o) = true → kept (final o).
Proof.
  intros Hoff Hfix Hrm Hsleep.
  induction attempts as [|attempt rest IH]; intros w; cbv zeta; [done|].
  rewrite delete_loop_cons, delete_attempt_run. cbv zeta.
  destruct (attempt_pre_steps w) as [_ Hfail]. cbv zeta in Hfail.
  set (o1 := fix_permissions path is_folder w) in *.
  set (o2 := remove_entry path is_folder (final o1)) in *.
  intros Hw.
  assert (Hkeep : ∀ e, res o2 = Raise e → kept (final o2)).
  { intros e He. eapply Hrm; [by apply Hfix | done]. }
  destruct (res o2) as [[]|e] eqn:He.
  { simpl. rewrite every_removal_fails_app. intros [Hall _]%andb_true_iff.
    by destruct (Hfail Hall). }
  destruct (attempt <? max_retries)%Z.
  - destruct (retry_delay <? 0)%Z; simpl; [by eauto|].
    rewrite every_removal_fails_app. intros [_ Hall]%andb_true_iff.
    apply IH; [|done]. apply Hsleep. by eauto.
  - rewrite (quarantine_off (final o2) Hoff). simpl. by eauto.
Qed.

(** On a folder, an attempt in which no removal ran out of frames is
    the first and the last. *)
Lemma delete_loop_folder attempt rest (w : W) :
  is_folder = true →
  let o := GuardianAI.delete_loop self path is_folder max_retries retry_delay
             (attempt :: rest) w in
  within_recursion_limit (effects o) = true →
  res o = Ok (Some true) ∧ steps (effects o) = [DeleteAttempt] ∧
  ERmtree path None ∈ effects o.
Proof.
  intros Hf. cbv zeta. rewrite delete_loop_cons, delete_attempt_run. cbv zeta.
  destruct (attempt_pre_steps w) as [Hsteps _]. cbv zeta in Hsteps.
  destruct (remove_entry_shape path is_folder (final (fix_permissions path is_folder w)))
    as (inner & Heff & Hq). cbv zeta in Heff.
  assert (Hcls : ∀ e, res (remove_entry path is_folder
                             (final (fix_permissions path is_folder w))) = Raise e →
                      exn_cls e = RecursionError).
  { rewrite Hf. apply remove_folder_raise. }
  set (o1 := fix_permissions path is_folder w) in *.
  set (o2 := remove_entry path is_folder (final o1)) in *.
  rewrite Hf in Heff. simpl in Heff.
  destruct (res o2) as [[]|e] eqn:He.
  - simpl. intros _. split; [done|]. split.
    + by rewrite steps_app, Hsteps.
    + rewrite Heff. simpl. rewrite !elem_of_app. left. right. right. by left.
  - specialize (Hcls e eq_refl).
    assert (Hover : within_recursion_limit (effects o2) = false).
    { rewrite Heff, within_recursion_limit_app. simpl. rewrite Hcls. simpl.
      by rewrite andb_false_r. }
    destruct (attempt <? max_retries)%Z.
    + destruct (retry_delay <? 0)%Z; simpl; intros H;
        rewrite !within_recursion_limit_app, Hover in H;
        by destruct (within_recursion_limit (effects o1)).
    + destruct (res (GuardianAI.quarantine self path _)) as [[v|]|x]; simpl;
        intros H; rewrite !within_recursion_limit_app, Hover in H;
        by destruct (within_recursion_limit (effects o1)).
Qed.

(** Whatever the run, a recursive removal in its trace has failed by
    exhausting the frames only. *)
Lemma remove_entry_overflow (w : W) :
  Forall overflow_only (effects (remove_entry path is_folder w)).
Proof.
  destruct (remove_entry_shape path is_folder w) as (inner & Heff & Hq).
  cbv zeta in Heff. rewrite Heff. apply Forall_app. split.
  - eapply Forall_impl; [done|]. by intros [].
  - constructor; [|done]. destruct is_folder eqn:Hf; [|done]. simpl.
    destruct (res (remove_entry path true w)) as [[]|e] eqn:He; [done|].
    simpl. by eapply remove_folder_raise.
Qed.

Lemma quarantine_overflow (w : W) :
  Forall overflow_only (effects (GuardianAI.quarantine self path w)).
Proof.
  destruct (truthy_str (GuardianAI.quarantine_dir self)) eqn:Hq;
    [|by rewrite quarantine_off].
  destruct (GuardianAI.quarantine_dir self) as [dir|] eqn:Hdir; [|done].
  pose proof (quarantine_on dir w Hdir Hq) as Hrun. cbv zeta in Hrun. rewrite Hrun.
  destruct (env_makedirs dir w) as [[msg|] w1]; [by repeat constructor|].
  destruct (env_move path _ w1) as [[msg|] w2]; by repeat constructor.
Qed.

Lemma delete_loop_overflow attempts : ∀ w : W,
  Forall overflow_only
    (effects (GuardianAI.delete_loop self path is_folder max_retries retry_delay attempts w)).
Proof.
  induction attempts as [|attempt rest IH]; intros w; [constructor|].
  rewrite delete_loop_cons, delete_attempt_run. cbv zeta.
  destruct (fix_permissions_ok path is_folder w) as [_ Hq1].
  assert (H1 : Forall overflow_only (effects (fix_permissions path is_folder w))).
  { eapply Forall_impl; [done|]. by intros []. }
  pose proof (remove_entry_overflow (final (fix_permissions path is_folder w))) as H2.
  set (o1 := fix_permissions path is_folder w) in *.
  set (o2 := remove_entry path is_folder (final o1)) in *.
  pose proof (quarantine_overflow (final o2)) as H3.
  pose proof (IH (env_sleep retry_delay (final o2))) as H4.
  destruct (res o2) as [[]|e]; simpl.
  { rewrite !Forall_app. by repeat constructor. }
  destruct (attempt <? max_retries)%Z.
  - destruct (retry_delay <? 0)%Z; simpl; rewrite !Forall_app; by repeat constructor.
  - destruct (res (GuardianAI.quarantine self path (final o2))) as [[v|]|x]; simpl;
      rewrite ?Forall_app, ?Forall_cons, ?Forall_app; by repeat constructor.
Qed.

Lemma delete_path_overflow (w : W) :
  Forall overflow_only
    (effects (GuardianAI.delete_path self path is_folder max_retries retry_delay w)).
Proof.
  destruct (env_exists path w) eqn:Hw.
  - rewrite delete_path_found by done. apply delete_loop_overflow.
  - rewrite delete_path_missing by done. by repeat constructor.
Qed.
End Engine.

(** ** The pipeline *)
Section PipelineFacts.
Context {W : Type} `{!Env W}.
Variable mapping : gmap string string.
Variable deletion : M W (option bool).
Variables (path : string) (is_folder : bool).

Lemma get_owner_run (w : W) :
  get_owner path w =
  match env_owner path w with
  | (Ok (name, domain), w') => Outcome (Ok (domain +:+ "\" +:+ name)) w' [EGetOwner path None]
  | (Raise e, w') =>
      Outcome (Ok "Unknown") w'
        [EGetOwner path (Some e);
         EPrint ("[WARNING] Could not get owner for " +:+ path +:+ ": " +:+ exn_str e)]
  end.
Proof.
  unfold get_owner, try_except_all, try_except, bind, win32_owner.
  by destruct (env_owner path w) as [[[name domain]|e] w'].
Qed.

Lemma check_names_run name (w : W) :
  check_names name w =
  match env_llm name w with
  | (Ok raw, w') => Outcome (Ok raw) w' [ELlm name (Ok raw)]
  | (Raise e, w') =>
      Outcome (Ok name_found_false) w'
        [ELlm name (Raise e);
         EPrint ("[ERROR] LLM call failed for '" +:+ name +:+ "': " +:+ exn_str e)]
  end.
Proof.
  unfold check_names, try_except_all, try_except, bind, llm_chain_invoke.
  by destruct (env_llm name w) as [[raw|e] w'].
Qed.

(** The parsing of a reply: the value of [name_found], [False] when
    the reply is no JSON or an object without the key, and an
    [AttributeError] when the reply is JSON but no object. *)
Lemma parse_reply_run name raw (w : W) :
  try_except (Some JSONDecodeError)
    (response_json <- json_loads raw ;; py_get response_json "name_found" (JBool false))
    (λ _,
      print ("[WARNING] Invalid JSON from LLM for '" +:+ name +:+ "': " +:+ raw) ;;;
      ret (JBool false)) w =
  match env_json_loads raw with
  | None =>
      Outcome (Ok (JBool false)) w
        [EPrint ("[WARNING] Invalid JSON from LLM for '" +:+ name +:+ "': " +:+ raw)]
  | Some (JObj items) =>
      Outcome (Ok (default (JBool false) (assoc_get "name_found" items))) w []
  | Some _ => Outcome (Raise (Exn AttributeError "object has no attribute 'get'")) w []
  end.
Proof.
  unfold try_except, bind, json_loads, py_get.
  by destruct (env_json_loads raw) as [[]|].
Qed.

Lemma classify_no_msg name (w : W) :
  notified (effects (classify name w)) = false.
Proof.
  unfold classify. unfold bind at 1. rewrite check_names_run.
  destruct (env_llm name w) as [[raw|e] w']; cbn [res final effects];
    rewrite parse_reply_run.
  - by destruct (env_json_loads raw) as [[]|].
  - by destruct (env_json_loads name_found_false) as [[]|].
Qed.

Lemma screening_no_msg (w : W) :
  notified (effects (screening path is_folder w)) = false.
Proof.
  unfold screening, bind, print, ret. rewrite get_owner_run.
  destruct (env_owner path w) as [[[name domain]|e] w']; simpl;
    pose proof (classify_no_msg (env_basename path) w') as Hc;
    destruct (res (classify (env_basename path) w')); simpl;
    by rewrite ?app_nil_r, ?Hc.
Qed.

Lemma send_msg_run machine user message (w : W) :
  send_msg_to_user machine user message w =
  match env_msg machine user message w with
  | (None, w') =>
      Outcome (Ok ()) w'
        [EMsg machine user message None;
         EPrint ("[INFO] Sent message to " +:+ user +:+ "@" +:+ machine)]
  | (Some e, w') =>
      if isinstance e CalledProcessError then
        Outcome (Ok ()) w'
          [EMsg machine user message (Some e);
           EPrint ("[ERROR] Failed to send msg: " +:+ exn_str e)]
      else Outcome (Raise e) w' [EMsg machine user message (Some e)]
  end.
Proof.
  unfold send_msg_to_user, try_except, bind, subprocess_run_msg.
  destruct (env_msg machine user message w) as [[e|] w']; simpl; [|done].
  by destruct (isinstance e CalledProcessError).
Qed.

(** The last block: the command is run exactly for an owner with a
    machine, with the fixed message; another owner gets a line in the
    log. *)
Lemma notification_run owner (w : W) :
  let o := notification mapping path is_folder owner w in
  match mapping !! owner with
  | Some machine =>
      if bool_decide (machine = EmptyString) then
        o = Outcome (Ok ()) w [EPrint (no_mapping_line owner)]
      else
        notified (effects o) = true ∧
        ∃ err rest,
          effects o =
          EMsg machine (split_last backslash owner)
            (removal_message (type_word is_folder) (env_basename path)) err :: rest
  | None => o = Outcome (Ok ()) w [EPrint (no_mapping_line owner)]
  end.
Proof.
  cbv zeta. unfold notification.
  destruct (mapping !! owner) as [machine|]; simpl; [|done].
  destruct (bool_decide (machine = EmptyString)); simpl; [done|].
  rewrite send_msg_run.
  destruct (env_msg machine _ _ w) as [[e|] w']; [|by eauto].
  destruct (isinstance e CalledProcessError); by eauto.
Qed.

Lemma pipeline_run (w : W) :
  let s := screening path is_folder w in
  pipeline mapping deletion path is_folder w =
  match res s with
  | Raise e => Outcome (Raise e) (final s) (effects s)
  | Ok (owner, name_found) =>
      if truthy name_found then
        let d := deletion (final s) in
        let pre := effects s ++ EPrint (alert_line path is_folder owner) :: effects d in
        match res d with
        | Raise e => Outcome (Raise e) (final d) pre
        | Ok _ =>
            let n := notification mapping path is_folder owner (final d) in
            Outcome (res n) (final n) (pre ++ effects n)
        end
      else Outcome (Ok ()) (final s) (effects s ++ [EPrint (clean_line path is_folder)])
  end.
Proof.
  cbv zeta. unfold pipeline, screening, bind, print, ret. rewrite get_owner_run.
  destruct (env_owner path w) as [[[name domain]|e] w']; simpl;
    destruct (res (classify (env_basename path) w')) as [nf|x]; simpl; try done;
    destruct (truthy nf); simpl; rewrite ?app_nil_r; try done;
    destruct (res (deletion _)); simpl; rewrite ?app_nil_r;
    by rewrite <- ?app_assoc.
Qed.
End PipelineFacts.

(** ** The classification block, case by case *)
Section Classification.
Context {W : Type} `{!Env W}.

Lemma classify_object name raw items (w w' : W) :
  env_llm name w = (Ok raw, w') →
  env_json_loads raw = Some (JObj items) →
  classify name w =
  Outcome (Ok (default (JBool false) (assoc_get "name_found" items))) w' [ELlm name (Ok raw)].
Proof.
  intros Hllm Hjson. unfold classify. unfold bind at 1.
  rewrite check_names_run, Hllm. cbn [res final effects].
  by rewrite parse_reply_run, Hjson.
Qed.

Lemma classify_not_json name raw (w w' : W) :
  env_llm name w = (Ok raw, w') →
  env_json_loads raw = None →
  classify name w =
  Outcome (Ok (JBool false)) w'
    [ELlm name (Ok raw);
     EPrint ("[WARNING] Invalid JSON from LLM for '" +:+ name +:+ "': " +:+ raw)].
Proof.
  intros Hllm Hjson. unfold classify. unfold bind at 1.
  rewrite check_names_run, Hllm. cbn [res final effects].
  by rewrite parse_reply_run, Hjson.
Qed.

Lemma classify_llm_failed name e (w w' : W) :
  env_llm name w = (Raise e, w') →
  env_json_loads name_found_false = Some (JObj [("name_found", JBool false)]) →
  classify name w =
  Outcome (Ok (JBool false)) w'
    [ELlm name (Raise e);
     EPrint ("[ERROR] LLM call failed for '" +:+ name +:+ "': " +:+ exn_str e)].
Proof.
  intros Hllm Hjson. unfold classify. unfold bind at 1.
  rewrite check_names_run, Hllm. cbn [res final effects].
  by rewrite parse_reply_run, Hjson.
Qed.

(** A reply that is JSON but no object: [.get] does not exist, and the
    [AttributeError] is not what the [except] clause catches. *)
Lemma classify_non_object name raw v (w w' : W) :
  env_llm name w = (Ok raw, w') →
  env_json_loads raw = Some v →
  (∀ items, v ≠ JObj items) →
  classify name w =
  Outcome (Raise (Exn AttributeError "object has no attribute 'get'")) w' [ELlm name (Ok raw)].
Proof.
  intros Hllm Hjson Hv. unfold classify. unfold bind at 1.
  rewrite check_names_run, Hllm. cbn [res final effects].
  rewrite parse_reply_run, Hjson.
  destruct v; try done. by destruct (Hv items).
Qed.
End Classification.

(** ** The simulated environment keeps the laws *)

Lemma string_length_app (a b : string) :
  String.length (a +:+ b) = String.length a + String.length b.
Proof. induction a as [|c a IH]; simpl; [done | by rewrite IH]. Qed.

Lemma sim_exists_insert p n q (w : Sim.world) :
  Sim.exists_ q w = true →
  Sim.exists_ q (Sim.with_nodes w (<[p := n]> (Sim.nodes w))) = true.
Proof.
  unfold Sim.exists_. simpl. rewrite !bool_decide_eq_true. intros Hq.
  destruct (decide (p = q)) as [->|Hne].
  - rewrite lookup_insert_eq. by eexists.
  - by rewrite lookup_insert_ne.
Qed.

Lemma sim_exists_delete p q (w : Sim.world) :
  p ≠ q → Sim.exists_ q w = true →
  Sim.exists_ q (Sim.with_nodes w (delete p (Sim.nodes w))) = true.
Proof.
  unfold Sim.exists_. simpl. rewrite !bool_decide_eq_true. intros Hne Hq.
  by rewrite lookup_delete_ne.
Qed.

Lemma sim_chmod_keeps p mode (w : Sim.world) q :
  Sim.exists_ q w = true → Sim.exists_ q (Sim.chmod p mode w).2 = true.
Proof.
  intros Hq. unfold Sim.chmod. destruct (Sim.nodes w !! p) as [n|]; [|done].
  by apply sim_exists_insert.
Qed.

Lemma sim_unlink_keeps p (w : Sim.world) q :
  Sim.exists_ q w = true → p ≠ q ∨ is_Some (Sim.unlink p w).1 →
  Sim.exists_ q (Sim.unlink p w).2 = true.
Proof.
  intros Hq. unfold Sim.unlink. destruct (Sim.nodes w !! p) as [n|]; [|done].
  destruct (Sim.is_dir n || Sim.read_only n); [done|].
  destruct (Sim.in_use n); [done|]. simpl.
  intros [Hne|[msg Hmsg]]; [by apply sim_exists_delete | done].
Qed.

Lemma sim_rmdir_keeps p (w : Sim.world) q :
  Sim.exists_ q w = true → p ≠ q ∨ is_Some (Sim.rmdir p w).1 →
  Sim.exists_ q (Sim.rmdir p w).2 = true.
Proof.
  intros Hq. unfold Sim.rmdir. destruct (Sim.nodes w !! p) as [n|]; [|done].
  destruct (negb (Sim.is_dir n)); [done|].
  destruct (negb (bool_decide (Sim.present p n w = []))); [done|].
  destruct (Sim.read_only n); [done|].
  destruct (Sim.in_use n); [done|]. simpl.
  intros [Hne|[msg Hmsg]]; [by apply sim_exists_delete | done].
Qed.

Lemma sim_scandir_below p (w : Sim.world) entries e :
  Sim.scandir p w = inr entries → e ∈ entries →
  String.length p < String.length (entry_path e).
Proof.
  unfold Sim.scandir. destruct (Sim.nodes w !! p) as [n|]; [|done].
  destruct (Sim.is_dir n); [|done].
  intros [= <-] (c & -> & _)%list_elem_of_fmap. simpl.
  unfold Sim.join. rewrite !string_length_app. simpl. lia.
Qed.

Lemma sim_move_takes src dst (w : Sim.world) :
  (Sim.move src dst w).1 = None → Sim.exists_ src (Sim.move src dst w).2 = false.
Proof.
  unfold Sim.move. destruct (Sim.nodes w !! src) as [n|] eqn:Hsrc; [|done].
  destruct (Sim.pinned n); [done|].
  destruct (negb (bool_decide (Sim.present src n w = []))); [done|].
  destruct (Sim.exists_ dst w) eqn:Hdst; [done|]. simpl. intros _.
  unfold Sim.exists_ in *. simpl. apply bool_decide_eq_false.
  apply bool_decide_eq_false in Hdst.
  assert (dst ≠ src) by (intros ->; apply Hdst; by eexists).
  rewrite lookup_insert_ne, lookup_delete_eq by done. by intros [? ?].
Qed.

Global Instance sim_laws : EnvLaws Sim.world.
Proof.
  split.
  - intros p mode w q. apply sim_chmod_keeps.
  - intros p w q. apply sim_unlink_keeps.
  - intros p w q. apply sim_rmdir_keeps.
  - done.
  - intros p w entries e. apply sim_scandir_below.
  - intros src dst w. apply sim_move_takes.
Qed.

(** ** Counting the steps of a schedule *)

Lemma retries_more n secs :
  retries (S (S n)) secs = DeleteAttempt :: Pause secs :: retries (S n) secs.
Proof. done. Qed.

Lemma retries_attempts n secs :
  length (filter (λ s, s = DeleteAttempt) (retries n secs)) = n.
Proof.
  induction n as [|n IH]; [done|].
  destruct n as [|n]; [done|].
  rewrite retries_more, filter_cons_True, filter_cons_False by done.
  cbn [length]. by rewrite IH.
Qed.

Lemma retries_pauses n secs :
  omap (λ s, match s with Pause d => Some d | _ => None end) (retries n secs) =
  replicate (n - 1) secs.
Proof.
  induction n as [|n IH]; [done|].
  destruct n as [|n]; [done|].
  rewrite retries_more. cbn [omap list_omap]. rewrite IH.
  simpl. by rewrite Nat.sub_0_r.
Qed.

Lemma retries_no_quarantine n secs :
  filter (λ s, s = QuarantineStep) (retries n secs) = [].
Proof.
  induction n as [|n IH]; [done|].
  destruct n as [|n]; [done|].
  by rewrite retries_more, !filter_cons_False.
Qed.

Lemma fallback_counts (fallback : list step) :
  Forall (λ s, s = QuarantineStep) fallback →
  filter (λ s, s = DeleteAttempt) fallback = [] ∧
  omap (λ s, match s with Pause d => Some d | _ => None end) fallback = [] ∧
  length (filter (λ s, s = QuarantineStep) fallback) = length fallback.
Proof.
  induction 1 as [|s l -> _ (IH1 & IH2 & IH3)]; [done|].
  rewrite filter_cons_False by done. rewrite filter_cons_True by done.
  cbn [omap list_omap length]. by rewrite IH1, IH2, IH3.
Qed.

Lemma schedule_counts tr n secs fallback :
  steps tr = retries n secs ++ fallback →
  Forall (λ s, s = QuarantineStep) fallback →
  attempts tr = n ∧ pauses tr = replicate (n - 1) secs ∧
  quarantine_steps tr = length fallback.
Proof.
  intros Hsteps (H1 & H2 & H3)%fallback_counts.
  unfold attempts, pauses, quarantine_steps. rewrite Hsteps.
  rewrite !filter_app, omap_app, !length_app, H1, H2, H3, retries_attempts, retries_pauses,
    retries_no_quarantine.
  rewrite app_nil_r. simpl. split_and!; [lia | done | done].
Qed.

(** ** The engine when every removal fails *)
Section AllFail.
Context {W : Type} `{!Env W}.
Variables (self : GuardianAI.WatcherHandler) (path : string) (is_folder : bool).
Variables (max_retries retry_delay : Z).

Lemma delete_path_all_fail (w : W) :
  (1 ≤ max_retries)%Z → (0 ≤ retry_delay)%Z →
  env_exists path w = true →
  let o := GuardianAI.delete_path self path is_folder max_retries retry_delay w in
  every_removal_fails (effects o) = true →
  ∃ pre w_last tail,
    let oq := GuardianAI.quarantine self path w_last in
    effects o = pre ++ effects oq ++ tail ∧
    steps pre = retries (Z.to_nat max_retries) retry_delay ∧
    final o = final oq ∧
    ((res oq = Ok (Some true) ∧ res o = Ok (Some true) ∧ tail = []) ∨
     (res oq = Ok None ∧ res o = Ok (Some false) ∧
      tail = [EPrint (failure_line path max_retries)])).
Proof.
  intros Hmax Hdelay Hw. cbv zeta. rewrite delete_path_found by done. intros Hall.
  destruct (Z.to_nat max_retries) as [|n] eqn:Hn; [lia|].
  destruct (delete_loop_all_fail self path is_folder max_retries retry_delay
              (λ _, True) n Hdelay) with (k := 1%Z) (w := w)
              (o := GuardianAI.delete_loop self path is_folder max_retries retry_delay
                      (seqZ 1 max_retries) w)
    as (pre & w_last & tail & Heff & Hpre & _ & Hfin & Hres); try done.
  - f_equal. f_equal. lia.
  - lia.
  - by exists pre, w_last, tail.
Qed.
End AllFail.

(** ** When the pipeline notifies *)
Section Notifying.
Context {W : Type} `{!Env W}.
Variable mapping : gmap string string.
Variable deletion : M W (option bool).
Variables (path : string) (is_folder : bool).
Hypothesis deletion_returns : ∀ w, ∃ v, res (deletion w) = Ok v.
Hypothesis deletion_no_msg : ∀ w, notified (effects (deletion w)) = false.
Hypothesis machines_named : ∀ owner machine,
  mapping !! owner = Some machine → machine ≠ EmptyString.

Lemma pipeline_verdict_true owner name_found (w : W) :
  res (screening path is_folder w) = Ok (owner, name_found) →
  truthy name_found = true →
  let o := pipeline mapping deletion path is_folder w in
  match mapping !! owner with
  | Some machine =>
      notified (effects o) = true ∧
      ∃ err, EMsg machine (split_last backslash owner)
               (removal_message (type_word is_folder) (env_basename path)) err ∈ effects o
  | None =>
      notified (effects o) = false ∧ res o = Ok () ∧
      ∃ pre, effects o = pre ++ [EPrint (no_mapping_line owner)]
  end.
Proof.
  intros Hs Hnf. cbv zeta. rewrite pipeline_run. cbv zeta. rewrite Hs, Hnf.
  destruct (deletion_returns (final (screening path is_folder w))) as [v Hv]. rewrite Hv.
  pose proof (notification_run mapping path is_folder owner
                (final (deletion (final (screening path is_folder w))))) as Hn.
  cbv zeta in Hn.
  assert (Hpre : notified (effects (screening path is_folder w) ++
                           EPrint (alert_line path is_folder owner) ::
                           effects (deletion (final (screening path is_folder w)))) = false).
  { change (?a :: ?l) with ([a] ++ l).
    by rewrite !notified_app, screening_no_msg, deletion_no_msg. }
  destruct (mapping !! owner) as [machine|] eqn:Hm.
  - rewrite bool_decide_eq_false_2 in Hn by (by eapply machines_named).
    destruct Hn as (Hmsg & err & rest & Heff). simpl. split.
    + by rewrite notified_app, Hmsg, orb_true_r.
    + exists err. rewrite Heff, elem_of_app. right. by left.
  - rewrite Hn. simpl. split_and!; [|done|by eexists].
    by rewrite notified_app, Hpre.
Qed.

Lemma pipeline_notified_iff (w : W) :
  let o := pipeline mapping deletion path is_folder w in
  notified (effects o) = true ↔
  ∃ owner name_found,
    res (screening path is_folder w) = Ok (owner, name_found) ∧
    truthy name_found = true ∧ is_Some (mapping !! owner).
Proof.
  cbv zeta. split.
  - destruct (res (screening path is_folder w)) as [[owner nf]|e] eqn:Hs.
    + destruct (truthy nf) eqn:Hnf.
      * pose proof (pipeline_verdict_true owner nf w Hs Hnf) as Hv. cbv zeta in Hv.
        destruct (mapping !! owner) as [machine|] eqn:Hm.
        -- intros _. exists owner, nf. rewrite Hm. by eauto.
        -- destruct Hv as [Hv _]. by rewrite Hv.
      * rewrite pipeline_run. cbv zeta. rewrite Hs, Hnf. simpl.
        by rewrite notified_app, screening_no_msg.
    + rewrite pipeline_run. cbv zeta. rewrite Hs. simpl. by rewrite screening_no_msg.
  - intros (owner & nf & Hs & Hnf & [machine Hm]).
    pose proof (pipeline_verdict_true owner nf w Hs Hnf) as Hv. cbv zeta in Hv.
    rewrite Hm in Hv. by destruct Hv.
Qed.
End Notifying.

(** Every machine of the two tables has a name. *)
Lemma machines_named_1 owner machine :
  GuardianAI.user_to_machine !! owner = Some machine → machine ≠ EmptyString.
Proof.
  unfold GuardianAI.user_to_machine. rewrite !lookup_insert, lookup_empty.
  repeat case_decide; by intros [= <-].
Qed.

Lemma machines_named_2 owner machine :
  GuardianAI2.user_to_machine !! owner = Some machine → machine ≠ EmptyString.
Proof.
  unfold GuardianAI2.user_to_machine. rewrite !lookup_insert, lookup_empty.
  repeat case_decide; by intros [= <-].
Qed.

Lemma string_app_assoc (a b c : string) : (a +:+ b) +:+ c = a +:+ (b +:+ c).
Proof.
  induction a as [|x a IH]; [done|].
  change (String x ((a +:+ b) +:+ c) = String x (a +:+ (b +:+ c))). by f_equal.
Qed.

(** The message ends with the statement that the entry has been
    removed. *)
Lemma removal_message_says_removed typ name :
  ∃ head,
    removal_message typ name =
    head +:+ "It has been removed. Please rename it according to the policy.".
Proof.
  unfold removal_message.
  exists ("The " +:+ str_lower typ +:+ " name '" +:+ name +:+
          "' contains a personal name and violates naming guidelines." +:+ newline).
  by rewrite !string_app_assoc.
Qed.

(** * The properties of the specification *)

Lemma all_fail_schedule {W : Type} `{!Env W} (self : GuardianAI.WatcherHandler)
    (path : string) (is_folder : bool) (max_retries retry_delay : Z) (w : W) :
  (1 ≤ max_retries)%Z → (0 ≤ retry_delay)%Z →
  env_exists path w = true →
  let o := GuardianAI.delete_path self path is_folder max_retries retry_delay w in
  every_removal_fails (effects o) = true →
  ∃ fallback,
    steps (effects o) = retries (Z.to_nat max_retries) retry_delay ++ fallback ∧
    Forall (λ s, s = QuarantineStep) fallback ∧
    (truthy_str (GuardianAI.quarantine_dir self) = false → fallback = []) ∧
    (res o = Ok (Some false) ∨ res o = Ok (Some true) ∧ fallback ≠ []).
Proof.
  intros Hmax Hdelay Hw o Hall.
  destruct (delete_path_all_fail self path is_folder max_retries retry_delay w
              Hmax Hdelay Hw Hall)
    as (pre & w_last & tail & Heff & Hpre & Hfin & Hres).
  cbv zeta in *. fold o in Heff, Hfin, Hres.
  destruct (quarantine_result self path w_last) as (_ & Hfb & _). cbv zeta in Hfb.
  exists (steps (effects (GuardianAI.quarantine self path w_last))).
  assert (Htail : steps tail = []) by (by destruct Hres as [(_ & _ & ->)|(_ & _ & ->)]).
  split_and!.
  - by rewrite Heff, !steps_app, Hpre, Htail, app_nil_r.
  - done.
  - intros Hoff. by rewrite quarantine_off.
  - destruct Hres as [(Hq & Hr & _)|(_ & Hr & _)]; [right | by left].
    split; [done|]. intros Hnil.
    rewrite quarantine_silent in Hq; [done|].
    unfold quarantine_steps. by rewrite Hnil.
Qed.

(** C1.  When the path exists and every removal fails, [delete_path]
    makes exactly [max_retries] removal attempts, with a pause of
    [retry_delay] after each of them but the last, and only then falls back
    to the quarantine (guardianAI.py) or returns [False]; in guardianAI2.py
    it returns [False].  [max_retries] is a positive count and
    [retry_delay] no negative length, as in every call of the scripts
    (3 and 2). *)
Theorem C1_retries_before_fallback
    (W : Type) (E : Env W) (self : GuardianAI.WatcherHandler) (path : string)
    (is_folder : bool) (max_retries retry_delay : Z) (w : W) :
  (1 ≤ max_retries)%Z → (0 ≤ retry_delay)%Z →
  env_exists path w = true →
  let o1 := GuardianAI.delete_path self path is_folder max_retries retry_delay w in
  let o2 := GuardianAI2.delete_path path is_folder max_retries retry_delay w in
  (every_removal_fails (effects o1) = true →
     attempts (effects o1) = Z.to_nat max_retries ∧
     pauses (effects o1) = replicate (Z.to_nat max_retries - 1) retry_delay ∧
     ∃ fallback,
       steps (effects o1) = retries (Z.to_nat max_retries) retry_delay ++ fallback ∧
       Forall (λ s, s = QuarantineStep) fallback ∧
       (res o1 = Ok (Some false) ∨ res o1 = Ok (Some true) ∧ fallback ≠ [])) ∧
  (every_removal_fails (effects o2) = true →
     attempts (effects o2) = Z.to_nat max_retries ∧
     pauses (effects o2) = replicate (Z.to_nat max_retries - 1) retry_delay ∧
     steps (effects o2) = retries (Z.to_nat max_retries) retry_delay ∧
     res o2 = Ok (Some false)).
Proof.
  intros Hmax Hdelay Hw o1 o2. split; intros Hall.
  - destruct (all_fail_schedule self path is_folder max_retries retry_delay w
                Hmax Hdelay Hw Hall) as (fallback & Hsteps & Hfb & _ & Hres).
    destruct (schedule_counts _ _ _ _ Hsteps Hfb) as (Ha & Hp & _).
    split_and!; [done..|]. by exists fallback.
  - subst o2. rewrite (delete_path_off plain_handler) in * by done.
    destruct (all_fail_schedule plain_handler path is_folder max_retries retry_delay w
                Hmax Hdelay Hw Hall) as (fallback & Hsteps & Hfb & Hoff & Hres).
    rewrite (Hoff eq_refl) in *.
    destruct (schedule_counts _ _ _ _ Hsteps Hfb) as (Ha & Hp & _).
    rewrite app_nil_r in Hsteps. split_and!; [done..|].
    by destruct Hres as [|[_ ?]].
Qed.

(** C1, on a file that another process holds open: three attempts, two
    pauses of two seconds, then the quarantine. *)
Lemma C1_busy_file_witness :
  let o := GuardianAI.delete_path Sim.with_quarantine Sim.notes false 3 2 Sim.w_busy in
  attempts (effects o) = 3 ∧ pauses (effects o) = [2; 2]%Z ∧
  ∃ fallback,
    steps (effects o) = retries 3 2 ++ fallback ∧
    Forall (λ s, s = QuarantineStep) fallback ∧
    (res o = Ok (Some false) ∨ res o = Ok (Some true) ∧ fallback ≠ []).
Proof.
  refine (proj1 (C1_retries_before_fallback Sim.world Sim.sim_env Sim.with_quarantine
                   Sim.notes false 3 2 Sim.w_busy _ _ _) _).
  - lia.
  - lia.
  - vm_compute. reflexivity.
  - vm_compute. reflexivity.
Defined.

(** C2.  With a quarantine directory configured, an existing path and
    every removal failing, [delete_path] of guardianAI.py, after its
    [max_retries] attempts, calls [os.makedirs] on the directory and then
    [shutil.move] from the path to the directory joined with the base name
    of the path.  When the move succeeds the call returns [True] and the
    path is gone; when the move fails, or the directory cannot be made, it
    returns [False]. *)
Theorem C2_quarantine_after_retries
    (W : Type) (E : Env W) (L : EnvLaws W) (self : GuardianAI.WatcherHandler)
    (dir path : string) (is_folder : bool) (max_retries retry_delay : Z) (w : W) :
  GuardianAI.quarantine_dir self = Some dir → truthy_str (Some dir) = true →
  (1 ≤ max_retries)%Z → (0 ≤ retry_delay)%Z →
  env_exists path w = true →
  let o := GuardianAI.delete_path self path is_folder max_retries retry_delay w in
  let dst := env_join dir (env_basename path) in
  every_removal_fails (effects o) = true →
  ∃ pre,
    steps pre = retries (Z.to_nat max_retries) retry_delay ∧
    ((effects o = pre ++ [EMakedirs dir None; EMove path dst None; EPrint (moved_line dst)] ∧
      res o = Ok (Some true) ∧ env_exists path (final o) = false) ∨
     (∃ msg,
        effects o = pre ++ [EMakedirs dir None; EMove path dst (Some (os_error msg));
                            EPrint (move_failed_line msg);
                            EPrint (failure_line path max_retries)] ∧
        res o = Ok (Some false)) ∨
     (∃ msg,
        effects o = pre ++ [EMakedirs dir (Some (os_error msg));
                            EPrint (move_failed_line msg);
                            EPrint (failure_line path max_retries)] ∧
        res o = Ok (Some false))).
Proof.
  intros Hdir Hon Hmax Hdelay Hw o dst Hall.
  destruct (delete_path_all_fail self path is_folder max_retries retry_delay w
              Hmax Hdelay Hw Hall)
    as (pre & w_last & tail & Heff & Hpre & Hfin & Hres).
  cbv zeta in *. fold o in Heff, Hfin, Hres.
  exists pre. split; [done|].
  pose proof (quarantine_on self path dir w_last Hdir Hon) as Hrun. cbv zeta in Hrun.
  pose proof (move_takes path dst) as Hgone.
  rewrite Hrun in *. clear Hrun.
  destruct (env_makedirs dir w_last) as [[msg|] w1]; simpl in *.
  { right. right. exists msg.
    destruct Hres as [(? & _)|(_ & Hr & ->)]; [done|]. by rewrite Heff. }
  specialize (Hgone w1). fold dst in Heff, Hfin, Hres.
  destruct (env_move path dst w1) as [[msg|] w2]; simpl in *.
  - right. left. exists msg.
    destruct Hres as [(? & _)|(_ & Hr & ->)]; [done|]. by rewrite Heff.
  - left. destruct Hres as [(_ & Hr & ->)|(? & _)]; [|done].
    rewrite Heff, Hfin. split_and!; [done | done | by apply Hgone].
Qed.

(** C2, on the open file: the move succeeds, the call returns [True]
    and the file is gone from the watched folder. *)
Lemma C2_busy_file_witness :
  let o := GuardianAI.delete_path Sim.with_quarantine Sim.notes false 3 2 Sim.w_busy in
  let dst := "Q:\Quarantine_Folder\John_Notes.docx" in
  ∃ pre,
    steps pre = retries 3 2 ∧
    ((effects o = pre ++ [EMakedirs "Q:\Quarantine_Folder" None; EMove Sim.notes dst None;
                          EPrint (moved_line dst)] ∧
      res o = Ok (Some true) ∧ Sim.exists_ Sim.notes (final o) = false) ∨
     (∃ msg,
        effects o = pre ++ [EMakedirs "Q:\Quarantine_Folder" None;
                            EMove Sim.notes dst (Some (os_error msg));
                            EPrint (move_failed_line msg);
                            EPrint (failure_line Sim.notes 3)] ∧
        res o = Ok (Some false)) ∨
     (∃ msg,
        effects o = pre ++ [EMakedirs "Q:\Quarantine_Folder" (Some (os_error msg));
                            EPrint (move_failed_line msg);
                            EPrint (failure_line Sim.notes 3)] ∧
        res o = Ok (Some false))).
Proof.
  refine (C2_quarantine_after_retries Sim.world Sim.sim_env sim_laws Sim.with_quarantine
            "Q:\Quarantine_Folder" Sim.notes false 3 2 Sim.w_busy _ _ _ _ _ _).
  - reflexivity.
  - reflexivity.
  - lia.
  - lia.
  - vm_compute. reflexivity.
  - vm_compute. reflexivity.
Defined.

(** C5.  On a path that does not exist, [delete_path] of either script
    returns [False] at once: it raises nothing, the state is untouched,
    and its only effect is one line of the log, so it neither sleeps nor
    attempts a removal. *)
Theorem C5_missing_path_fails_at_once
    (W : Type) (E : Env W) (self : GuardianAI.WatcherHandler) (path : string)
    (is_folder : bool) (max_retries retry_delay : Z) (w : W) :
  env_exists path w = false →
  GuardianAI.delete_path self path is_folder max_retries retry_delay w =
    Outcome (Ok (Some false)) w [EPrint (missing_line path)] ∧
  GuardianAI2.delete_path path is_folder max_retries retry_delay w =
    Outcome (Ok (Some false)) w [EPrint (missing_line path)].
Proof.
  intros Hw. split.
  - by apply delete_path_missing.
  - rewrite (delete_path_off plain_handler) by done. by apply delete_path_missing.
Qed.

(** C5, on a path the watched folder does not hold. *)
Lemma C5_missing_path_witness :
  GuardianAI.delete_path Sim.with_quarantine Sim.report true 3 2 Sim.w_busy =
    Outcome (Ok (Some false)) Sim.w_busy [EPrint (missing_line Sim.report)] ∧
  GuardianAI2.delete_path Sim.report true 3 2 Sim.w_busy =
    Outcome (Ok (Some false)) Sim.w_busy [EPrint (missing_line Sim.report)].
Proof.
  refine (C5_missing_path_fails_at_once Sim.world Sim.sim_env Sim.with_quarantine
            Sim.report true 3 2 Sim.w_busy _).
  vm_compute. reflexivity.
Defined.

(** C6.  Without a quarantine directory, when every removal fails an
    existing path still exists after [delete_path] has returned, in either
    script, whatever the number of retries and the pause. *)
Theorem C6_failed_delete_keeps_path
    (W : Type) (E : Env W) (L : EnvLaws W) (self : GuardianAI.WatcherHandler)
    (path : string) (is_folder : bool) (max_retries retry_delay : Z) (w : W) :
  truthy_str (GuardianAI.quarantine_dir self) = false →
  env_exists path w = true →
  let o1 := GuardianAI.delete_path self path is_folder max_retries retry_delay w in
  let o2 := GuardianAI2.delete_path path is_folder max_retries retry_delay w in
  (every_removal_fails (effects o1) = true → env_exists path (final o1) = true) ∧
  (every_removal_fails (effects o2) = true → env_exists path (final o2) = true).
Proof.
  intros Hoff Hw o1 o2.
  assert (Hkeep : ∀ self', truthy_str (GuardianAI.quarantine_dir self') = false →
    let o := GuardianAI.delete_path self' path is_folder max_retries retry_delay w in
    every_removal_fails (effects o) = true → env_exists path (final o) = true).
  { intros self' Hoff'. cbv zeta. rewrite delete_path_found by done.
    apply (delete_loop_keeps self' path is_folder max_retries retry_delay
             (λ w', env_exists path w' = true)); [done| | | |done].
    - intros w' Hw'. by apply fix_permissions_keeps.
    - intros w' e Hw' He. by eapply remove_entry_keeps.
    - intros w' Hw'. by apply sleep_keeps. }
  split.
  - by apply Hkeep.
  - subst o2. rewrite (delete_path_off plain_handler) by done. by apply Hkeep.
Qed.

(** C6, on the open file, in both scripts. *)
Lemma C6_busy_file_witness :
  let o1 := GuardianAI.delete_path Sim.no_quarantine Sim.notes false 3 2 Sim.w_busy in
  let o2 := GuardianAI2.delete_path Sim.notes false 3 2 Sim.w_busy in
  (every_removal_fails (effects o1) = true ∧ Sim.exists_ Sim.notes (final o1) = true) ∧
  (every_removal_fails (effects o2) = true ∧ Sim.exists_ Sim.notes (final o2) = true).
Proof.
  pose proof (C6_failed_delete_keeps_path Sim.world Sim.sim_env sim_laws Sim.no_quarantine
                Sim.notes false 3 2 Sim.w_busy eq_refl eq_refl) as [H1 H2].
  assert (Hf1 : every_removal_fails
                  (effects (GuardianAI.delete_path Sim.no_quarantine Sim.notes false 3 2
                              Sim.w_busy)) = true) by (vm_compute; reflexivity).
  assert (Hf2 : every_removal_fails
                  (effects (GuardianAI2.delete_path Sim.notes false 3 2 Sim.w_busy)) = true)
    by (vm_compute; reflexivity).
  exact (conj (conj Hf1 (H1 Hf1)) (conj Hf2 (H2 Hf2))).
Defined.

(** C9.  The handler [on_rm_error] never raises, so in either script
    a failure to remove an entry inside the recursive delete does not leave
    [shutil.rmtree]: a recursive removal in the trace of [delete_path] has
    failed, if at all, by exceeding the interpreter's recursion limit.
    Hence on an existing folder, as long as the walk stays within that
    limit, the first attempt counts as a success whatever entries could
    not be removed: [delete_path] returns [True] after one attempt,
    without a pause and without a step of the quarantine. *)
Theorem C9_folder_failures_are_swallowed
    (W : Type) (E : Env W) (self : GuardianAI.WatcherHandler) (path : string)
    (max_retries retry_delay : Z) (w : W) :
  (1 ≤ max_retries)%Z →
  env_exists path w = true →
  let o1 := GuardianAI.delete_path self path true max_retries retry_delay w in
  let o2 := GuardianAI2.delete_path path true max_retries retry_delay w in
  (∀ func p exc w', res (on_rm_error func p exc w') = Ok ()) ∧
  (Forall overflow_only (effects o1) ∧ Forall overflow_only (effects o2)) ∧
  (within_recursion_limit (effects o1) = true →
     res o1 = Ok (Some true) ∧ steps (effects o1) = [DeleteAttempt] ∧
     ERmtree path None ∈ effects o1) ∧
  (within_recursion_limit (effects o2) = true →
     res o2 = Ok (Some true) ∧ steps (effects o2) = [DeleteAttempt] ∧
     ERmtree path None ∈ effects o2).
Proof.
  intros Hmax Hw o1 o2.
  assert (Hone : ∀ self',
    let o := GuardianAI.delete_path self' path true max_retries retry_delay w in
    within_recursion_limit (effects o) = true →
    res o = Ok (Some true) ∧ steps (effects o) = [DeleteAttempt] ∧
    ERmtree path None ∈ effects o).
  { intros self'. cbv zeta. rewrite delete_path_found by done.
    rewrite seqZ_cons by lia. by apply delete_loop_folder. }
  split_and!.
  - intros func p exc w'. apply on_rm_error_ok.
  - apply delete_path_overflow.
  - subst o2. rewrite (delete_path_off plain_handler) by done. apply delete_path_overflow.
  - apply Hone.
  - subst o2. rewrite (delete_path_off plain_handler) by done. apply Hone.
Qed.

(** C9, on a folder with a file another process holds open: the file
    and the folder are still there, and the call has returned [True]. *)
Lemma C9_folder_witness :
  let o := GuardianAI.delete_path Sim.with_quarantine Sim.report true 3 2 Sim.w_folder in
  (res o = Ok (Some true) ∧ steps (effects o) = [DeleteAttempt] ∧
   ERmtree Sim.report None ∈ effects o) ∧
  Sim.exists_ (Sim.join Sim.report "b.xlsx") (final o) = true ∧
  Sim.exists_ Sim.report (final o) = true.
Proof.
  split.
  - refine (proj1 (proj2 (proj2 (C9_folder_failures_are_swallowed Sim.world Sim.sim_env
                                   Sim.with_quarantine Sim.report 3 2 Sim.w_folder _ _))) _).
    + lia.
    + vm_compute. reflexivity.
    + vm_compute. reflexivity.
  - vm_compute. split; reflexivity.
Defined.

Lemma process_name_rule {W : Type} `{!Env W} (self : GuardianAI.WatcherHandler)
    (path : string) (is_folder : bool) (w : W) :
  notification_rule GuardianAI.user_to_machine path is_folder w
    (GuardianAI.process_name self path is_folder w).
Proof.
  change (GuardianAI.process_name self path is_folder w) with
    (pipeline GuardianAI.user_to_machine
       (GuardianAI.delete_path self path is_folder 3 2) path is_folder w).
  assert (Hret : ∀ w', ∃ v,
            res (GuardianAI.delete_path self path is_folder 3 2 w') = Ok v).
  { intros w'. by apply (delete_path_total self path is_folder 3 2 w'). }
  assert (Hmsg : ∀ w',
            notified (effects (GuardianAI.delete_path self path is_folder 3 2 w')) = false).
  { intros w'. by apply (delete_path_total self path is_folder 3 2 w'). }
  split.
  - apply pipeline_notified_iff; [done | done | apply machines_named_1].
  - intros owner nf Hs Hnf Hm.
    pose proof (pipeline_verdict_true GuardianAI.user_to_machine _ path is_folder
                  Hret Hmsg machines_named_1 owner nf w Hs Hnf) as Hv.
    cbv zeta in Hv. rewrite Hm in Hv. by destruct Hv as (? & _ & ?).
Qed.

Lemma process_name2_rule {W : Type} `{!Env W}
    (path : string) (is_folder : bool) (w : W) :
  notification_rule GuardianAI2.user_to_machine path is_folder w
    (GuardianAI2.process_name path is_folder w).
Proof.
  change (GuardianAI2.process_name path is_folder w) with
    (pipeline GuardianAI2.user_to_machine
       (GuardianAI2.delete_path path is_folder 3 2) path is_folder w).
  assert (Hret : ∀ w', ∃ v, res (GuardianAI2.delete_path path is_folder 3 2 w') = Ok v).
  { intros w'. rewrite (delete_path_off plain_handler) by done.
    by apply (delete_path_total plain_handler path is_folder 3 2 w'). }
  assert (Hmsg : ∀ w',
            notified (effects (GuardianAI2.delete_path path is_folder 3 2 w')) = false).
  { intros w'. rewrite (delete_path_off plain_handler) by done.
    by apply (delete_path_total plain_handler path is_folder 3 2 w'). }
  split.
  - apply pipeline_notified_iff; [done | done | apply machines_named_2].
  - intros owner nf Hs Hnf Hm.
    pose proof (pipeline_verdict_true GuardianAI2.user_to_machine _ path is_folder
                  Hret Hmsg machines_named_2 owner nf w Hs Hnf) as Hv.
    cbv zeta in Hv. rewrite Hm in Hv. by destruct Hv as (? & _ & ?).
Qed.

(** C3.  In every run of [process_name], of either script, the
    messaging command is run if and only if the verdict of the
    classification is true and the owner has a machine in the mapping of
    the script; the outcome of the deletion has no part in it.  With a true
    verdict and an owner without a machine, the run ends with the warning
    line and sends nothing. *)
Theorem C3_notification_rule
    (W : Type) (E : Env W) (self : GuardianAI.WatcherHandler) (path : string)
    (is_folder : bool) (w : W) :
  notification_rule GuardianAI.user_to_machine path is_folder w
    (GuardianAI.process_name self path is_folder w) ∧
  notification_rule GuardianAI2.user_to_machine path is_folder w
    (GuardianAI2.process_name path is_folder w).
Proof. split; [apply process_name_rule | apply process_name2_rule]. Qed.

(** C10.  For a violating entry whose owner has a machine, the message
    that is sent is the fixed text that ends with "It has been removed",
    built from the kind and the name of the entry only: the value
    [delete_path] returned is not consulted, so the same text goes out
    when the deletion and the quarantine have failed. *)
Theorem C10_message_claims_removal
    (W : Type) (E : Env W) (self : GuardianAI.WatcherHandler) (path : string)
    (is_folder : bool) (w : W) (owner : string) (name_found : json) (machine : string) :
  res (screening path is_folder w) = Ok (owner, name_found) →
  truthy name_found = true →
  let message := removal_message (type_word is_folder) (env_basename path) in
  (∃ head,
     message = head +:+ "It has been removed. Please rename it according to the policy.") ∧
  (GuardianAI.user_to_machine !! owner = Some machine →
   ∃ err, EMsg machine (split_last backslash owner) message err ∈
            effects (GuardianAI.process_name self path is_folder w)) ∧
  (GuardianAI2.user_to_machine !! owner = Some machine →
   ∃ err, EMsg machine (split_last backslash owner) message err ∈
            effects (GuardianAI2.process_name path is_folder w)).
Proof.
  intros Hs Hnf message. split_and!.
  - apply removal_message_says_removed.
  - intros Hm.
    change (GuardianAI.process_name self path is_folder w) with
      (pipeline GuardianAI.user_to_machine
         (GuardianAI.delete_path self path is_folder 3 2) path is_folder w).
    pose proof (pipeline_verdict_true GuardianAI.user_to_machine
                  (GuardianAI.delete_path self path is_folder 3 2) path is_folder) as Hv.
    cbv zeta in Hv. specialize (Hv
      (λ w', proj1 (delete_path_total self path is_folder 3 2 w') ltac:(done))
      (λ w', proj2 (delete_path_total self path is_folder 3 2 w'))
      machines_named_1 owner name_found w Hs Hnf).
    rewrite Hm in Hv. by destruct Hv.
  - intros Hm.
    change (GuardianAI2.process_name path is_folder w) with
      (pipeline GuardianAI2.user_to_machine
         (GuardianAI2.delete_path path is_folder 3 2) path is_folder w).
    assert (Hret : ∀ w', ∃ v, res (GuardianAI2.delete_path path is_folder 3 2 w') = Ok v).
    { intros w'. rewrite (delete_path_off plain_handler) by done.
      by apply (delete_path_total plain_handler path is_folder 3 2 w'). }
    assert (Hmsg : ∀ w',
              notified (effects (GuardianAI2.delete_path path is_folder 3 2 w')) = false).
    { intros w'. rewrite (delete_path_off plain_handler) by done.
      by apply (delete_path_total plain_handler path is_folder 3 2 w'). }
    pose proof (pipeline_verdict_true GuardianAI2.user_to_machine _ path is_folder
                  Hret Hmsg machines_named_2 owner name_found w Hs Hnf) as Hv.
    cbv zeta in Hv. rewrite Hm in Hv. by destruct Hv.
Qed.

(** C10, on a file that can be neither removed nor moved: the deletion
    and the quarantine fail, the file is still there, and the owner is told
    that it has been removed. *)
Lemma C10_stuck_file_witness :
  let o := GuardianAI.process_name Sim.with_quarantine Sim.notes false Sim.w_stuck in
  let message := removal_message "File" "John_Notes.docx" in
  ((∃ head,
      message = head +:+ "It has been removed. Please rename it according to the policy.") ∧
   (GuardianAI.user_to_machine !! "APAC\HEKOLLI" = Some "C185LX082414174" →
    ∃ err, EMsg "C185LX082414174" "HEKOLLI" message err ∈ effects o) ∧
   (GuardianAI2.user_to_machine !! "APAC\HEKOLLI" = Some "C185LX082414174" →
    ∃ err, EMsg "C185LX082414174" "HEKOLLI" message err ∈
             effects (GuardianAI2.process_name Sim.notes false Sim.w_stuck))) ∧
  GuardianAI.user_to_machine !! "APAC\HEKOLLI" = Some "C185LX082414174" ∧
  Sim.exists_ Sim.notes (final o) = true ∧
  every_removal_fails (effects o) = true.
Proof.
  split.
  - refine (C10_message_claims_removal Sim.world Sim.sim_env Sim.with_quarantine Sim.notes
              false Sim.w_stuck "APAC\HEKOLLI" (JBool true) "C185LX082414174" _ _).
    + vm_compute. reflexivity.
    + reflexivity.
  - split_and!.
    + vm_compute. reflexivity.
    + vm_compute. reflexivity.
    + vm_compute. reflexivity.
Defined.

(** C7.  When the oracle's reply is read by [json.loads] as the object
    with the one entry [name_found] and a boolean, as it reads
    [{"name_found": true}] and [{"name_found": false}], the verdict of the
    classification is that boolean. *)
Theorem C7_well_formed_reply
    (W : Type) (E : Env W) (name raw : string) (b : bool) (w w' : W) :
  env_llm name w = (Ok raw, w') →
  env_json_loads raw = Some (JObj [("name_found", JBool b)]) →
  res (classify name w) = Ok (JBool b) ∧ truthy (JBool b) = b.
Proof.
  intros Hllm Hjson. by rewrite (classify_object name raw _ w w' Hllm Hjson).
Qed.

(** C7, on the two replies, read by the reference reader. *)
Lemma C7_two_replies_witness :
  (JsonRef.json_loads_ref name_found_true = Some (JObj [("name_found", JBool true)]) ∧
   res (classify "John_Notes.docx" Sim.w_busy) = Ok (JBool true) ∧
   truthy (JBool true) = true) ∧
  (JsonRef.json_loads_ref name_found_false = Some (JObj [("name_found", JBool false)]) ∧
   res (classify "John_Notes.docx" Sim.w_clean) = Ok (JBool false) ∧
   truthy (JBool false) = false).
Proof.
  split.
  - split; [vm_compute; reflexivity|].
    refine (C7_well_formed_reply Sim.world Sim.sim_env "John_Notes.docx" name_found_true
              true Sim.w_busy Sim.w_busy _ _).
    + reflexivity.
    + vm_compute. reflexivity.
  - split; [vm_compute; reflexivity|].
    refine (C7_well_formed_reply Sim.world Sim.sim_env "John_Notes.docx" name_found_false
              false Sim.w_clean Sim.w_clean _ _).
    + reflexivity.
    + vm_compute. reflexivity.
Defined.

(** The replies on which the classification does fail open: a reply
    that is no JSON, an object without the key, and a call that raised. *)
Lemma classify_fail_open {W : Type} `{!Env W} (name : string) (w w' : W) :
  (∀ raw, env_llm name w = (Ok raw, w') → env_json_loads raw = None →
     res (classify name w) = Ok (JBool false)) ∧
  (∀ raw items, env_llm name w = (Ok raw, w') → env_json_loads raw = Some (JObj items) →
     assoc_get "name_found" items = None →
     res (classify name w) = Ok (JBool false)) ∧
  (∀ e, env_llm name w = (Raise e, w') →
     env_json_loads name_found_false = Some (JObj [("name_found", JBool false)]) →
     res (classify name w) = Ok (JBool false)).
Proof.
  split_and!.
  - intros raw Hllm Hjson. by rewrite (classify_not_json name raw w w').
  - intros raw items Hllm Hjson Hkey.
    by rewrite (classify_object name raw items w w'), Hkey.
  - intros e Hllm Hjson. by rewrite (classify_llm_failed name e w w').
Qed.

(** C4.  A reply that is JSON but no object is not answered with a
    false verdict: on the bare reply [true] the [.get] of [process_name]
    raises an [AttributeError], which its [except json.JSONDecodeError]
    does not catch, and the exception leaves [process_name] and the event
    handler, in either script. *)
Theorem C4_bare_reply_raises :
  JsonRef.json_loads_ref "true" = Some (JBool true) ∧
  res (classify "John_Notes.docx" Sim.w_bare_reply) =
    Raise (Exn AttributeError "object has no attribute 'get'") ∧
  res (GuardianAI.process_name Sim.with_quarantine Sim.notes false Sim.w_bare_reply) =
    Raise (Exn AttributeError "object has no attribute 'get'") ∧
  res (GuardianAI2.on_created (FsEvent Sim.notes Sim.notes false) Sim.w_bare_reply) =
    Raise (Exn AttributeError "object has no attribute 'get'").
Proof. vm_compute. by split_and!. Qed.

Lemma quarantine_steps_print line l :
  quarantine_steps (EPrint line :: l) = quarantine_steps l.
Proof. done. Qed.

Lemma notification_same {W : Type} `{!Env W} (path : string) (is_folder : bool)
    (owner : string) (w : W) :
  GuardianAI.user_to_machine !! owner = GuardianAI2.user_to_machine !! owner →
  notification GuardianAI2.user_to_machine path is_folder owner w =
  notification GuardianAI.user_to_machine path is_folder owner w.
Proof. intros Hm. unfold notification. by rewrite Hm. Qed.

(** The two pipelines agree on a run of the first in which the
    quarantine does nothing, for an owner the two mappings treat alike. *)
Lemma process_name_same {W : Type} `{!Env W} (self : GuardianAI.WatcherHandler)
    (path : string) (is_folder : bool) (w : W) :
  let o1 := GuardianAI.process_name self path is_folder w in
  quarantine_steps (effects o1) = 0 →
  (∀ owner name_found,
     res (screening path is_folder w) = Ok (owner, name_found) →
     GuardianAI.user_to_machine !! owner = GuardianAI2.user_to_machine !! owner) →
  GuardianAI2.process_name path is_folder w = o1.
Proof.
  cbv zeta.
  change (GuardianAI.process_name self path is_folder w) with
    (pipeline GuardianAI.user_to_machine
       (GuardianAI.delete_path self path is_folder 3 2) path is_folder w).
  change (GuardianAI2.process_name path is_folder w) with
    (pipeline GuardianAI2.user_to_machine
       (GuardianAI2.delete_path path is_folder 3 2) path is_folder w).
  rewrite !pipeline_run. cbv zeta.
  destruct (res (screening path is_folder w)) as [[owner nf]|e] eqn:Hs; [|done].
  destruct (truthy nf); [|done].
  intros Hsilent Hsame.
  assert (Hdel : GuardianAI2.delete_path path is_folder 3 2
                   (final (screening path is_folder w)) =
                 GuardianAI.delete_path self path is_folder 3 2
                   (final (screening path is_folder w))).
  { apply delete_path_same.
    set (d := GuardianAI.delete_path self path is_folder 3 2 _) in *.
    destruct (res d); cbn [effects] in Hsilent;
      revert Hsilent; rewrite !quarantine_steps_app, quarantine_steps_print; lia. }
  rewrite Hdel.
  destruct (res (GuardianAI.delete_path self path is_folder 3 2 _)); [|done].
  by rewrite (notification_same path is_folder owner _ (Hsame owner nf eq_refl)).
Qed.

(** C8.  The mapping of guardianAI2.py is the mapping of guardianAI.py
    with one more entry; without a quarantine directory the two
    [delete_path] are the same function; and on every run of
    [process_name] of guardianAI.py in which no step of the quarantine is
    taken, for an owner that the two mappings treat alike, [process_name]
    of guardianAI2.py has the same result, the same effects and the same
    final state. *)
Theorem C8_variants_agree
    (W : Type) (E : Env W) (self : GuardianAI.WatcherHandler) (path : string)
    (is_folder : bool) (w : W) :
  (GuardianAI2.user_to_machine =
     <["APAC\SINGSID" := "C185LX083361246"]> GuardianAI.user_to_machine ∧
   GuardianAI.user_to_machine !! "APAC\SINGSID" = None) ∧
  (∀ max_retries retry_delay,
     truthy_str (GuardianAI.quarantine_dir self) = false →
     GuardianAI2.delete_path path is_folder max_retries retry_delay w =
     GuardianAI.delete_path self path is_folder max_retries retry_delay w) ∧
  (let o1 := GuardianAI.process_name self path is_folder w in
   quarantine_steps (effects o1) = 0 →
   (∀ owner name_found,
      res (screening path is_folder w) = Ok (owner, name_found) →
      is_Some (GuardianAI.user_to_machine !! owner) ∧
      is_Some (GuardianAI2.user_to_machine !! owner)) →
   GuardianAI2.process_name path is_folder w = o1).
Proof.
  assert (Hmap : GuardianAI2.user_to_machine =
                 <["APAC\SINGSID" := "C185LX083361246"]> GuardianAI.user_to_machine).
  { apply map_eq. intros k.
    unfold GuardianAI2.user_to_machine, GuardianAI.user_to_machine.
    rewrite !lookup_insert, lookup_empty. repeat case_decide; congruence. }
  split_and!.
  - done.
  - done.
  - intros max_retries retry_delay Hoff. by apply delete_path_off.
  - intros o1 Hsilent Hboth. apply process_name_same; [done|].
    intros owner nf Hs. destruct (Hboth owner nf Hs) as [[m Hm] _].
    rewrite Hmap, lookup_insert_ne; [done|].
    intros <-. by vm_compute in Hm.
Qed.

(** C8, on the folder with a file in use, where the first attempt
    counts as a success and the quarantine of guardianAI.py is not
    reached. *)
Lemma C8_folder_witness :
  GuardianAI2.process_name Sim.report true Sim.w_folder =
  GuardianAI.process_name Sim.with_quarantine Sim.report true Sim.w_folder.
Proof.
  refine (proj2 (proj2 (C8_variants_agree Sim.world Sim.sim_env Sim.with_quarantine
                          Sim.report true Sim.w_folder)) _ _).
  - vm_compute. reflexivity.
  - intros owner name_found Hs. vm_compute in Hs.
    injection Hs as <- <-. split; eexists; vm_compute; reflexivity.
Defined.

(** * Further properties of the code *)

(** ** What a removal leaves and what it takes *)
Section Removal.
Context {W : Type} `{!Env W} `{!EnvLaws W} `{!MoveLaws W}.

(** A removal of [path] keeps every entry it does not come to. *)
Lemma remove_entry_frame path is_folder q (w : W) :
  ¬ reaches path q → env_exists q w = true →
  env_exists q (final (remove_entry path is_folder w)) = true.
Proof.
  intros Hfar Hq. destruct is_folder; unfold remove_entry.
  - destruct (shutil_rmtree_spec (λ w, env_exists q w = true) path w) as (_ & _ & _ & Hk);
      [|done|].
    { intros t Ht. apply exists_stable. intros ->. by apply Hfar. }
    cbv zeta in Hk. destruct (res (shutil_rmtree path on_rm_error w)); simpl in Hk; [done|].
    by destruct Hk.
  - unfold os_remove, fs_call.
    pose proof (unlink_keeps path w q Hq) as Hk.
    destruct (env_unlink path w) as [err w']. simpl in *. apply Hk. left.
    intros ->. apply Hfar, reaches_here.
Qed.

(** When [os.remove] returns, the file is gone. *)
Lemma remove_file_gone path is_folder (w : W) u :
  is_folder = false →
  res (remove_entry path is_folder w) = Ok u →
  env_exists path (final (remove_entry path is_folder w)) = false.
Proof.
  intros ->. unfold remove_entry, os_remove, fs_call.
  pose proof (unlink_takes path w) as Hk.
  destruct (env_unlink path w) as [[msg|] w']; simpl in *; [done|]. intros _. by apply Hk.
Qed.

Lemma quarantine_frame self path q (w : W) :
  ¬ reaches path q → env_exists q w = true →
  env_exists q (final (GuardianAI.quarantine self path w)) = true.
Proof.
  intros Hfar Hq.
  destruct (truthy_str (GuardianAI.quarantine_dir self)) eqn:Hon;
    [|by rewrite quarantine_off].
  destruct (GuardianAI.quarantine_dir self) as [dir|] eqn:Hdir; [|done].
  pose proof (quarantine_on self path dir w Hdir Hon) as Hrun. cbv zeta in Hrun.
  rewrite Hrun.
  pose proof (makedirs_keeps dir w q Hq) as Hk1.
  destruct (env_makedirs dir w) as [[msg|] w1]; simpl in *; [done|].
  pose proof (move_keeps path (env_join dir (env_basename path)) w1 q Hk1 Hfar) as Hk2.
  by destruct (env_move path _ w1) as [[msg|] w2].
Qed.

Lemma quarantine_gone self path (w : W) :
  res (GuardianAI.quarantine self path w) = Ok (Some true) →
  env_exists path (final (GuardianAI.quarantine self path w)) = false.
Proof.
  destruct (truthy_str (GuardianAI.quarantine_dir self)) eqn:Hon;
    [|by rewrite quarantine_off].
  destruct (GuardianAI.quarantine_dir self) as [dir|] eqn:Hdir; [|done].
  pose proof (quarantine_on self path dir w Hdir Hon) as Hrun. cbv zeta in Hrun.
  rewrite Hrun.
  destruct (env_makedirs dir w) as [[msg|] w1]; simpl in *; [done|].
  pose proof (move_takes path (env_join dir (env_basename path)) w1) as Hk.
  destruct (env_move path _ w1) as [[msg|] w2]; simpl in *; [done|]. intros _. by apply Hk.
Qed.
End Removal.

Lemma quiet_of_engine (tr : list effect) :
  Forall quiet tr → Forall (λ e, of_engine e = true) tr.
Proof. intros H. eapply Forall_impl; [done|]. by intros []. Qed.

Lemma seqZ_to_nat (k m : Z) : seqZ k m = seqZ k (Z.of_nat (Z.to_nat m)).
Proof. unfold seqZ. by rewrite Nat2Z.id. Qed.

(** ** The deletion engine on every run *)
Section EngineReport.
Context {W : Type} `{!Env W}.
Variables (self : GuardianAI.WatcherHandler) (path : string) (is_folder : bool).
Variables (max_retries retry_delay : Z).

Local Opaque fix_permissions remove_entry.

Lemma removal_returned (w : W) u :
  res (remove_entry path is_folder w) = Ok u →
  every_removal_fails (effects (remove_entry path is_folder w)) = false.
Proof.
  intros Hres. destruct (remove_entry_shape path is_folder w) as (inner & Heff & _).
  cbv zeta in Heff. rewrite Heff, every_removal_fails_app, Hres. simpl.
  rewrite removal_ok_effect. simpl. by rewrite andb_false_r.
Qed.

Lemma removal_raised (w : W) e :
  res (remove_entry path is_folder w) = Raise e →
  every_removal_fails (effects (remove_entry path is_folder w)) = true.
Proof.
  intros Hres. destruct (remove_entry_shape path is_folder w) as (inner & Heff & Hq).
  cbv zeta in Heff. rewrite Heff, every_removal_fails_app, Hres. simpl.
  rewrite (every_removal_fails_quiet _ Hq), removal_ok_effect. done.
Qed.

(** The loop on the attempts [k, k+1, ..., max_retries]: it makes [j]
    attempts with a pause between them, and ends at the first removal that
    returns, or after the last attempt, with the quarantine branch. *)
Lemma delete_loop_report n : ∀ k (w : W),
  (0 ≤ retry_delay)%Z →
  (n = 0 ∨ (k + Z.of_nat n = max_retries + 1)%Z) →
  let o := GuardianAI.delete_loop self path is_folder max_retries retry_delay
             (seqZ k (Z.of_nat n)) w in
  ∃ j fallback,
    steps (effects o) = retries j retry_delay ++ fallback ∧
    j ≤ n ∧ (0 < n → 0 < j) ∧
    Forall (λ s, s = QuarantineStep) fallback ∧
    (truthy_str (GuardianAI.quarantine_dir self) = false → fallback = []) ∧
    ((every_removal_fails (effects o) = false ∧
      res o = Ok (Some true) ∧ fallback = []) ∨
     (every_removal_fails (effects o) = true ∧ j = n ∧
      ((n = 0 ∧ res o = Ok None ∧ fallback = []) ∨
       (0 < n ∧ (res o = Ok (Some false) ∨
                 res o = Ok (Some true) ∧ fallback ≠ []))))).
Proof.
  induction n as [|n IH]; intros k w Hdelay Hk; cbv zeta.
  { exists 0, []. simpl. split_and!; [done | done | lia | done | done |].
    right. split; [done|]. split; [done|]. by left. }
  rewrite seqZ_cons by lia.
  replace (Z.pred (Z.of_nat (S n))) with (Z.of_nat n) by lia.
  rewrite delete_loop_cons, delete_attempt_run. cbv zeta.
  destruct (attempt_pre_steps path is_folder w) as [Hsteps _]. cbv zeta in Hsteps.
  destruct (fix_permissions_ok path is_folder w) as [_ Hq1].
  pose proof (removal_returned (final (fix_permissions path is_folder w))) as Hret.
  pose proof (removal_raised (final (fix_permissions path is_folder w))) as Hrai.
  set (o1 := fix_permissions path is_folder w) in *.
  set (o2 := remove_entry path is_folder (final o1)) in *.
  destruct (res o2) as [u|e] eqn:He.
  - (* the removal returned *)
    exists 1, []. cbn [res effects final retries app]. rewrite steps_app, Hsteps.
    split_and!; [done | lia | lia | done | done |]. left. split_and!; [|done|done].
    rewrite !every_removal_fails_app, (Hret u eq_refl), andb_false_r. done.
  - assert (Hpre : every_removal_fails (effects o1 ++ effects o2) = true).
    { by rewrite every_removal_fails_app, (every_removal_fails_quiet _ Hq1), (Hrai e). }
    clear Hret Hrai.
    set (pre := effects o1 ++ effects o2) in *.
    destruct n as [|n].
    + (* the last attempt *)
      replace (k <? max_retries)%Z with false by lia.
      destruct (quarantine_result self path (final o2)) as (Hres & Hfb & Hall & _).
      cbv zeta in Hres, Hfb, Hall.
      pose proof (quarantine_silent self path (final o2)) as Hsilent.
      assert (Hoff : truthy_str (GuardianAI.quarantine_dir self) = false →
                     steps (effects (GuardianAI.quarantine self path (final o2))) = []).
      { intros Hoff. by rewrite quarantine_off. }
      set (oq := GuardianAI.quarantine self path (final o2)) in *.
      exists 1, (steps (effects oq)).
      destruct Hres as [Hq|Hq]; rewrite Hq; cbn [res effects final retries app].
      * change (EPrint ?a :: ?l ++ ?t) with ([EPrint a] ++ l ++ t).
        rewrite !steps_app, Hsteps, !every_removal_fails_app, Hpre, Hall. simpl.
        rewrite app_nil_r. split_and!; [done | lia | lia | done | done |].
        right. split_and!; [done | done |]. right. split; [lia | by left].
      * change (EPrint ?a :: ?l) with ([EPrint a] ++ l).
        rewrite !steps_app, Hsteps, !every_removal_fails_app, Hpre, Hall. simpl.
        split_and!; [done | lia | lia | done | done |].
        right. split_and!; [done | done |]. right. split; [lia|]. right.
        split; [done|]. intros Hnil. rewrite Hsilent in Hq; [done|].
        unfold quarantine_steps. by rewrite Hnil.
    + (* an attempt with more to come *)
      replace (k <? max_retries)%Z with true by lia.
      replace (retry_delay <? 0)%Z with false by lia.
      destruct (IH (Z.succ k) (env_sleep retry_delay (final o2)) Hdelay)
        as (j & fallback & Hst & Hj & Hpos & Hfb & Hoff & Hcases); [right; lia|].
      cbv zeta in Hst, Hcases. cbn [res effects final].
      set (o' := GuardianAI.delete_loop self path is_folder max_retries retry_delay
                   (seqZ (Z.succ k) (Z.of_nat (S n)))
                   (env_sleep retry_delay (final o2))) in *.
      destruct j as [|j]; [lia|].
      exists (S (S j)), fallback.
      change (pre ++ [?a; ?b]) with (pre ++ [a; b] ++ []).
      rewrite !steps_app, Hsteps, Hst, !every_removal_fails_app, Hpre. simpl.
      split_and!; [done | lia | lia | done | done |].
      destruct Hcases as [(Hf & Hr & Hnil)|(Hf & Hjn & Hr)].
      * left. by rewrite Hf.
      * right. rewrite Hf. split_and!; [done | lia |]. right. split; [lia|].
        destruct Hr as [(? & _)|(_ & Hr)]; [lia | done].
Qed.

Lemma delete_path_report (w : W) :
  env_exists path w = true → (0 ≤ retry_delay)%Z →
  let o := GuardianAI.delete_path self path is_folder max_retries retry_delay w in
  ∃ j fallback,
    steps (effects o) = retries j retry_delay ++ fallback ∧
    j ≤ Z.to_nat max_retries ∧ ((0 < max_retries)%Z → 0 < j) ∧
    Forall (λ s, s = QuarantineStep) fallback ∧
    (truthy_str (GuardianAI.quarantine_dir self) = false → fallback = []) ∧
    (every_removal_fails (effects o) = false → res o = Ok (Some true) ∧ fallback = []) ∧
    (every_removal_fails (effects o) = true → j = Z.to_nat max_retries).
Proof.
  intros Hw Hdelay. cbv zeta. rewrite delete_path_found, seqZ_to_nat by done.
  destruct (delete_loop_report (Z.to_nat max_retries) 1 w Hdelay)
    as (j & fallback & Hst & Hj & Hpos & Hfb & Hoff & Hcases); [lia|].
  cbv zeta in Hst, Hcases. exists j, fallback.
  split_and!; [done | done | intros; apply Hpos; lia | done | done | |].
  - intros Hf. destruct Hcases as [(_ & ? & ?)|(Ht & _)]; [done | congruence].
  - intros Ht. destruct Hcases as [(Hf & _)|(_ & ? & _)]; [congruence | done].
Qed.

(** An empty range of attempts: nothing is tried and nothing is
    logged; the function ends without a [return]. *)
Lemma delete_path_no_attempts (w : W) :
  env_exists path w = true → (max_retries ≤ 0)%Z →
  GuardianAI.delete_path self path is_folder max_retries retry_delay w =
  Outcome (Ok None) w [].
Proof.
  intros Hw Hm. rewrite delete_path_found by done. unfold seqZ.
  by replace (Z.to_nat max_retries) with 0 by lia.
Qed.

(** A negative pause: [time.sleep] raises in the handler of the first
    failed attempt, and the error leaves [delete_path]. *)
Lemma delete_path_negative_delay (w : W) :
  env_exists path w = true → (2 ≤ max_retries)%Z → (retry_delay < 0)%Z →
  let o := GuardianAI.delete_path self path is_folder max_retries retry_delay w in
  steps (effects o) = [DeleteAttempt] ∧
  (every_removal_fails (effects o) = true →
   res o = Raise (Exn ValueError "sleep length must be non-negative")) ∧
  (every_removal_fails (effects o) = false → res o = Ok (Some true)).
Proof.
  intros Hw Hm Hd. cbv zeta. rewrite delete_path_found by done.
  rewrite seqZ_cons by lia.
  rewrite delete_loop_cons, delete_attempt_run. cbv zeta.
  destruct (attempt_pre_steps path is_folder w) as [Hsteps _]. cbv zeta in Hsteps.
  destruct (fix_permissions_ok path is_folder w) as [_ Hq1].
  pose proof (removal_returned (final (fix_permissions path is_folder w))) as Hret.
  pose proof (removal_raised (final (fix_permissions path is_folder w))) as Hrai.
  set (o1 := fix_permissions path is_folder w) in *.
  set (o2 := remove_entry path is_folder (final o1)) in *.
  replace (1 <? max_retries)%Z with true by lia.
  replace (retry_delay <? 0)%Z with true by lia.
  destruct (res o2) as [u|e] eqn:He; cbn [res effects final].
  - rewrite steps_app, Hsteps, !every_removal_fails_app, (Hret u eq_refl), andb_false_r.
    by split_and!.
  - rewrite steps_app, Hsteps, !every_removal_fails_app,
      (every_removal_fails_quiet _ Hq1), (Hrai e eq_refl).
    by split_and!.
Qed.

Lemma quarantine_of_engine (w : W) :
  Forall (λ e, of_engine e = true) (effects (GuardianAI.quarantine self path w)).
Proof.
  destruct (truthy_str (GuardianAI.quarantine_dir self)) eqn:Hon;
    [|by rewrite quarantine_off].
  destruct (GuardianAI.quarantine_dir self) as [dir|] eqn:Hdir; [|done].
  pose proof (quarantine_on self path dir w Hdir Hon) as Hrun. cbv zeta in Hrun.
  rewrite Hrun.
  destruct (env_makedirs dir w) as [[msg|] w1]; simpl; [by repeat constructor|].
  destruct (env_move path _ w1) as [[msg|] w2]; simpl; by repeat constructor.
Qed.

Lemma remove_entry_of_engine (w : W) :
  Forall (λ e, of_engine e = true) (effects (remove_entry path is_folder w)).
Proof.
  destruct (remove_entry_shape path is_folder w) as (inner & Heff & Hq).
  cbv zeta in Heff. rewrite Heff. apply Forall_app. split; [by apply quiet_of_engine|].
  constructor; [|done]. by destruct is_folder.
Qed.

(** The engine calls neither the oracle, nor the security service,
    nor the messaging command. *)
Lemma delete_loop_of_engine attempts : ∀ w : W,
  Forall (λ e, of_engine e = true)
    (effects (GuardianAI.delete_loop self path is_folder max_retries retry_delay attempts w)).
Proof.
  induction attempts as [|attempt rest IH]; intros w; [done|].
  rewrite delete_loop_cons, delete_attempt_run. cbv zeta.
  destruct (fix_permissions_ok path is_folder w) as [_ Hq1%quiet_of_engine].
  pose proof (remove_entry_of_engine (final (fix_permissions path is_folder w))) as Hq2.
  set (o1 := fix_permissions path is_folder w) in *.
  set (o2 := remove_entry path is_folder (final o1)) in *.
  assert (Hpre : Forall (λ e, of_engine e = true) (effects o1 ++ effects o2)).
  { by apply Forall_app. }
  set (pre := effects o1 ++ effects o2) in *.
  destruct (res o2) as [u|e]; cbn [res effects final].
  { apply Forall_app. split; [done | by repeat constructor]. }
  destruct (attempt <? max_retries)%Z.
  - destruct (retry_delay <? 0)%Z; cbn [res effects final].
    + apply Forall_app. split; [done | by repeat constructor].
    + apply Forall_app. split; [|apply IH].
      apply Forall_app. split; [done | by repeat constructor].
  - pose proof (quarantine_of_engine (final o2)) as Hq.
    destruct (res (GuardianAI.quarantine self path (final o2))) as [[v|]|x];
      cbn [res effects final]; apply Forall_app; (split; [done|]);
      constructor; try done.
    apply Forall_app. split; [done | by repeat constructor].
Qed.

Lemma delete_path_of_engine (w : W) :
  Forall (λ e, of_engine e = true)
    (effects (GuardianAI.delete_path self path is_folder max_retries retry_delay w)).
Proof.
  destruct (env_exists path w) eqn:Hw.
  - rewrite delete_path_found by done. apply delete_loop_of_engine.
  - rewrite delete_path_missing by done. by repeat constructor.
Qed.

Section Laws.
Context `{!EnvLaws W} `{!MoveLaws W}.

(** The engine keeps every entry the removal of [path] does not come
    to. *)
Lemma delete_loop_frame q attempts : ∀ w : W,
  ¬ reaches path q → env_exists q w = true →
  env_exists q
    (final (GuardianAI.delete_loop self path is_folder max_retries retry_delay attempts w))
  = true.
Proof.
  intros w Hfar. revert w.
  induction attempts as [|attempt rest IH]; intros w Hq; [done|].
  rewrite delete_loop_cons, delete_attempt_run. cbv zeta.
  pose proof (fix_permissions_keeps path is_folder q w Hq) as H1.
  pose proof (remove_entry_frame path is_folder q _ Hfar H1) as H2.
  set (o1 := fix_permissions path is_folder w) in *.
  set (o2 := remove_entry path is_folder (final o1)) in *.
  destruct (res o2) as [u|e]; cbn [res effects final]; [done|].
  destruct (attempt <? max_retries)%Z.
  - destruct (retry_delay <? 0)%Z; cbn [res effects final]; [done|].
    apply IH. by apply sleep_keeps.
  - pose proof (quarantine_frame self path q (final o2) Hfar H2) as H3.
    by destruct (res (GuardianAI.quarantine self path (final o2))) as [[v|]|x].
Qed.

Lemma delete_path_frame q (w : W) :
  ¬ reaches path q → env_exists q w = true →
  env_exists q
    (final (GuardianAI.delete_path self path is_folder max_retries retry_delay w)) = true.
Proof.
  intros Hfar Hq. destruct (env_exists path w) eqn:Hw.
  - rewrite delete_path_found by done. by apply delete_loop_frame.
  - by rewrite delete_path_missing.
Qed.

(** For a file, the engine answers [True] only when the file has left
    [path]. *)
Lemma delete_loop_gone attempts : ∀ w : W,
  is_folder = false →
  res (GuardianAI.delete_loop self path is_folder max_retries retry_delay attempts w)
    = Ok (Some true) →
  env_exists path
    (final (GuardianAI.delete_loop self path is_folder max_retries retry_delay attempts w))
  = false.
Proof.
  intros w Hf. revert w.
  induction attempts as [|attempt rest IH]; intros w; [done|].
  rewrite delete_loop_cons, delete_attempt_run. cbv zeta.
  pose proof (λ u, remove_file_gone path is_folder
                     (final (fix_permissions path is_folder w)) u Hf) as Hgone.
  set (o1 := fix_permissions path is_folder w) in *.
  set (o2 := remove_entry path is_folder (final o1)) in *.
  destruct (res o2) as [u|e]; cbn [res effects final]; [intros _; by eapply Hgone|].
  destruct (attempt <? max_retries)%Z.
  - destruct (retry_delay <? 0)%Z; cbn [res effects final]; [done|]. apply IH.
  - pose proof (quarantine_gone self path (final o2)) as Hq.
    destruct (res (GuardianAI.quarantine self path (final o2))) as [[v|]|x];
      cbn [res effects final]; [|done|done].
    intros [= ->]. by apply Hq.
Qed.

Lemma delete_path_gone (w : W) :
  is_folder = false →
  res (GuardianAI.delete_path self path is_folder max_retries retry_delay w)
    = Ok (Some true) →
  env_exists path
    (final (GuardianAI.delete_path self path is_folder max_retries retry_delay w)) = false.
Proof.
  intros Hf. destruct (env_exists path w) eqn:Hw.
  - rewrite delete_path_found by done. by apply delete_loop_gone.
  - by rewrite delete_path_missing.
Qed.
End Laws.
End EngineReport.

(** ** Reading the calls of a run *)

Lemma hands_off_app l1 l2 : hands_off (l1 ++ l2) = hands_off l1 && hands_off l2.
Proof. apply forallb_app. Qed.

Lemma prints_hands_off tr : Forall (λ e, is_print e = true) tr → hands_off tr = true.
Proof.
  induction 1 as [|e tr He _ IH]; [done|].
  unfold hands_off in *. simpl. rewrite IH, andb_true_r. by destruct e.
Qed.

Lemma prints_filter (p : effect → bool) tr :
  (∀ e, is_print e = true → p e = false) →
  Forall (λ e, is_print e = true) tr → filter (λ e, p e = true) tr = [].
Proof.
  intros Hp. induction 1 as [|e tr He _ IH]; [done|].
  rewrite filter_cons_False; [done|]. by rewrite (Hp e He).
Qed.

Lemma calls_cons (p : effect → bool) e tr :
  filter (λ e, p e = true) (e :: tr) =
  if p e then e :: filter (λ e, p e = true) tr else filter (λ e, p e = true) tr.
Proof.
  destruct (p e) eqn:He; [by rewrite filter_cons_True | rewrite filter_cons_False; [done|]].
  by rewrite He.
Qed.

Lemma engine_filter (p : effect → bool) tr :
  (∀ e, of_engine e = true → p e = false) →
  Forall (λ e, of_engine e = true) tr → filter (λ e, p e = true) tr = [].
Proof.
  intros Hp. induction 1 as [|e tr He _ IH]; [done|].
  rewrite filter_cons_False; [done|]. by rewrite (Hp e He).
Qed.

Lemma hands_off_cons e tr : hands_off (e :: tr) = negb (mutating e) && hands_off tr.
Proof. done. Qed.

(** A run that changes nothing has no deletion attempt and no step of
    the quarantine. *)
Lemma hands_off_attempts tr :
  hands_off tr = true → attempts tr = 0 ∧ quarantine_steps tr = 0.
Proof.
  induction tr as [|e tr IH]; [done|]. rewrite hands_off_cons.
  intros [He Htr]%andb_true_iff. destruct (IH Htr) as [IH1 IH2].
  unfold attempts, quarantine_steps in *.
  rewrite steps_cons, !filter_app, !length_app, IH1, IH2.
  by destruct e.
Qed.

(** ** The pipeline on every run *)
Section Screening.
Context {W : Type} `{!Env W}.
Variables (path : string) (is_folder : bool).

(** The classification calls the oracle once and logs; it raises
    nothing but the error of [.get] on a reply that is no object. *)
Lemma classify_run name (w : W) :
  ∃ r rv w' tail,
    classify name w = Outcome rv w' (ELlm name r :: tail) ∧
    Forall (λ e, is_print e = true) tail ∧
    (∀ e, rv = Raise e → e = no_get).
Proof.
  unfold classify. unfold bind at 1. rewrite check_names_run.
  destruct (env_llm name w) as [[raw|e] w']; cbn [res final effects];
    rewrite parse_reply_run.
  - exists (Ok raw). destruct (env_json_loads raw) as [[]|]; simpl; do 3 eexists;
      (split; [done|]); (split; [by repeat constructor|]); intros e; by intros [= <-].
  - exists (Raise e). destruct (env_json_loads name_found_false) as [[]|]; simpl;
      do 3 eexists;
      (split; [done|]); (split; [by repeat constructor|]); intros x; by intros [= <-].
Qed.

Lemma classify_shape name (w : W) :
  ∃ r tail,
    effects (classify name w) = ELlm name r :: tail ∧
    Forall (λ e, is_print e = true) tail ∧
    (∀ e, res (classify name w) = Raise e → e = no_get).
Proof.
  destruct (classify_run name w) as (r & rv & w' & tail & -> & Ht & Hr).
  by exists r, tail.
Qed.

Lemma screening_run (w : W) :
  let og := get_owner path w in
  let oc := classify (env_basename path) (final og) in
  ∃ owner r tail,
    res og = Ok owner ∧
    effects og = EGetOwner path r :: tail ∧ Forall (λ e, is_print e = true) tail ∧
    (is_Some r → owner = "Unknown") ∧
    screening path is_folder w =
    Outcome (match res oc with Ok v => Ok (owner, v) | Raise e => Raise e end) (final oc)
      (effects og ++
       EPrint (type_word is_folder +:+ " detected: " +:+ env_basename path +:+
               " (Owner: " +:+ owner +:+ ")") :: effects oc).
Proof.
  cbv zeta. unfold screening, bind, print, ret. rewrite get_owner_run.
  destruct (env_owner path w) as [[[name domain]|e] w']; simpl.
  - exists (domain +:+ "\" +:+ name), None, [].
    split_and!; [done | done | done | by intros [? ?] |].
    destruct (res (classify (env_basename path) w')); simpl; by rewrite ?app_nil_r.
  - exists "Unknown", (Some e), [EPrint ("[WARNING] Could not get owner for " +:+ path +:+
                                         ": " +:+ exn_str e)].
    split_and!; [done | done | by repeat constructor | done |].
    destruct (res (classify (env_basename path) w')); simpl; by rewrite ?app_nil_r.
Qed.

(** The screening changes nothing, asks for the owner once, calls the
    oracle once, on the base name, and sends nothing. *)
Lemma screening_calls (w : W) :
  let s := screening path is_folder w in
  hands_off (effects s) = true ∧
  (∃ r, owner_queries (effects s) = [EGetOwner path r]) ∧
  (∃ r, llm_calls (effects s) = [ELlm (env_basename path) r]) ∧
  messages (effects s) = [] ∧
  (∀ e, res s = Raise e → e = no_get).
Proof.
  cbv zeta. destruct (screening_run w) as (owner & r1 & t1 & _ & Hg & Ht1 & _ & Hrun).
  cbv zeta in Hrun. rewrite Hrun, Hg. clear Hrun Hg.
  destruct (classify_shape (env_basename path) (final (get_owner path w)))
    as (r2 & t2 & Hc & Ht2 & Hraise).
  rewrite Hc. cbn [res final effects].
  unfold owner_queries, llm_calls, messages. split_and!.
  - rewrite hands_off_app, !hands_off_cons, (prints_hands_off _ Ht1),
      (prints_hands_off _ Ht2). done.
  - exists r1. rewrite filter_app, !calls_cons.
    rewrite (prints_filter is_owner_query t1), (prints_filter is_owner_query t2);
      [done | by intros [] | done | by intros [] | done].
  - exists r2. rewrite filter_app, !calls_cons.
    rewrite (prints_filter is_llm t1), (prints_filter is_llm t2);
      [done | by intros [] | done | by intros [] | done].
  - rewrite filter_app, !calls_cons.
    rewrite (prints_filter is_msg t1), (prints_filter is_msg t2);
      [done | by intros [] | done | by intros [] | done].
  - intros e He. apply Hraise. by destruct (res (classify _ _)); [|injection He as ->].
Qed.

(** The last block: at most one call, to the messaging command; the
    one error that leaves it is an error of that command that is no
    [CalledProcessError]. *)
Lemma notification_calls mapping owner (w : W) :
  let o := notification mapping path is_folder owner w in
  hands_off (effects o) = true ∧
  owner_queries (effects o) = [] ∧
  llm_calls (effects o) = [] ∧
  length (messages (effects o)) ≤ 1 ∧
  (∀ e, res o = Raise e →
     isinstance e CalledProcessError = false ∧
     ∃ machine user message, EMsg machine user message (Some e) ∈ effects o).
Proof.
  cbv zeta. unfold notification.
  destruct (truthy_str (mapping !! owner)).
  - rewrite send_msg_run.
    destruct (env_msg _ _ _ w) as [[e|] w']; [|by split_and!].
    destruct (isinstance e CalledProcessError) eqn:Hcls; [by split_and!|].
    split_and!; [done | done | done | simpl; lia |].
    intros x [= <-]. split; [done|]. do 3 eexists. by left.
  - simpl. split_and!; [done | done | done | lia | done].
Qed.
End Screening.

Section PipelineCalls.
Context {W : Type} `{!Env W}.
Variable mapping : gmap string string.
Variable deletion : M W (option bool).
Variables (path : string) (is_folder : bool).
Hypothesis deletion_returns : ∀ w, ∃ v, res (deletion w) = Ok v.
Hypothesis deletion_engine : ∀ w, Forall (λ e, of_engine e = true) (effects (deletion w)).

(** The run on a flagged entry: the screening, the alert, the
    deletion, the last block. *)
Lemma pipeline_flagged owner name_found (w : W) :
  res (screening path is_folder w) = Ok (owner, name_found) →
  truthy name_found = true →
  let s := screening path is_folder w in
  let d := deletion (final s) in
  let n := notification mapping path is_folder owner (final d) in
  pipeline mapping deletion path is_folder w =
  Outcome (res n) (final n)
    ((effects s ++ EPrint (alert_line path is_folder owner) :: effects d) ++ effects n).
Proof.
  intros Hs Hnf. cbv zeta. rewrite pipeline_run. cbv zeta. rewrite Hs, Hnf.
  destruct (deletion_returns (final (screening path is_folder w))) as [v Hv].
  by rewrite Hv.
Qed.

(** Without a true verdict the run changes nothing and sends
    nothing. *)
Lemma pipeline_clean (w : W) :
  (∀ owner name_found,
     res (screening path is_folder w) = Ok (owner, name_found) →
     truthy name_found = false) →
  let o := pipeline mapping deletion path is_folder w in
  hands_off (effects o) = true ∧ notified (effects o) = false ∧
  final o = final (screening path is_folder w).
Proof.
  intros Hclean. cbv zeta. rewrite pipeline_run. cbv zeta.
  destruct (screening_calls path is_folder w) as (Hoff & _). cbv zeta in Hoff.
  pose proof (screening_no_msg path is_folder w) as Hmsg.
  destruct (res (screening path is_folder w)) as [[owner nf]|e] eqn:Hs; [|done].
  rewrite (Hclean owner nf eq_refl). cbn [res final effects].
  by rewrite hands_off_app, notified_app, Hoff, Hmsg.
Qed.

(** One query for the owner, one call to the oracle, at most one
    message. *)
Lemma pipeline_calls (w : W) :
  let o := pipeline mapping deletion path is_folder w in
  (∃ r, owner_queries (effects o) = [EGetOwner path r]) ∧
  (∃ r, llm_calls (effects o) = [ELlm (env_basename path) r]) ∧
  length (messages (effects o)) ≤ 1.
Proof.
  cbv zeta.
  destruct (screening_calls path is_folder w) as (_ & [r1 Ho] & [r2 Hl] & Hm & _).
  cbv zeta in Ho, Hl, Hm.
  destruct (res (screening path is_folder w)) as [[owner nf]|e] eqn:Hs.
  - destruct (truthy nf) eqn:Hnf.
    + rewrite (pipeline_flagged owner nf w Hs Hnf). cbn [res final effects].
      set (s := screening path is_folder w) in *.
      pose proof (deletion_engine (final s)) as Hd.
      set (d := deletion (final s)) in *.
      destruct (notification_calls path is_folder mapping owner (final d))
        as (_ & Hno & Hnl & Hnm & _). cbv zeta in Hno, Hnl, Hnm.
      unfold owner_queries, llm_calls, messages in *.
      rewrite !filter_app, !calls_cons, Ho, Hl, Hm, Hno, Hnl.
      rewrite (engine_filter is_owner_query (effects d)),
        (engine_filter is_llm (effects d)), (engine_filter is_msg (effects d));
        [| by intros [] | done | by intros [] | done | by intros [] | done].
      split_and!; [by exists r1 | by exists r2 | done].
    + rewrite pipeline_run. cbv zeta. rewrite Hs, Hnf. cbn [res final effects].
      unfold owner_queries, llm_calls, messages in *.
      rewrite !filter_app, Ho, Hl, Hm.
      split_and!; [by exists r1 | by exists r2 | simpl; lia].
  - rewrite pipeline_run. cbv zeta. rewrite Hs. cbn [res final effects].
    unfold owner_queries, llm_calls, messages in *. rewrite Ho, Hl, Hm.
    split_and!; [by exists r1 | by exists r2 | simpl; lia].
Qed.

End PipelineCalls.

(** ** The pass over the permissions *)
Section Permissions.
Context {W : Type} `{!Env W}.







End Permissions.

(** ** The name of the account *)

Lemma split_last_from_plain acc s :
  no_backslash s = true → split_last_from backslash acc s = acc.
Proof.
  induction s as [|c s IH]; [done|]. simpl.
  intros [Hc Hs]%andb_true_iff. apply negb_true_iff in Hc. rewrite Hc. by apply IH.
Qed.

(** [f"{domain}\\{name}".split("\\")[-1]] is [name], for a name
    without a backslash. *)
Lemma split_last_account domain name :
  no_backslash name = true →
  split_last backslash (domain +:+ "\" +:+ name) = name.
Proof.
  intros Hname. unfold split_last.
  generalize (domain +:+ "\" +:+ name) at 1.
  induction domain as [|c domain IH]; intros acc.
  - simpl. change (EmptyString +:+ name) with name. by apply split_last_from_plain.
  - change (String c domain +:+ "\" +:+ name) with (String c (domain +:+ "\" +:+ name)).
    simpl. case_bool_decide; apply IH.
Qed.

(** ** The simulated file system and the laws of removal *)

Lemma sim_unlink_takes p (w : Sim.world) :
  (Sim.unlink p w).1 = None → Sim.exists_ p (Sim.unlink p w).2 = false.
Proof.
  unfold Sim.unlink. destruct (Sim.nodes w !! p) as [n|]; [|done].
  destruct (Sim.is_dir n || Sim.read_only n); [done|].
  destruct (Sim.in_use n); [done|]. simpl. intros _.
  unfold Sim.exists_. simpl. apply bool_decide_eq_false.
  rewrite lookup_delete_eq. by intros [? ?].
Qed.

Lemma sim_makedirs_keeps p (w : Sim.world) q :
  Sim.exists_ q w = true → Sim.exists_ q (Sim.makedirs p w).2 = true.
Proof.
  intros Hq. unfold Sim.makedirs. destruct (Sim.nodes w !! p) as [n|].
  - by destruct (Sim.is_dir n).
  - by apply sim_exists_insert.
Qed.

Lemma sim_move_keeps src dst (w : Sim.world) q :
  Sim.exists_ q w = true → q ≠ src → Sim.exists_ q (Sim.move src dst w).2 = true.
Proof.
  intros Hq Hne. unfold Sim.move. destruct (Sim.nodes w !! src) as [n|]; [|done].
  destruct (Sim.pinned n); [done|].
  destruct (negb (bool_decide (Sim.present src n w = []))); [done|].
  destruct (Sim.exists_ dst w); [done|]. simpl.
  unfold Sim.exists_ in *. simpl. apply bool_decide_eq_true.
  apply bool_decide_eq_true in Hq.
  destruct (decide (dst = q)) as [->|Hd].
  - rewrite lookup_insert_eq. by eexists.
  - by rewrite lookup_insert_ne, lookup_delete_ne.
Qed.

Global Instance sim_move_laws : MoveLaws Sim.world.
Proof.
  split.
  - intros p w. apply sim_unlink_takes.
  - intros p w q. apply sim_makedirs_keeps.
  - intros src dst w q Hq Hfar. apply sim_move_keeps; [done|].
    intros ->. apply Hfar, reaches_here.
Qed.

(** ** The engine of guardianAI2.py, through the one of guardianAI.py *)

Lemma delete_path2_plain {W : Type} `{!Env W} path is_folder max_retries retry_delay (w : W) :
  GuardianAI2.delete_path path is_folder max_retries retry_delay w =
  GuardianAI.delete_path plain_handler path is_folder max_retries retry_delay w.
Proof. by apply delete_path_off. Qed.

Lemma no_machine_for_unknown :
  GuardianAI.user_to_machine !! "Unknown" = None ∧
  GuardianAI2.user_to_machine !! "Unknown" = None.
Proof.
  unfold GuardianAI.user_to_machine, GuardianAI2.user_to_machine.
  rewrite !lookup_insert, lookup_empty. by repeat case_decide.
Qed.

(** ** What the engine answers *)
Section EngineAnswers.
Context {W : Type} `{!Env W}.
Variables (self : GuardianAI.WatcherHandler) (path : string) (is_folder : bool).
Variables (max_retries retry_delay : Z).

(** With one attempt or more [delete_path] answers [True] or
    [False]. *)
Lemma delete_path_answers (w : W) :
  (0 ≤ retry_delay)%Z → (1 ≤ max_retries)%Z →
  ∃ b, res (GuardianAI.delete_path self path is_folder max_retries retry_delay w)
       = Ok (Some b).
Proof.
  intros Hdelay Hm. destruct (env_exists path w) eqn:Hw.
  - rewrite delete_path_found, seqZ_to_nat by done.
    destruct (delete_loop_report self path is_folder max_retries retry_delay
                (Z.to_nat max_retries) 1 w Hdelay)
      as (j & fallback & _ & _ & _ & _ & _ & Hcases); [lia|].
    cbv zeta in Hcases.
    destruct Hcases as [(_ & Hr & _)|(_ & _ & [(Hn & _)|(_ & [Hr|(Hr & _)])])];
      [by eexists | lia | by eexists | by eexists].
  - rewrite delete_path_missing by done. by eexists.
Qed.

Lemma delete_path_bounded (w : W) :
  env_exists path w = true → (0 ≤ retry_delay)%Z →
  let o := GuardianAI.delete_path self path is_folder max_retries retry_delay w in
  bounded_retries max_retries retry_delay o ∧
  attempts (effects o) ≤ Z.to_nat max_retries ∧
  ((1 ≤ max_retries)%Z → 1 ≤ attempts (effects o)) ∧
  pauses (effects o) = replicate (attempts (effects o) - 1) retry_delay ∧
  (truthy_str (GuardianAI.quarantine_dir self) = false → quarantine_steps (effects o) = 0).
Proof.
  intros Hw Hdelay. cbv zeta.
  destruct (delete_path_report self path is_folder max_retries retry_delay w Hw Hdelay)
    as (j & fallback & Hst & Hj & Hpos & Hfb & Hoff & Hok & Hall).
  cbv zeta in Hst, Hok, Hall.
  destruct (schedule_counts _ _ _ _ Hst Hfb) as (Ha & Hp & Hq).
  rewrite Ha, Hp, Hq. split_and!.
  - by exists j, fallback.
  - done.
  - intros Hm. apply Hpos. lia.
  - done.
  - intros Hno. by rewrite (Hoff Hno).
Qed.
End EngineAnswers.

Lemma engine_no_msg tr : Forall (λ e, of_engine e = true) tr → notified tr = false.
Proof.
  induction 1 as [|e tr He _ IH]; [done|].
  unfold notified in *. simpl. rewrite IH, orb_false_r. by destruct e.
Qed.

Lemma attempts_app l1 l2 : attempts (l1 ++ l2) = attempts l1 + attempts l2.
Proof. unfold attempts. by rewrite steps_app, filter_app, length_app. Qed.

Section PipelineVerdicts.
Context {W : Type} `{!Env W}.
Variable mapping : gmap string string.
Variable deletion : M W (option bool).
Variables (path : string) (is_folder : bool).
Hypothesis deletion_returns : ∀ w, ∃ v, res (deletion w) = Ok v.
Hypothesis deletion_engine : ∀ w, Forall (λ e, of_engine e = true) (effects (deletion w)).
Hypothesis deletion_tries : ∀ w, env_exists path w = true → 1 ≤ attempts (effects (deletion w)).
Hypothesis no_unknown : mapping !! "Unknown" = None.

(** The screening, in terms of the query for the owner and of the
    classification. *)
Lemma screening_parts (w w1 : W) ro :
  env_owner path w = (ro, w1) →
  let oc := classify (env_basename path) w1 in
  ∃ owner,
    (owner = match ro with Ok (name, domain) => domain +:+ "\" +:+ name | Raise _ => "Unknown" end) ∧
    final (screening path is_folder w) = final oc ∧
    res (screening path is_folder w) =
    match res oc with Ok v => Ok (owner, v) | Raise e => Raise e end.
Proof.
  intros Ho. cbv zeta.
  destruct (screening_run path is_folder w) as (owner & r & tail & Hr & _ & _ & _ & Hrun).
  cbv zeta in Hrun. rewrite Hrun. clear Hrun. rewrite get_owner_run, Ho in *.
  exists owner. destruct ro as [[name domain]|e]; simpl in *;
    injection Hr as <-; by split_and!.
Qed.

(** The deletion is attempted exactly when the value of [name_found]
    is true as Python reads it. *)
Lemma pipeline_truth (w w1 : W) ro v :
  env_owner path w = (ro, w1) →
  res (classify (env_basename path) w1) = Ok v →
  env_exists path (final (classify (env_basename path) w1)) = true →
  let o := pipeline mapping deletion path is_folder w in
  (1 ≤ attempts (effects o) ↔ truthy v = true) ∧
  (truthy v = false → hands_off (effects o) = true ∧ notified (effects o) = false).
Proof.
  intros Ho Hv Hw. cbv zeta.
  destruct (screening_parts w w1 ro Ho) as (owner & _ & Hfin & Hres).
  cbv zeta in Hfin, Hres. rewrite Hv in Hres. rewrite <- Hfin in Hw.
  destruct (screening_calls path is_folder w) as (Hoff & _). cbv zeta in Hoff.
  destruct (truthy v) eqn:Htruth.
  - split; [|done]. split; [done|]. intros _.
    rewrite (pipeline_flagged mapping deletion path is_folder deletion_returns
               owner v w Hres Htruth). cbn [res final effects].
    change (?a :: ?l) with ([a] ++ l). rewrite !attempts_app.
    pose proof (deletion_tries _ Hw). lia.
  - assert (Hclean : ∀ owner' nf,
              res (screening path is_folder w) = Ok (owner', nf) → truthy nf = false).
    { intros owner' nf. rewrite Hres. by intros [= _ <-]. }
    destruct (pipeline_clean mapping deletion path is_folder w Hclean) as (Hh & Hn & _).
    cbv zeta in Hh, Hn. split; [|done]. split; [|done].
    destruct (hands_off_attempts _ Hh) as [Ha _]. rewrite Ha. lia.
Qed.

(** An owner that cannot be looked up: the entry is screened and
    removed all the same, and nobody is told. *)
Lemma pipeline_unknown_owner (w w1 : W) x :
  env_owner path w = (Raise x, w1) →
  let oc := classify (env_basename path) w1 in
  let o := pipeline mapping deletion path is_folder w in
  notified (effects o) = false ∧
  (∀ v, res oc = Ok v → truthy v = true →
     res o = Ok () ∧
     (∃ pre, effects o = pre ++ [EPrint (no_mapping_line "Unknown")]) ∧
     (env_exists path (final oc) = true → 1 ≤ attempts (effects o))).
Proof.
  intros Ho. cbv zeta.
  destruct (screening_parts w w1 (Raise x) Ho) as (owner & -> & Hfin & Hres).
  cbv zeta in Hfin, Hres.
  pose proof (screening_no_msg path is_folder w) as Hmsg.
  destruct (res (classify (env_basename path) w1)) as [v|e] eqn:Hv.
  - destruct (truthy v) eqn:Htruth.
    + rewrite (pipeline_flagged mapping deletion path is_folder deletion_returns
                 "Unknown" v w Hres Htruth). cbn [res final effects].
      unfold notification. rewrite no_unknown. simpl truthy_str. cbv iota.
      cbn [res final effects print].
      pose proof (deletion_engine (final (screening path is_folder w))) as Hd.
      assert (Hdm : notified (effects (deletion (final (screening path is_folder w)))) = false).
      { by apply engine_no_msg. }
      split.
      * change (EPrint ?a :: ?l) with ([EPrint a] ++ l).
        by rewrite !notified_app, Hmsg, Hdm.
      * intros v' [= <-] _. split_and!; [done | by eexists |].
        intros Hw. rewrite <- Hfin in Hw.
        change (EPrint ?a :: ?l) with ([EPrint a] ++ l). rewrite !attempts_app.
        pose proof (deletion_tries _ Hw). lia.
    + assert (Hclean : ∀ owner' nf,
                res (screening path is_folder w) = Ok (owner', nf) → truthy nf = false).
      { intros owner' nf. rewrite Hres. by intros [= _ <-]. }
      destruct (pipeline_clean mapping deletion path is_folder w Hclean) as (_ & Hn & _).
      cbv zeta in Hn. split; [done|]. intros v' [= <-]. congruence.
  - assert (Hclean : ∀ owner' nf,
              res (screening path is_folder w) = Ok (owner', nf) → truthy nf = false).
    { intros owner' nf. by rewrite Hres. }
    destruct (pipeline_clean mapping deletion path is_folder w Hclean) as (_ & Hn & _).
    cbv zeta in Hn. split; [done|]. by intros v'.
Qed.
End PipelineVerdicts.

(** ** The deletion of [process_name], in the two scripts *)
Section Deletions.
Context {W : Type} `{!Env W}.
Variables (self : GuardianAI.WatcherHandler) (path : string) (is_folder : bool).

Lemma deletion_returns_1 (w : W) :
  ∃ v, res (GuardianAI.delete_path self path is_folder 3 2 w) = Ok v.
Proof. by apply (delete_path_total self path is_folder 3 2 w). Qed.

Lemma deletion_returns_2 (w : W) :
  ∃ v, res (GuardianAI2.delete_path path is_folder 3 2 w) = Ok v.
Proof.
  rewrite delete_path2_plain. by apply (delete_path_total plain_handler path is_folder 3 2 w).
Qed.

Lemma deletion_silent_1 (w : W) :
  notified (effects (GuardianAI.delete_path self path is_folder 3 2 w)) = false.
Proof. by apply (delete_path_total self path is_folder 3 2 w). Qed.

Lemma deletion_silent_2 (w : W) :
  notified (effects (GuardianAI2.delete_path path is_folder 3 2 w)) = false.
Proof.
  rewrite delete_path2_plain. by apply (delete_path_total plain_handler path is_folder 3 2 w).
Qed.

Lemma deletion_engine_1 (w : W) :
  Forall (λ e, of_engine e = true)
    (effects (GuardianAI.delete_path self path is_folder 3 2 w)).
Proof. apply delete_path_of_engine. Qed.

Lemma deletion_engine_2 (w : W) :
  Forall (λ e, of_engine e = true) (effects (GuardianAI2.delete_path path is_folder 3 2 w)).
Proof. rewrite delete_path2_plain. apply delete_path_of_engine. Qed.

Lemma deletion_tries_1 (w : W) :
  env_exists path w = true →
  1 ≤ attempts (effects (GuardianAI.delete_path self path is_folder 3 2 w)).
Proof.
  intros Hw. destruct (delete_path_bounded self path is_folder 3 2 w Hw)
    as (_ & _ & Hone & _); [lia|]. apply Hone. lia.
Qed.

Lemma deletion_tries_2 (w : W) :
  env_exists path w = true →
  1 ≤ attempts (effects (GuardianAI2.delete_path path is_folder 3 2 w)).
Proof.
  intros Hw. rewrite delete_path2_plain.
  destruct (delete_path_bounded plain_handler path is_folder 3 2 w Hw)
    as (_ & _ & Hone & _); [lia|]. apply Hone. lia.
Qed.
End Deletions.

(** The table of guardianAI2.py holds the table of guardianAI.py. *)
Lemma machines_extend owner machine :
  GuardianAI.user_to_machine !! owner = Some machine →
  GuardianAI2.user_to_machine !! owner = Some machine.
Proof.
  unfold GuardianAI.user_to_machine, GuardianAI2.user_to_machine.
  rewrite !lookup_insert, !lookup_empty. by repeat case_decide.
Qed.

Section PipelineQuiet.
Context {W : Type} `{!Env W}.
Variable mapping : gmap string string.
Variable deletion : M W (option bool).
Variables (path : string) (is_folder : bool).

(** Without a true value of [name_found] the run changes nothing and
    sends nothing; it returns when the classification did. *)
Lemma pipeline_quiet (w w1 : W) ro :
  env_owner path w = (ro, w1) →
  let oc := classify (env_basename path) w1 in
  (∀ v, res oc = Ok v → truthy v = false) →
  let o := pipeline mapping deletion path is_folder w in
  hands_off (effects o) = true ∧ notified (effects o) = false ∧ final o = final oc ∧
  (is_Some (raised (res oc)) ∨ res o = Ok ()).
Proof.
  intros Ho oc Hfalse. cbv zeta.
  destruct (screening_parts path is_folder w w1 ro Ho) as (owner & _ & Hfin & Hres).
  cbv zeta in Hfin, Hres. fold oc in Hfin, Hres.
  assert (Hclean : ∀ owner' nf,
            res (screening path is_folder w) = Ok (owner', nf) → truthy nf = false).
  { intros owner' nf. rewrite Hres. destruct (res oc) as [v|e] eqn:Hv; [|done].
    intros [= _ <-]. by apply Hfalse. }
  destruct (pipeline_clean mapping deletion path is_folder w Hclean) as (Hh & Hn & Hf).
  cbv zeta in Hh, Hn, Hf. rewrite Hf, Hfin. split_and!; [done | done | done |].
  rewrite pipeline_run. cbv zeta. rewrite Hres.
  destruct (res oc) as [v|e] eqn:Hv; [|left; by eexists].
  right. by rewrite (Hfalse v eq_refl).
Qed.
End PipelineQuiet.

(** ** What a run of the pipeline costs *)

Lemma prints_steps tr : Forall (λ e, is_print e = true) tr → steps tr = [].
Proof.
  induction 1 as [|e tr He _ IH]; [done|]. rewrite steps_cons, IH. by destruct e.
Qed.

Section PipelineSteps.
Context {W : Type} `{!Env W}.
Variable mapping : gmap string string.
Variable deletion : M W (option bool).
Variables (path : string) (is_folder : bool).
Hypothesis deletion_returns : ∀ w, ∃ v, res (deletion w) = Ok v.

Lemma screening_steps (w : W) : steps (effects (screening path is_folder w)) = [].
Proof.
  destruct (screening_run path is_folder w) as (owner & r1 & t1 & _ & Hg & Ht1 & _ & Hrun).
  cbv zeta in Hrun. rewrite Hrun, Hg. clear Hrun Hg.
  destruct (classify_shape (env_basename path) (final (get_owner path w)))
    as (r2 & t2 & Hc & Ht2 & _).
  rewrite Hc. cbn [res final effects].
  by rewrite steps_app, !steps_cons, (prints_steps _ Ht1), (prints_steps _ Ht2).
Qed.

Lemma notification_steps owner (w : W) :
  steps (effects (notification mapping path is_folder owner w)) = [].
Proof.
  unfold notification. destruct (truthy_str (mapping !! owner)); [|done].
  rewrite send_msg_run. destruct (env_msg _ _ _ w) as [[e|] w']; [|done].
  by destruct (isinstance e CalledProcessError).
Qed.

(** The steps of a run of the pipeline are those of its deletion, if
    it comes to it. *)
Lemma pipeline_steps (w : W) :
  let o := pipeline mapping deletion path is_folder w in
  steps (effects o) = [] ∨
  steps (effects o) = steps (effects (deletion (final (screening path is_folder w)))).
Proof.
  cbv zeta. pose proof (screening_steps w) as Hs.
  destruct (res (screening path is_folder w)) as [[owner nf]|e] eqn:Hres.
  - destruct (truthy nf) eqn:Hnf.
    + right. rewrite (pipeline_flagged mapping deletion path is_folder deletion_returns
                        owner nf w Hres Hnf). cbn [res final effects].
      rewrite !steps_app, steps_cons, Hs, notification_steps. simpl.
      by rewrite app_nil_r.
    + left. rewrite pipeline_run. cbv zeta. rewrite Hres, Hnf. cbn [res final effects].
      by rewrite steps_app, Hs.
  - left. rewrite pipeline_run. cbv zeta. by rewrite Hres.
Qed.
End PipelineSteps.

Section EngineBudget.
Context {W : Type} `{!Env W}.
Variables (self : GuardianAI.WatcherHandler) (path : string) (is_folder : bool).

Lemma deletion_budget (w : W) :
  within_budget (effects (GuardianAI.delete_path self path is_folder 3 2 w)) ∧
  (truthy_str (GuardianAI.quarantine_dir self) = false →
   quarantine_steps (effects (GuardianAI.delete_path self path is_folder 3 2 w)) = 0).
Proof.
  destruct (env_exists path w) eqn:Hw.
  - destruct (delete_path_report self path is_folder 3 2 w Hw)
      as (j & fallback & Hst & Hj & _ & Hfb & Hoff & _); [lia|].
    cbv zeta in Hst. split.
    + exists j, fallback. split_and!; [done | lia | done].
    + intros Hno. destruct (schedule_counts _ _ _ _ Hst Hfb) as (_ & _ & ->).
      by rewrite (Hoff Hno).
  - rewrite delete_path_missing by done. split; [|done]. exists 0, []. split_and!; [done | lia | done].
Qed.

(** [False] is the answer only after every attempt was made and
    failed. *)
Lemma delete_path_false max_retries retry_delay (w : W) :
  env_exists path w = true → (0 ≤ retry_delay)%Z →
  let o := GuardianAI.delete_path self path is_folder max_retries retry_delay w in
  res o = Ok (Some false) →
  every_removal_fails (effects o) = true ∧ attempts (effects o) = Z.to_nat max_retries.
Proof.
  intros Hw Hdelay. cbv zeta. intros Hres.
  destruct (delete_path_report self path is_folder max_retries retry_delay w Hw Hdelay)
    as (j & fallback & Hst & _ & _ & Hfb & _ & Hok & Hall).
  cbv zeta in Hst, Hok, Hall.
  destruct (schedule_counts _ _ _ _ Hst Hfb) as (Ha & _).
  destruct (every_removal_fails (effects _)) eqn:Hf.
  - split; [done|]. rewrite Ha. by apply Hall.
  - destruct (Hok eq_refl) as [Hr _]. congruence.
Qed.
End EngineBudget.

(** * Further properties, stated *)



(** X2.  With [max_retries] zero or negative the range of attempts is
    empty: on an existing path [delete_path], of either script, tries
    nothing, logs nothing, leaves the file system as it is, and ends
    without a [return], so that its value is [None], neither [True] nor
    [False]. *)
Theorem X2_no_attempt_without_retries
    (W : Type) (E : Env W) (self : GuardianAI.WatcherHandler) (path : string)
    (is_folder : bool) (max_retries retry_delay : Z) (w : W) :
  env_exists path w = true → (max_retries ≤ 0)%Z →
  GuardianAI.delete_path self path is_folder max_retries retry_delay w =
    Outcome (Ok None) w [] ∧
  GuardianAI2.delete_path path is_folder max_retries retry_delay w =
    Outcome (Ok None) w [].
Proof.
  intros Hw Hm. split.
  - by apply delete_path_no_attempts.
  - rewrite delete_path2_plain. by apply delete_path_no_attempts.
Qed.

(** X2, on a free file and no attempt allowed. *)
Lemma X2_zero_retries_witness :
  GuardianAI.delete_path Sim.with_quarantine Sim.notes false 0 2 Sim.w_clean =
    Outcome (Ok None) Sim.w_clean [] ∧
  GuardianAI2.delete_path Sim.notes false 0 2 Sim.w_clean =
    Outcome (Ok None) Sim.w_clean [].
Proof.
  refine (X2_no_attempt_without_retries Sim.world Sim.sim_env Sim.with_quarantine Sim.notes
            false 0 2 Sim.w_clean _ _).
  - vm_compute. reflexivity.
  - lia.
Defined.

(** X3.  With a negative [retry_delay] and two attempts or more
    allowed, a run of [delete_path] on an existing path makes one attempt
    only: when its removal fails, [time.sleep] raises [ValueError] inside
    the handler, and the error leaves [delete_path], in either script,
    without a second attempt and without the quarantine; when it returns,
    the answer is [True]. *)
Theorem X3_negative_delay_raises
    (W : Type) (E : Env W) (self : GuardianAI.WatcherHandler) (path : string)
    (is_folder : bool) (max_retries retry_delay : Z) (w : W) :
  env_exists path w = true → (2 ≤ max_retries)%Z → (retry_delay < 0)%Z →
  let o1 := GuardianAI.delete_path self path is_folder max_retries retry_delay w in
  let o2 := GuardianAI2.delete_path path is_folder max_retries retry_delay w in
  let sleep_error := Exn ValueError "sleep length must be non-negative" in
  (steps (effects o1) = [DeleteAttempt] ∧
   (every_removal_fails (effects o1) = true → res o1 = Raise sleep_error) ∧
   (every_removal_fails (effects o1) = false → res o1 = Ok (Some true))) ∧
  (steps (effects o2) = [DeleteAttempt] ∧
   (every_removal_fails (effects o2) = true → res o2 = Raise sleep_error) ∧
   (every_removal_fails (effects o2) = false → res o2 = Ok (Some true))).
Proof.
  intros Hw Hm Hd o1 o2 sleep_error. split.
  - by apply delete_path_negative_delay.
  - subst o2. rewrite delete_path2_plain. by apply delete_path_negative_delay.
Qed.

(** X3, on the open file and a pause of minus one second. *)
Lemma X3_open_file_witness :
  let o1 := GuardianAI.delete_path Sim.with_quarantine Sim.notes false 3 (-1) Sim.w_busy in
  let o2 := GuardianAI2.delete_path Sim.notes false 3 (-1) Sim.w_busy in
  res o1 = Raise (Exn ValueError "sleep length must be non-negative") ∧
  res o2 = Raise (Exn ValueError "sleep length must be non-negative").
Proof.
  pose proof (X3_negative_delay_raises Sim.world Sim.sim_env Sim.with_quarantine Sim.notes
                false 3 (-1) Sim.w_busy) as H.
  destruct H as [(_ & H1 & _) (_ & H2 & _)].
  - vm_compute. reflexivity.
  - lia.
  - lia.
  - split.
    + apply H1. vm_compute. reflexivity.
    + apply H2. vm_compute. reflexivity.
Defined.

(** X4.  With a pause that is no negative length, [delete_path], of
    either script, never raises, whatever the calls to the file system do:
    every error of a change of mode, of a removal, of the quarantine is
    caught, the [RecursionError] of a deep [shutil.rmtree] with them.  With one attempt or more allowed its value is [True] or
    [False].  None of its calls goes to the oracle, to the security service
    or to the messaging command. *)
Theorem X4_delete_path_never_raises
    (W : Type) (E : Env W) (self : GuardianAI.WatcherHandler) (path : string)
    (is_folder : bool) (max_retries retry_delay : Z) (w : W) :
  (0 ≤ retry_delay)%Z →
  let o1 := GuardianAI.delete_path self path is_folder max_retries retry_delay w in
  let o2 := GuardianAI2.delete_path path is_folder max_retries retry_delay w in
  ((∃ v, res o1 = Ok v) ∧ ((1 ≤ max_retries)%Z → ∃ b, res o1 = Ok (Some b)) ∧
   Forall (λ e, of_engine e = true) (effects o1)) ∧
  ((∃ v, res o2 = Ok v) ∧ ((1 ≤ max_retries)%Z → ∃ b, res o2 = Ok (Some b)) ∧
   Forall (λ e, of_engine e = true) (effects o2)).
Proof.
  intros Hdelay o1 o2. split.
  - split_and!.
    + by apply (delete_path_total self path is_folder max_retries retry_delay w).
    + intros Hm. by apply delete_path_answers.
    + apply delete_path_of_engine.
  - subst o2. rewrite delete_path2_plain. split_and!.
    + by apply (delete_path_total plain_handler path is_folder max_retries retry_delay w).
    + intros Hm. by apply delete_path_answers.
    + apply delete_path_of_engine.
Qed.

(** X4, on the folder with a file in use. *)
Lemma X4_folder_witness :
  let o1 := GuardianAI.delete_path Sim.with_quarantine Sim.report true 3 2 Sim.w_folder in
  let o2 := GuardianAI2.delete_path Sim.report true 3 2 Sim.w_folder in
  ((∃ v, res o1 = Ok v) ∧ ((1 ≤ 3)%Z → ∃ b, res o1 = Ok (Some b)) ∧
   Forall (λ e, of_engine e = true) (effects o1)) ∧
  ((∃ v, res o2 = Ok v) ∧ ((1 ≤ 3)%Z → ∃ b, res o2 = Ok (Some b)) ∧
   Forall (λ e, of_engine e = true) (effects o2)).
Proof.
  refine (X4_delete_path_never_raises Sim.world Sim.sim_env Sim.with_quarantine Sim.report
            true 3 2 Sim.w_folder _).
  lia.
Defined.

(** X5.  [delete_path], of either script, removes nothing outside the
    entry it is given: an entry that exists before the call and that no
    chain of directory listings reaches from [path] exists after it,
    whether the removal succeeded, failed or ended in the quarantine.  The
    file system is assumed to obey [EnvLaws] and [MoveLaws]. *)
Theorem X5_entries_elsewhere_survive
    (W : Type) (E : Env W) (L : EnvLaws W) (ML : MoveLaws W)
    (self : GuardianAI.WatcherHandler) (path : string) (is_folder : bool)
    (max_retries retry_delay : Z) (q : string) (w : W) :
  ¬ @reaches W E path q → env_exists q w = true →
  let o1 := GuardianAI.delete_path self path is_folder max_retries retry_delay w in
  let o2 := GuardianAI2.delete_path path is_folder max_retries retry_delay w in
  env_exists q (final o1) = true ∧ env_exists q (final o2) = true.
Proof.
  intros Hfar Hq o1 o2. split.
  - by apply delete_path_frame.
  - subst o2. rewrite delete_path2_plain. by apply delete_path_frame.
Qed.

(** X5, on a folder that is removed and a file beside it. *)
Lemma X5_sibling_witness :
  let o1 := GuardianAI.delete_path Sim.with_quarantine Sim.report true 3 2
              Cases.w_siblings in
  let o2 := GuardianAI2.delete_path Sim.report true 3 2 Cases.w_siblings in
  Sim.exists_ Cases.plan (final o1) = true ∧ Sim.exists_ Cases.plan (final o2) = true.
Proof.
  refine (X5_entries_elsewhere_survive Sim.world Sim.sim_env sim_laws sim_move_laws
            Sim.with_quarantine Sim.report true 3 2 Cases.plan Cases.w_siblings _ _).
  - intros H%reaches_longer. vm_compute in H. lia.
  - vm_compute. reflexivity.
Defined.

(** X6.  For a file, [delete_path], of either script, answers [True]
    only when the file has left [path]: after [os.remove] returned, or
    after the move to the quarantine.  (For a folder the answer [True] does
    not mean this: the handler of [shutil.rmtree] swallows the failures on
    the entries.)  The file system is assumed to obey [EnvLaws] and
    [MoveLaws]. *)
Theorem X6_true_means_the_file_is_gone
    (W : Type) (E : Env W) (L : EnvLaws W) (ML : MoveLaws W)
    (self : GuardianAI.WatcherHandler) (path : string)
    (max_retries retry_delay : Z) (w : W) :
  let o1 := GuardianAI.delete_path self path false max_retries retry_delay w in
  let o2 := GuardianAI2.delete_path path false max_retries retry_delay w in
  (res o1 = Ok (Some true) → env_exists path (final o1) = false) ∧
  (res o2 = Ok (Some true) → env_exists path (final o2) = false).
Proof.
  intros o1 o2. split.
  - by apply delete_path_gone.
  - subst o2. rewrite delete_path2_plain. by apply delete_path_gone.
Qed.

(** X6, on the open file that is moved to the quarantine, and on a
    free file. *)
Lemma X6_moved_file_witness :
  let o1 := GuardianAI.delete_path Sim.with_quarantine Sim.notes false 3 2 Sim.w_busy in
  let o2 := GuardianAI2.delete_path Sim.notes false 3 2 Sim.w_clean in
  (res o1 = Ok (Some true) ∧ Sim.exists_ Sim.notes (final o1) = false) ∧
  (res o2 = Ok (Some true) ∧ Sim.exists_ Sim.notes (final o2) = false).
Proof.
  pose proof (X6_true_means_the_file_is_gone Sim.world Sim.sim_env sim_laws sim_move_laws
                Sim.with_quarantine Sim.notes 3 2 Sim.w_busy) as [H1 _].
  pose proof (X6_true_means_the_file_is_gone Sim.world Sim.sim_env sim_laws sim_move_laws
                Sim.with_quarantine Sim.notes 3 2 Sim.w_clean) as [_ H2].
  assert (Hr1 : res (GuardianAI.delete_path Sim.with_quarantine Sim.notes false 3 2
                       Sim.w_busy) = Ok (Some true)) by (vm_compute; reflexivity).
  assert (Hr2 : res (GuardianAI2.delete_path Sim.notes false 3 2 Sim.w_clean)
                = Ok (Some true)) by (vm_compute; reflexivity).
  exact (conj (conj Hr1 (H1 Hr1)) (conj Hr2 (H2 Hr2))).
Defined.


(** X8.  [process_name], of either script, touches the file system
    only after a true value of [name_found]: when the classification
    returns a value that Python reads as false, or raises, the run makes no
    call that changes the file system, sends no message, and leaves the
    world as the classification left it. *)
Theorem X8_untouched_without_true_verdict
    (W : Type) (E : Env W) (self : GuardianAI.WatcherHandler) (path : string)
    (is_folder : bool) (w w1 : W) (ro : result (string * string)) :
  env_owner path w = (ro, w1) →
  let oc := classify (env_basename path) w1 in
  (∀ v, res oc = Ok v → truthy v = false) →
  let o1 := GuardianAI.process_name self path is_folder w in
  let o2 := GuardianAI2.process_name path is_folder w in
  (hands_off (effects o1) = true ∧ notified (effects o1) = false ∧ final o1 = final oc) ∧
  (hands_off (effects o2) = true ∧ notified (effects o2) = false ∧ final o2 = final oc).
Proof.
  intros Ho oc Hfalse o1 o2. split.
  - destruct (pipeline_quiet GuardianAI.user_to_machine
                (GuardianAI.delete_path self path is_folder 3 2) path is_folder
                w w1 ro Ho Hfalse) as (? & ? & ? & _).
    by split_and!.
  - destruct (pipeline_quiet GuardianAI2.user_to_machine
                (GuardianAI2.delete_path path is_folder 3 2) path is_folder
                w w1 ro Ho Hfalse) as (? & ? & ? & _).
    by split_and!.
Qed.

(** X8, on a file in whose name the oracle finds nothing. *)
Lemma X8_clean_name_witness :
  let o1 := GuardianAI.process_name Sim.with_quarantine Sim.notes false Sim.w_clean in
  let o2 := GuardianAI2.process_name Sim.notes false Sim.w_clean in
  (hands_off (effects o1) = true ∧ notified (effects o1) = false ∧
   final o1 = final (classify (Sim.basename Sim.notes) Sim.w_clean)) ∧
  (hands_off (effects o2) = true ∧ notified (effects o2) = false ∧
   final o2 = final (classify (Sim.basename Sim.notes) Sim.w_clean)).
Proof.
  refine (X8_untouched_without_true_verdict Sim.world Sim.sim_env Sim.with_quarantine
            Sim.notes false Sim.w_clean Sim.w_clean Sim.hekolli _ _).
  - reflexivity.
  - intros v Hv. vm_compute in Hv. injection Hv as <-. reflexivity.
Defined.



(** X10.  The value of [name_found] is used with Python's truth value,
    not compared with [True]: when the reply is an object whose
    [name_found] is [v] and the entry exists, the deletion is attempted
    exactly when [v] is true as Python reads it, so that the string
    ["false"], a number that is not zero, a list that is not empty all
    lead to the removal; when [v] reads as false nothing is changed and
    nothing is sent.  In both scripts. *)
Theorem X10_verdict_is_a_truth_value
    (W : Type) (E : Env W) (self : GuardianAI.WatcherHandler) (path : string)
    (is_folder : bool) (w w1 w2 : W) (ro : result (string * string))
    (raw : string) (items : list (string * json)) (v : json) :
  env_owner path w = (ro, w1) →
  env_llm (env_basename path) w1 = (Ok raw, w2) →
  env_json_loads raw = Some (JObj items) →
  assoc_get "name_found" items = Some v →
  env_exists path w2 = true →
  let o1 := GuardianAI.process_name self path is_folder w in
  let o2 := GuardianAI2.process_name path is_folder w in
  ((1 ≤ attempts (effects o1) ↔ truthy v = true) ∧
   (truthy v = false → hands_off (effects o1) = true ∧ notified (effects o1) = false)) ∧
  ((1 ≤ attempts (effects o2) ↔ truthy v = true) ∧
   (truthy v = false → hands_off (effects o2) = true ∧ notified (effects o2) = false)).
Proof.
  intros Ho Hl Hj Hv Hw o1 o2.
  pose proof (classify_object _ raw items w1 w2 Hl Hj) as Hc. rewrite Hv in Hc.
  simpl in Hc.
  assert (Hres : res (classify (env_basename path) w1) = Ok v) by by rewrite Hc.
  assert (Hex : env_exists path (final (classify (env_basename path) w1)) = true)
    by by rewrite Hc.
  split.
  - apply (pipeline_truth GuardianAI.user_to_machine
             (GuardianAI.delete_path self path is_folder 3 2) path is_folder
             (deletion_returns_1 self path is_folder)
             (deletion_tries_1 self path is_folder) w w1 ro v Ho Hres Hex).
  - apply (pipeline_truth GuardianAI2.user_to_machine
             (GuardianAI2.delete_path path is_folder 3 2) path is_folder
             (deletion_returns_2 path is_folder)
             (deletion_tries_2 path is_folder) w w1 ro v Ho Hres Hex).
Qed.

(** X10, on the reply [{"name_found": "false"}]: the file is
    removed. *)
Lemma X10_quoted_false_witness :
  let o1 := GuardianAI.process_name Sim.with_quarantine Sim.notes false Cases.w_quoted in
  let o2 := GuardianAI2.process_name Sim.notes false Cases.w_quoted in
  JsonRef.json_loads_ref Cases.quoted_false = Some (JObj [("name_found", JStr "false")]) ∧
  truthy (JStr "false") = true ∧
  1 ≤ attempts (effects o1) ∧ 1 ≤ attempts (effects o2) ∧
  Sim.exists_ Sim.notes (final o1) = false.
Proof.
  assert (Hj : JsonRef.json_loads_ref Cases.quoted_false =
               Some (JObj [("name_found", JStr "false")])) by (vm_compute; reflexivity).
  pose proof (X10_verdict_is_a_truth_value Sim.world Sim.sim_env Sim.with_quarantine
                Sim.notes false Cases.w_quoted Cases.w_quoted Cases.w_quoted Sim.hekolli
                Cases.quoted_false [("name_found", JStr "false")] (JStr "false")
                eq_refl eq_refl Hj eq_refl eq_refl) as [[H1 _] [H2 _]].
  split_and!.
  - exact Hj.
  - reflexivity.
  - apply H1. reflexivity.
  - apply H2. reflexivity.
  - vm_compute. reflexivity.
Defined.



(** X12.  An owner that cannot be looked up does not stop the
    enforcement: when the security query raises, the owner is ["Unknown"],
    for which neither table has a machine, so that [process_name], of
    either script, sends no message; on a true verdict it still attempts
    the deletion of an existing entry, ends with the warning about the
    missing machine, and returns. *)
Theorem X12_unknown_owner_is_not_told
    (W : Type) (E : Env W) (self : GuardianAI.WatcherHandler) (path : string)
    (is_folder : bool) (w w1 : W) (x : exn) :
  env_owner path w = (Raise x, w1) →
  let oc := classify (env_basename path) w1 in
  let o1 := GuardianAI.process_name self path is_folder w in
  let o2 := GuardianAI2.process_name path is_folder w in
  (notified (effects o1) = false ∧
   (∀ v, res oc = Ok v → truthy v = true →
      res o1 = Ok () ∧
      (∃ pre, effects o1 = pre ++ [EPrint (no_mapping_line "Unknown")]) ∧
      (env_exists path (final oc) = true → 1 ≤ attempts (effects o1)))) ∧
  (notified (effects o2) = false ∧
   (∀ v, res oc = Ok v → truthy v = true →
      res o2 = Ok () ∧
      (∃ pre, effects o2 = pre ++ [EPrint (no_mapping_line "Unknown")]) ∧
      (env_exists path (final oc) = true → 1 ≤ attempts (effects o2)))).
Proof.
  intros Ho oc o1 o2. destruct no_machine_for_unknown as [Hno1 Hno2]. split.
  - apply (pipeline_unknown_owner GuardianAI.user_to_machine
             (GuardianAI.delete_path self path is_folder 3 2) path is_folder
             (deletion_returns_1 self path is_folder)
             (deletion_engine_1 self path is_folder)
             (deletion_tries_1 self path is_folder) Hno1 w w1 x Ho).
  - apply (pipeline_unknown_owner GuardianAI2.user_to_machine
             (GuardianAI2.delete_path path is_folder 3 2) path is_folder
             (deletion_returns_2 path is_folder)
             (deletion_engine_2 path is_folder)
             (deletion_tries_2 path is_folder) Hno2 w w1 x Ho).
Qed.

(** X12, on a file whose owner cannot be looked up: it is removed and
    nobody is told. *)
Lemma X12_orphan_file_witness :
  let o1 := GuardianAI.process_name Sim.with_quarantine Sim.notes false Cases.w_orphan in
  let o2 := GuardianAI2.process_name Sim.notes false Cases.w_orphan in
  (notified (effects o1) = false ∧ res o1 = Ok () ∧ 1 ≤ attempts (effects o1)) ∧
  (notified (effects o2) = false ∧ res o2 = Ok () ∧ 1 ≤ attempts (effects o2)).
Proof.
  pose proof (X12_unknown_owner_is_not_told Sim.world Sim.sim_env Sim.with_quarantine
                Sim.notes false Cases.w_orphan Cases.w_orphan
                (Exn OtherException
                   "No mapping between account names and security IDs was done.")
                eq_refl) as [[Hn1 H1] [Hn2 H2]].
  assert (Hv : res (classify (Sim.basename Sim.notes) Cases.w_orphan) = Ok (JBool true))
    by (vm_compute; reflexivity).
  assert (Hw : Sim.exists_ Sim.notes
                 (final (classify (Sim.basename Sim.notes) Cases.w_orphan)) = true)
    by (vm_compute; reflexivity).
  destruct (H1 (JBool true) Hv eq_refl) as (Hr1 & _ & Ha1).
  destruct (H2 (JBool true) Hv eq_refl) as (Hr2 & _ & Ha2).
  exact (conj (conj Hn1 (conj Hr1 (Ha1 Hw))) (conj Hn2 (conj Hr2 (Ha2 Hw)))).
Defined.

(** X13.  The message goes to the account name alone: when the
    security query gives the account [name] of [domain], [name] holds no
    backslash, the verdict is true and the table of guardianAI.py has a
    machine for [domain\name], [process_name] runs the messaging command
    for that machine and the user [name], without the domain, in
    guardianAI.py and, on the same machine, in guardianAI2.py, whose table
    holds the one of guardianAI.py. *)
Theorem X13_message_goes_to_the_account
    (W : Type) (E : Env W) (self : GuardianAI.WatcherHandler) (path : string)
    (is_folder : bool) (w w1 : W) (name domain machine : string) (v : json) :
  env_owner path w = (Ok (name, domain), w1) →
  no_backslash name = true →
  res (classify (env_basename path) w1) = Ok v → truthy v = true →
  GuardianAI.user_to_machine !! (domain +:+ "\" +:+ name) = Some machine →
  let o1 := GuardianAI.process_name self path is_folder w in
  let o2 := GuardianAI2.process_name path is_folder w in
  let message := removal_message (type_word is_folder) (env_basename path) in
  (∃ err, EMsg machine name message err ∈ effects o1) ∧
  (∃ err, EMsg machine name message err ∈ effects o2).
Proof.
  intros Ho Hname Hv Htruth Hm o1 o2 message.
  destruct (screening_parts path is_folder w w1 _ Ho) as (owner & -> & _ & Hres).
  cbv zeta in Hres. rewrite Hv in Hres. split.
  - pose proof (pipeline_verdict_true GuardianAI.user_to_machine _ path is_folder
                  (deletion_returns_1 self path is_folder)
                  (deletion_silent_1 self path is_folder) machines_named_1
                  _ v w Hres Htruth) as Hrun.
    cbv zeta in Hrun. rewrite Hm, split_last_account in Hrun by done.
    by destruct Hrun as [_ ?].
  - pose proof (pipeline_verdict_true GuardianAI2.user_to_machine _ path is_folder
                  (deletion_returns_2 path is_folder)
                  (deletion_silent_2 path is_folder) machines_named_2
                  _ v w Hres Htruth) as Hrun.
    cbv zeta in Hrun. rewrite (machines_extend _ _ Hm), split_last_account in Hrun by done.
    by destruct Hrun as [_ ?].
Qed.

(** X13, on the open file of APAC\HEKOLLI: the user of the message is
    HEKOLLI. *)
Lemma X13_hekolli_witness :
  let o1 := GuardianAI.process_name Sim.with_quarantine Sim.notes false Sim.w_busy in
  let o2 := GuardianAI2.process_name Sim.notes false Sim.w_busy in
  let message := removal_message (type_word false) (Sim.basename Sim.notes) in
  (∃ err, EMsg "C185LX082414174" "HEKOLLI" message err ∈ effects o1) ∧
  (∃ err, EMsg "C185LX082414174" "HEKOLLI" message err ∈ effects o2).
Proof.
  refine (X13_message_goes_to_the_account Sim.world Sim.sim_env Sim.with_quarantine
            Sim.notes false Sim.w_busy Sim.w_busy "HEKOLLI" "APAC" "C185LX082414174"
            (JBool true) _ _ _ _ _).
  - reflexivity.
  - reflexivity.
  - vm_compute. reflexivity.
  - reflexivity.
  - vm_compute. reflexivity.
Defined.

(** X14.  Every run of [process_name], of either script, asks the
    security service for the owner of [path] once, calls the oracle once,
    on the base name of [path] and not on the path, and runs the messaging
    command at most once: no call is repeated, whatever fails. *)
Theorem X14_one_call_to_each_service
    (W : Type) (E : Env W) (self : GuardianAI.WatcherHandler) (path : string)
    (is_folder : bool) (w : W) :
  one_call_each path (effects (GuardianAI.process_name self path is_folder w)) ∧
  one_call_each path (effects (GuardianAI2.process_name path is_folder w)).
Proof.
  split.
  - apply (pipeline_calls GuardianAI.user_to_machine
             (GuardianAI.delete_path self path is_folder 3 2) path is_folder
             (deletion_returns_1 self path is_folder)
             (deletion_engine_1 self path is_folder)).
  - apply (pipeline_calls GuardianAI2.user_to_machine
             (GuardianAI2.delete_path path is_folder 3 2) path is_folder
             (deletion_returns_2 path is_folder)
             (deletion_engine_2 path is_folder)).
Qed.

(** X15.  For a file, a call of [delete_path] that answered [True]
    makes the next call on the same path a no-op: the second call, from the
    world the first one left, logs that the path does not exist, answers
    [False] and changes nothing, in either script.  The file system is
    assumed to obey [EnvLaws] and [MoveLaws]. *)
Theorem X15_second_call_is_a_no_op
    (W : Type) (E : Env W) (L : EnvLaws W) (ML : MoveLaws W)
    (self : GuardianAI.WatcherHandler) (path : string)
    (max_retries retry_delay : Z) (w : W) :
  let o1 := GuardianAI.delete_path self path false max_retries retry_delay w in
  let o2 := GuardianAI2.delete_path path false max_retries retry_delay w in
  (res o1 = Ok (Some true) →
   GuardianAI.delete_path self path false max_retries retry_delay (final o1) =
   Outcome (Ok (Some false)) (final o1) [EPrint (missing_line path)]) ∧
  (res o2 = Ok (Some true) →
   GuardianAI2.delete_path path false max_retries retry_delay (final o2) =
   Outcome (Ok (Some false)) (final o2) [EPrint (missing_line path)]).
Proof.
  intros o1 o2. split.
  - intros Hr. apply delete_path_missing. by apply delete_path_gone.
  - subst o2. rewrite !delete_path2_plain. intros Hr.
    apply delete_path_missing. by apply delete_path_gone.
Qed.

(** X15, on a free file. *)
Lemma X15_free_file_witness :
  let o1 := GuardianAI.delete_path Sim.with_quarantine Sim.notes false 3 2 Sim.w_clean in
  let o2 := GuardianAI2.delete_path Sim.notes false 3 2 Sim.w_clean in
  (res o1 = Ok (Some true) ∧
   GuardianAI.delete_path Sim.with_quarantine Sim.notes false 3 2 (final o1) =
   Outcome (Ok (Some false)) (final o1) [EPrint (missing_line Sim.notes)]) ∧
  (res o2 = Ok (Some true) ∧
   GuardianAI2.delete_path Sim.notes false 3 2 (final o2) =
   Outcome (Ok (Some false)) (final o2) [EPrint (missing_line Sim.notes)]).
Proof.
  pose proof (X15_second_call_is_a_no_op Sim.world Sim.sim_env sim_laws sim_move_laws
                Sim.with_quarantine Sim.notes 3 2 Sim.w_clean) as [H1 H2].
  assert (Hr1 : res (GuardianAI.delete_path Sim.with_quarantine Sim.notes false 3 2
                       Sim.w_clean) = Ok (Some true)) by (vm_compute; reflexivity).
  assert (Hr2 : res (GuardianAI2.delete_path Sim.notes false 3 2 Sim.w_clean)
                = Ok (Some true)) by (vm_compute; reflexivity).
  exact (conj (conj Hr1 (H1 Hr1)) (conj Hr2 (H2 Hr2))).
Defined.

(** X16.  On an existing path and with a pause that is no negative
    length, [delete_path], of either script, answers [False] only after
    all [max_retries] attempts were made and the removal of each one
    failed. *)
Theorem X16_false_means_every_attempt_failed
    (W : Type) (E : Env W) (self : GuardianAI.WatcherHandler) (path : string)
    (is_folder : bool) (max_retries retry_delay : Z) (w : W) :
  env_exists path w = true → (0 ≤ retry_delay)%Z →
  let o1 := GuardianAI.delete_path self path is_folder max_retries retry_delay w in
  let o2 := GuardianAI2.delete_path path is_folder max_retries retry_delay w in
  (res o1 = Ok (Some false) →
   every_removal_fails (effects o1) = true ∧
   attempts (effects o1) = Z.to_nat max_retries) ∧
  (res o2 = Ok (Some false) →
   every_removal_fails (effects o2) = true ∧
   attempts (effects o2) = Z.to_nat max_retries).
Proof.
  intros Hw Hdelay o1 o2. split.
  - by apply delete_path_false.
  - subst o2. rewrite delete_path2_plain. by apply delete_path_false.
Qed.

(** X16, on the open file that cannot be renamed either. *)
Lemma X16_stuck_file_witness :
  let o1 := GuardianAI.delete_path Sim.with_quarantine Sim.notes false 3 2 Sim.w_stuck in
  let o2 := GuardianAI2.delete_path Sim.notes false 3 2 Sim.w_stuck in
  (res o1 = Ok (Some false) ∧ every_removal_fails (effects o1) = true ∧
   attempts (effects o1) = 3) ∧
  (res o2 = Ok (Some false) ∧ every_removal_fails (effects o2) = true ∧
   attempts (effects o2) = 3).
Proof.
  pose proof (X16_false_means_every_attempt_failed Sim.world Sim.sim_env
                Sim.with_quarantine Sim.notes false 3 2 Sim.w_stuck) as H.
  destruct H as [H1 H2].
  - vm_compute. reflexivity.
  - lia.
  - assert (Hr1 : res (GuardianAI.delete_path Sim.with_quarantine Sim.notes false 3 2
                         Sim.w_stuck) = Ok (Some false)) by (vm_compute; reflexivity).
    assert (Hr2 : res (GuardianAI2.delete_path Sim.notes false 3 2 Sim.w_stuck)
                  = Ok (Some false)) by (vm_compute; reflexivity).
    exact (conj (conj Hr1 (H1 Hr1)) (conj Hr2 (H2 Hr2))).
Defined.

(** X17.  What one event costs: every run of [process_name], of
    either script, makes at most three removal attempts, with a pause of
    two seconds between one and the next, whatever the file system does,
    since [delete_path] is called with its defaults; the steps of the
    quarantine come after them, and guardianAI2.py has none. *)
Theorem X17_an_event_has_a_budget
    (W : Type) (E : Env W) (self : GuardianAI.WatcherHandler) (path : string)
    (is_folder : bool) (w : W) :
  let o1 := GuardianAI.process_name self path is_folder w in
  let o2 := GuardianAI2.process_name path is_folder w in
  within_budget (effects o1) ∧
  within_budget (effects o2) ∧ quarantine_steps (effects o2) = 0.
Proof.
  intros o1 o2. subst o1 o2.
  assert (Hnone : within_budget []) by (exists 0, []; split_and!; [done | lia | done]).
  change (GuardianAI.process_name self path is_folder w) with
    (pipeline GuardianAI.user_to_machine
       (GuardianAI.delete_path self path is_folder 3 2) path is_folder w).
  change (GuardianAI2.process_name path is_folder w) with
    (pipeline GuardianAI2.user_to_machine
       (GuardianAI2.delete_path path is_folder 3 2) path is_folder w).
  pose proof (pipeline_steps GuardianAI.user_to_machine
                (GuardianAI.delete_path self path is_folder 3 2) path is_folder
                (deletion_returns_1 self path is_folder) w) as Hs1.
  pose proof (pipeline_steps GuardianAI2.user_to_machine
                (GuardianAI2.delete_path path is_folder 3 2) path is_folder
                (deletion_returns_2 path is_folder) w) as Hs2.
  cbv zeta in Hs1, Hs2. unfold within_budget, quarantine_steps in *.
  split_and!.
  - destruct Hs1 as [-> | ->]; [apply Hnone | apply deletion_budget].
  - destruct Hs2 as [-> | ->]; [apply Hnone|].
    rewrite delete_path2_plain. apply deletion_budget.
  - destruct Hs2 as [-> | ->]; [done|].
    rewrite delete_path2_plain.
    by apply (deletion_budget plain_handler path is_folder).
Qed.
